(** * drawio.py: the block codec, the document envelope and the element graph

    A shallow embedding of [src/drawio.py].  Python text ([str]) is a Rocq
    [string] holding the text's UTF-8 bytes, so that [str.encode('utf-8')]
    is the identity on the representation and [bytes.decode('utf-8')] is a
    validity check.  Python [bytes] are lists of integers in [0, 255].
    A call that raises is a [Raise] with the exception's class. *)

From Stdlib Require Import ZArith Ascii String List Lia Bool.
From stdpp Require Import base option list gmap strings.

Local Open Scope Z_scope.
#[local] Arguments String.append !_ _ / : simpl nomatch.

(** ** Exceptions and results *)

(** The exception classes the modelled code paths can raise. *)
Inductive PyExc : Type :=
  | TypeError
  | ValueError
  | IndexError
  | AttributeError
  | BinasciiError        (* binascii.Error, raised by base64.b64decode *)
  | ZlibError            (* zlib.error *)
  | UnicodeDecodeError
  | NotImplementedError.

Global Instance PyExc_eq_dec : EqDecision PyExc.
Proof. solve_decision. Defined.

(** The outcome of a call: a value, a raised exception, a recursion that
    did not finish within the fuel it was given, or a use of a reference
    to no object of the store (which no Python state contains). *)
Inductive result (A : Type) : Type :=
  | Ok (a : A)
  | Raise (e : PyExc)
  | OutOfFuel
  | Stuck.
Arguments Ok {A} a.
Arguments Raise {A} e.
Arguments OutOfFuel {A}.
Arguments Stuck {A}.

Global Instance result_ret : MRet result := fun A a => Ok a.
Global Instance result_bind : MBind result := fun A B k r =>
  match r with
  | Ok a => k a
  | Raise e => Raise e
  | OutOfFuel => OutOfFuel
  | Stuck => Stuck
  end.

Global Instance result_fmap : FMap result := fun A B f r =>
  match r with
  | Ok a => Ok (f a)
  | Raise e => Raise e
  | OutOfFuel => OutOfFuel
  | Stuck => Stuck
  end.

Fixpoint rmapM {A B} (f : A -> result B) (l : list A) : result (list B) :=
  match l with
  | [] => Ok []
  | a :: l' => b ← f a; bs ← rmapM f l'; Ok (b :: bs)
  end.

(** Python's [seq[i]] for an integer index: negative indices count from
    the end, anything out of range raises IndexError. *)
Definition py_index {A} (l : list A) (i : Z) : result A :=
  let n := Z.of_nat (length l) in
  let j := if i <? 0 then i + n else i in
  if (j <? 0) || (n <=? j) then Raise IndexError
  else match l !! Z.to_nat j with
       | Some a => Ok a
       | None => Raise IndexError
       end.

(** ** Python [str] operations used by the source *)

Module PyStr.

(** [s.startswith(p)], returning what follows the prefix. *)
Fixpoint strip_prefix (p s : string) : option string :=
  match p, s with
  | EmptyString, _ => Some s
  | String a p', String b s' =>
      if Ascii.eqb a b then strip_prefix p' s' else None
  | String _ _, EmptyString => None
  end.

(** The scan of [str.split(sep[, maxsplit])] for a non-empty [sep]: the
    text is read left to right; at a position where [sep] starts and a
    split is still allowed the current piece is closed and the
    separator's characters are skipped ([skip] counts those still to
    skip); otherwise the character joins the current piece ([cur], kept
    reversed).  [budget] is [None] for an unbounded split. *)
Fixpoint split_scan (sep : string) (budget : option nat) (skip : nat)
    (cur : string) (s : string) : list string :=
  match s with
  | EmptyString => [String.rev cur]
  | String c s' =>
      match skip with
      | S k => split_scan sep budget k cur s'
      | O =>
          match budget, strip_prefix sep s with
          | Some O, _ | _, None =>
              split_scan sep budget O (String c cur) s'
          | _, Some _ =>
              String.rev cur ::
              split_scan sep (Nat.pred <$> budget)
                         (Nat.pred (String.length sep)) "" s'
          end
      end
  end.

Definition split_with (sep : string) (budget : option nat) (s : string)
    : result (list string) :=
  match sep with
  | EmptyString => Raise ValueError
  | _ => Ok (split_scan sep budget O "" s)
  end.

(** [s.split(sep)] *)
Definition split (s sep : string) : result (list string) :=
  split_with sep None s.

(** [s.split(sep, maxsplit)] *)
Definition splitn (s sep : string) (maxsplit : nat) : result (list string) :=
  split_with sep (Some maxsplit) s.

(** [sep.join(pieces)] *)
Fixpoint join (sep : string) (pieces : list string) : string :=
  match pieces with
  | [] => ""
  | [p] => p
  | p :: rest => p +:+ sep +:+ join sep rest
  end.

(** [sep] occurs in [s] as a substring. *)
Definition occurs (sep s : string) : Prop :=
  exists pre post, s = pre +:+ sep +:+ post.

End PyStr.

(** ** Bytes *)

Definition byte_of_ascii (c : ascii) : Z := Z.of_N (N_of_ascii c).
Definition ascii_of_byte (b : Z) : ascii := ascii_of_N (Z.to_N (Z.land b 255)).

(** [s.encode('utf-8')] on the representation: the bytes of the text. *)
Fixpoint str_encode (s : string) : list Z :=
  match s with
  | EmptyString => []
  | String c s' => byte_of_ascii c :: str_encode s'
  end.

Fixpoint string_of_bytes (b : list Z) : string :=
  match b with
  | [] => EmptyString
  | x :: b' => String (ascii_of_byte x) (string_of_bytes b')
  end.

(** A value that is either text or bytes, for the calls whose behaviour
    depends on which of the two they are handed. *)
Inductive PyVal : Type :=
  | VStr (s : string)
  | VBytes (b : list Z).

(** ** The standard-library calls of the codec

    [base64], [zlib] and [urllib.parse] are not part of the repository;
    they are modelled from the CPython implementation ([binascii.c],
    [urllib/parse.py]) and RFC 1951, at the version the source needs
    (the [wbits] keyword of [zlib.compress] exists from Python 3.11). *)

Module base64.

(** [table_a2b_base64]: the value of a character of the standard
    alphabet. *)
Definition sextet (c : Z) : option Z :=
  if (65 <=? c) && (c <=? 90) then Some (c - 65)
  else if (97 <=? c) && (c <=? 122) then Some (c - 71)
  else if (48 <=? c) && (c <=? 57) then Some (c + 4)
  else if c =? 43 then Some 62
  else if c =? 47 then Some 63
  else None.

Definition PAD : Z := 61.

(** The loop of [binascii.a2b_base64] with [strict_mode] off, which is
    what [base64.b64decode(s)] calls: characters outside the alphabet
    are skipped, a pad that completes a quad ends the decoding, and a
    quad left open at the end of the input is an error. *)
Fixpoint a2b_loop (data : list Z) (quad_pos : nat) (leftchar : Z)
    (pads : nat) (out : list Z) : result (list Z) :=
  match data with
  | [] =>
      match quad_pos with
      | O => Ok (rev out)
      | _ => Raise BinasciiError
      end
  | this_ch :: data' =>
      if this_ch =? PAD then
        if (2 <=? quad_pos)%nat then
          if (4 <=? quad_pos + S pads)%nat then Ok (rev out)
          else a2b_loop data' quad_pos leftchar (S pads) out
        else a2b_loop data' quad_pos leftchar pads out
      else
        match sextet this_ch with
        | None => a2b_loop data' quad_pos leftchar pads out
        | Some v =>
            match quad_pos with
            | 0%nat => a2b_loop data' 1%nat v O out
            | 1%nat =>
                a2b_loop data' 2%nat (Z.land v 15) O
                  (Z.land (Z.lor (Z.shiftl leftchar 2) (Z.shiftr v 4)) 255 :: out)
            | 2%nat =>
                a2b_loop data' 3%nat (Z.land v 3) O
                  (Z.land (Z.lor (Z.shiftl leftchar 4) (Z.shiftr v 2)) 255 :: out)
            | _ =>
                a2b_loop data' 0%nat 0 O
                  (Z.land (Z.lor (Z.shiftl leftchar 6) v) 255 :: out)
            end
        end
  end.

(** [base64.b64decode(s)] for bytes [s]. *)
Definition b64decode (s : list Z) : result (list Z) :=
  a2b_loop s O 0 O [].

Definition b2a_char (v : Z) : Z :=
  if v <? 26 then v + 65
  else if v <? 52 then v + 71
  else if v <? 62 then v - 4
  else if v =? 62 then 43
  else 47.

Fixpoint b2a (data : list Z) : list Z :=
  match data with
  | [] => []
  | [a] =>
      [b2a_char (Z.shiftr a 2); b2a_char (Z.shiftl (Z.land a 3) 4); PAD; PAD]
  | [a; b] =>
      [b2a_char (Z.shiftr a 2);
       b2a_char (Z.lor (Z.shiftl (Z.land a 3) 4) (Z.shiftr b 4));
       b2a_char (Z.shiftl (Z.land b 15) 2); PAD]
  | a :: b :: c :: rest =>
      b2a_char (Z.shiftr a 2)
      :: b2a_char (Z.lor (Z.shiftl (Z.land a 3) 4) (Z.shiftr b 4))
      :: b2a_char (Z.lor (Z.shiftl (Z.land b 15) 2) (Z.shiftr c 6))
      :: b2a_char (Z.land c 63)
      :: b2a rest
  end.

(** [base64.b64encode(s)]: a bytes-like argument is required. *)
Definition b64encode (s : PyVal) : result PyVal :=
  match s with
  | VBytes b => Ok (VBytes (b2a b))
  | VStr _ => Raise TypeError
  end.

End base64.

Module zlib.

(** The input of the decompressor: the bytes not yet read, the bits of
    the current byte not yet used (least significant first), and the
    output so far, most recent byte first. *)
Record stream : Type := mkStream {
  input : list Z;
  bitbuf : list bool;
  output : list Z
}.

Fixpoint byte_bits (n : nat) (b : Z) : list bool :=
  match n with
  | O => []
  | S k => Z.odd b :: byte_bits k (Z.shiftr b 1)
  end.

Definition getbit (s : stream) : result (bool * stream) :=
  match bitbuf s with
  | b :: r => Ok (b, mkStream (input s) r (output s))
  | [] =>
      match input s with
      | [] => Raise ZlibError
      | x :: xs =>
          Ok (Z.odd x, mkStream xs (byte_bits 7 (Z.shiftr x 1)) (output s))
      end
  end.

(** [need] bits of the stream as a number, first bit least significant. *)
Fixpoint bits (need : nat) (s : stream) : result (Z * stream) :=
  match need with
  | O => Ok (0, s)
  | S k =>
      '(b, s1) ← getbit s;
      '(v, s2) ← bits k s1;
      Ok (Z.b2z b + 2 * v, s2)
  end.

(** A canonical Huffman code: how many symbols have each code length
    (index 0 to 15) and the symbols in the order of their codes. *)
Record huffman : Type := mkHuffman {
  count : list Z;
  symbol : list Z
}.

Definition MAXBITS : nat := 15.

Definition symbols_of_length (lengths : list Z) (len : Z) : list Z :=
  omap (fun '(i, l) => if l =? len then Some (Z.of_nat i) else None)
       (imap (fun i l => (i, l)) lengths).

(** How much of the code space is left after each length; a negative
    value means the lengths are over-subscribed. *)
Fixpoint space_left (counts : list Z) (left : Z) : Z :=
  match counts with
  | [] => left
  | c :: rest =>
      let left' := 2 * left - c in
      if left' <? 0 then left' else space_left rest left'
  end.

(** Builds the code of a list of code lengths; the number returned is
    zero for a complete code, positive for an incomplete one and
    negative for an over-subscribed one. *)
Definition construct (lengths : list Z) : huffman * Z :=
  let lens := seq 0 (S MAXBITS) in
  let cnt := map (fun len => Z.of_nat (length (symbols_of_length lengths (Z.of_nat len)))) lens in
  let syms := flat_map (fun len => symbols_of_length lengths (Z.of_nat len)) (seq 1 MAXBITS) in
  let h := mkHuffman cnt syms in
  if default 0 (cnt !! O) =? Z.of_nat (length lengths) then (h, 0)
  else (h, space_left (drop 1 cnt) 1).

(** Reads one symbol: the code is extended a bit at a time until it
    falls among the codes of the current length. *)
Fixpoint decode_from (counts : list Z) (h : huffman) (code first index : Z)
    (s : stream) : result (Z * stream) :=
  match counts with
  | [] => Raise ZlibError
  | cnt :: rest =>
      '(b, s1) ← getbit s;
      let code := Z.lor code (Z.b2z b) in
      if code - cnt <? first then
        match symbol h !! Z.to_nat (index + (code - first)) with
        | Some sym => Ok (sym, s1)
        | None => Raise ZlibError
        end
      else
        decode_from rest h (Z.shiftl code 1) (Z.shiftl (first + cnt) 1)
                    (index + cnt) s1
  end.

Definition decode (h : huffman) (s : stream) : result (Z * stream) :=
  decode_from (drop 1 (count h)) h 0 0 0 s.

Definition lens : list Z :=
  [3; 4; 5; 6; 7; 8; 9; 10; 11; 13; 15; 17; 19; 23; 27; 31; 35; 43; 51;
   59; 67; 83; 99; 115; 131; 163; 195; 227; 258].
Definition lext : list nat :=
  [0; 0; 0; 0; 0; 0; 0; 0; 1; 1; 1; 1; 2; 2; 2; 2; 3; 3; 3; 3; 4; 4; 4;
   4; 5; 5; 5; 5; 0]%nat.
Definition dists : list Z :=
  [1; 2; 3; 4; 5; 7; 9; 13; 17; 25; 33; 49; 65; 97; 129; 193; 257; 385;
   513; 769; 1025; 1537; 2049; 3073; 4097; 6145; 8193; 12289; 16385;
   24577].
Definition dext : list nat :=
  [0; 0; 0; 0; 1; 1; 2; 2; 3; 3; 4; 4; 5; 5; 6; 6; 7; 7; 8; 8; 9; 9; 10;
   10; 11; 11; 12; 12; 13; 13]%nat.

(** Copies [len] bytes that lie [dist] back in the output, one at a
    time, so that a copy may overlap what it writes. *)
Fixpoint copy_back (len : nat) (dist : nat) (out : list Z) : list Z :=
  match len with
  | O => out
  | S k => copy_back k dist (default 0 (out !! Nat.pred dist) :: out)
  end.

(** The symbols of one compressed block, up to its end-of-block. *)
Fixpoint codes (fuel : nat) (lencode distcode : huffman) (s : stream)
    : result stream :=
  match fuel with
  | O => OutOfFuel
  | S fuel' =>
      '(sym, s1) ← decode lencode s;
      if sym <? 256 then
        codes fuel' lencode distcode
              (mkStream (input s1) (bitbuf s1) (sym :: output s1))
      else if sym =? 256 then Ok s1
      else
        let i := Z.to_nat (sym - 257) in
        match lens !! i, lext !! i with
        | Some base, Some extra =>
            '(e, s2) ← bits extra s1;
            let len := base + e in
            '(dsym, s3) ← decode distcode s2;
            match dists !! Z.to_nat dsym, dext !! Z.to_nat dsym with
            | Some dbase, Some dextra =>
                '(de, s4) ← bits dextra s3;
                let dist := dbase + de in
                if Z.of_nat (length (output s4)) <? dist then Raise ZlibError
                else
                  codes fuel' lencode distcode
                    (mkStream (input s4) (bitbuf s4)
                       (copy_back (Z.to_nat len) (Z.to_nat dist) (output s4)))
            | _, _ => Raise ZlibError
            end
        | _, _ => Raise ZlibError
        end
  end.

(** A stored block: the rest of the current byte is dropped, then come
    the length, its complement and the bytes themselves. *)
Definition stored (s : stream) : result stream :=
  match input s with
  | l0 :: l1 :: n0 :: n1 :: rest =>
      let len := Z.lor l0 (Z.shiftl l1 8) in
      if (n0 =? Z.land (Z.lnot len) 255)
         && (n1 =? Z.land (Z.shiftr (Z.lnot len) 8) 255)
      then
        if Z.of_nat (length rest) <? len then Raise ZlibError
        else Ok (mkStream (drop (Z.to_nat len) rest) []
                          (rev (take (Z.to_nat len) rest) ++ output s))
      else Raise ZlibError
  | _ => Raise ZlibError
  end.

Definition fixed_lencode : huffman :=
  fst (construct (replicate 144 8 ++ replicate 112 9
                  ++ replicate 24 7 ++ replicate 8 8)).
Definition fixed_distcode : huffman :=
  fst (construct (replicate 30 5)).

Definition fixed (fuel : nat) (s : stream) : result stream :=
  codes fuel fixed_lencode fixed_distcode s.

Definition order : list nat :=
  [16; 17; 18; 0; 8; 7; 9; 6; 10; 5; 11; 4; 12; 3; 13; 2; 14; 1; 15]%nat.

Fixpoint read_code_lengths (ord : list nat) (ncode : nat) (acc : list Z)
    (s : stream) : result (list Z * stream) :=
  match ncode, ord with
  | S k, o :: ord' =>
      '(v, s1) ← bits 3 s;
      read_code_lengths ord' k (<[o := v]> acc) s1
  | _, _ => Ok (acc, s)
  end.

(** The code lengths of the literal/length and distance codes, read
    with the code-length code and its three repeat symbols. *)
Fixpoint read_lengths (fuel : nat) (lencode : huffman) (total : nat)
    (acc : list Z) (s : stream) : result (list Z * stream) :=
  match fuel with
  | O => OutOfFuel
  | S fuel' =>
      if (total <=? length acc)%nat then Ok (acc, s)
      else
        '(sym, s1) ← decode lencode s;
        if sym <? 16 then read_lengths fuel' lencode total (acc ++ [sym]) s1
        else
          '(len, rep, s2) ←
            (if sym =? 16 then
               match last acc with
               | None => Raise ZlibError
               | Some prev => '(r, s2) ← bits 2 s1; Ok (prev, 3 + r, s2)
               end
             else if sym =? 17 then '(r, s2) ← bits 3 s1; Ok (0, 3 + r, s2)
             else '(r, s2) ← bits 7 s1; Ok (0, 11 + r, s2));
          if (total <? length acc + Z.to_nat rep)%nat then Raise ZlibError
          else read_lengths fuel' lencode total
                 (acc ++ replicate (Z.to_nat rep) len) s2
  end.

(** The acceptance test for a literal/length or distance code: complete,
    or incomplete with a single code of one bit. *)
Definition code_ok (h : huffman) (left : Z) (n : nat) : bool :=
  (left =? 0)
  || ((0 <? left)
      && (Z.of_nat n =? default 0 (count h !! O) + default 0 (count h !! 1%nat))).

Definition dynamic (fuel : nat) (s : stream) : result stream :=
  '(hlit, s1) ← bits 5 s;
  '(hdist, s2) ← bits 5 s1;
  '(hclen, s3) ← bits 4 s2;
  let nlen := Z.to_nat (hlit + 257) in
  let ndist := Z.to_nat (hdist + 1) in
  let ncode := Z.to_nat (hclen + 4) in
  if (286 <? nlen)%nat || (30 <? ndist)%nat then Raise ZlibError
  else
    '(cl, s4) ← read_code_lengths order ncode (replicate 19 0) s3;
    let '(clcode, err) := construct cl in
    if negb (err =? 0) then Raise ZlibError
    else
      '(lengths, s5) ← read_lengths fuel clcode (nlen + ndist) [] s4;
      if default 0 (lengths !! 256%nat) =? 0 then Raise ZlibError
      else
        let '(lencode, lerr) := construct (take nlen lengths) in
        let '(distcode, derr) := construct (drop nlen lengths) in
        if code_ok lencode lerr nlen && code_ok distcode derr ndist
        then codes fuel lencode distcode s5
        else Raise ZlibError.

(** The blocks of a stream, up to and including the one marked last. *)
Fixpoint blocks (fuel : nat) (s : stream) : result stream :=
  match fuel with
  | O => OutOfFuel
  | S fuel' =>
      '(last, s1) ← getbit s;
      '(type, s2) ← bits 2 s1;
      s3 ← (if type =? 0 then stored s2
            else if type =? 1 then fixed fuel' s2
            else if type =? 2 then dynamic fuel' s2
            else Raise ZlibError);
      if (last : bool) then Ok s3 else blocks fuel' s3
  end.

(** [zlib.decompress(data, wbits=-15)]: a raw deflate stream, without
    header or trailer.  Bytes after the last block are ignored; a stream
    that ends before its last block does is an error. *)
Definition decompress_raw (data : list Z) : result (list Z) :=
  s ← blocks (S (8 * length data)) (mkStream data [] []);
  Ok (rev (output s)).

End zlib.

Module utf8.

Definition in_range (lo hi b : Z) : bool := (lo <=? b) && (b <=? hi).

(** The ranges the bytes after a first byte must lie in for a
    well-formed sequence; [None] for a byte that cannot start one. *)
Definition tail_ranges (b0 : Z) : option (list (Z * Z)) :=
  if in_range 0 127 b0 then Some []
  else if in_range 194 223 b0 then Some [(128, 191)]
  else if b0 =? 224 then Some [(160, 191); (128, 191)]
  else if in_range 225 236 b0 || in_range 238 239 b0
    then Some [(128, 191); (128, 191)]
  else if b0 =? 237 then Some [(128, 159); (128, 191)]
  else if b0 =? 240 then Some [(144, 191); (128, 191); (128, 191)]
  else if in_range 241 243 b0 then Some [(128, 191); (128, 191); (128, 191)]
  else if b0 =? 244 then Some [(128, 143); (128, 191); (128, 191)]
  else None.

(** U+FFFD, the replacement character. *)
Definition REPLACEMENT : list Z := [239; 191; 189].

(** The decoder cuts the bytes into well-formed sequences ([Some]) and
    ill-formed parts ([None]): [pending] are the ranges still owed by
    the sequence being read and [held] its bytes so far, last first. *)
Fixpoint scan (pending : list (Z * Z)) (held : list Z) (bs : list Z)
    : list (option (list Z)) :=
  match bs with
  | [] =>
      match held with
      | [] => []
      | _ => [None]
      end
  | b :: bs' =>
      let fresh :=
        match tail_ranges b with
        | None => None :: scan [] [] bs'
        | Some [] => Some [b] :: scan [] [] bs'
        | Some rs => scan rs [b] bs'
        end in
      match pending with
      | [] => fresh
      | (lo, hi) :: rs =>
          if in_range lo hi b then
            match rs with
            | [] => Some (rev (b :: held)) :: scan [] [] bs'
            | _ => scan rs (b :: held) bs'
            end
          else None :: fresh
      end
  end.

(** [b.decode('utf-8')]: an ill-formed part is an error. *)
Definition decode (b : list Z) : result string :=
  match mapM id (scan [] [] b) with
  | Some seqs => Ok (string_of_bytes (concat seqs))
  | None => Raise UnicodeDecodeError
  end.

(** [b.decode('utf-8', 'replace')]: an ill-formed part becomes the
    replacement character. *)
Definition decode_replace (b : list Z) : string :=
  string_of_bytes (concat (default REPLACEMENT <$> scan [] [] b)).

End utf8.

Module urllib.

Definition is_alnum (b : Z) : bool :=
  utf8.in_range 65 90 b || utf8.in_range 97 122 b || utf8.in_range 48 57 b.

(** The characters [quote] never escapes, with its default [safe='/']. *)
Definition is_safe (b : Z) : bool :=
  is_alnum b || (b =? 95) || (b =? 46) || (b =? 45) || (b =? 126)
  || (b =? 47).

Definition hex_upper (v : Z) : ascii :=
  ascii_of_byte (if v <? 10 then v + 48 else v + 55).

Fixpoint quote_from_bytes (bs : list Z) : string :=
  match bs with
  | [] => ""
  | b :: bs' =>
      if is_safe b then String (ascii_of_byte b) (quote_from_bytes bs')
      else String "%" (String (hex_upper (Z.shiftr b 4))
             (String (hex_upper (Z.land b 15)) (quote_from_bytes bs')))
  end.

(** [quote(s)] for text [s]; the result is text. *)
Definition quote (s : string) : string := quote_from_bytes (str_encode s).

Definition hexval (c : ascii) : option Z :=
  let b := byte_of_ascii c in
  if utf8.in_range 48 57 b then Some (b - 48)
  else if utf8.in_range 65 70 b then Some (b - 55)
  else if utf8.in_range 97 102 b then Some (b - 87)
  else None.

(** [unquote_to_bytes]: a [%] followed by two hexadecimal digits is
    the byte they name; any other [%] stays as it is. *)
Fixpoint unquote_to_bytes (s : string) : list Z :=
  match s with
  | EmptyString => []
  | String c s' =>
      if Ascii.eqb c "%" then
        match s' with
        | String h (String l rest) =>
            match hexval h, hexval l with
            | Some a, Some b => (16 * a + b) :: unquote_to_bytes rest
            | _, _ => 37 :: unquote_to_bytes s'
            end
        | _ => 37 :: unquote_to_bytes s'
        end
      else byte_of_ascii c :: unquote_to_bytes s'
  end.

(** An ASCII run of the text, unescaped and decoded leniently. *)
Definition unquote_run (run : string) : string :=
  utf8.decode_replace (unquote_to_bytes (String.rev run)).

(** The text is cut into runs of ASCII and of other characters; only
    the ASCII runs are unescaped.  [run] is the current ASCII run,
    reversed. *)
Fixpoint unquote_runs (run : string) (s : string) : string :=
  match s with
  | EmptyString => unquote_run run
  | String c s' =>
      if byte_of_ascii c <? 128 then unquote_runs (String c run) s'
      else unquote_run run +:+ String c (unquote_runs "" s')
  end.

Fixpoint has_percent (s : string) : bool :=
  match s with
  | EmptyString => false
  | String c s' => Ascii.eqb c "%" || has_percent s'
  end.

(** [unquote(s)] for text [s]: it has no failing case. *)
Definition unquote (s : string) : string :=
  if has_percent s then unquote_runs "" s else s.

End urllib.

(** ** The block codec of [DrawIoFile] *)

(** [DrawIoFile._mxDecodeBlock] *)
Definition _mxDecodeBlock (b : PyVal) : result string :=
  b ← Ok (match b with
          | VStr s => str_encode s
          | VBytes b => b
          end);
  s ← base64.b64decode b;
  b ← zlib.decompress_raw s;
  t ← utf8.decode b;
  Ok (urllib.unquote t).

Section Encode.

(** The compressor of [zlib]; the bytes it chooses for a given input are
    the library's business and no statement below depends on them. *)
Variable deflate_raw : list Z -> list Z.

(** [zlib.compress(data, wbits=-15)]: [data] must be bytes-like. *)
Definition zlib_compress (data : PyVal) : result PyVal :=
  match data with
  | VBytes b => Ok (VBytes (deflate_raw b))
  | VStr _ => Raise TypeError
  end.

(** [DrawIoFile._mxEncodeBlock] *)
Definition _mxEncodeBlock (s : string) : result PyVal :=
  b ← Ok (VStr (urllib.quote s));
  b ← zlib_compress b;
  s ← base64.b64encode b;
  Ok s.

End Encode.

(** ** The document envelope: the first half of [DrawIoFile.assign] *)

Definition marker_name : string := "diagram".
Definition open_marker : string := "<" +:+ marker_name.
Definition close_marker : string := "</" +:+ marker_name +:+ ">".

(** The body of the loop over [s.split('<'+name)]: [decoded] is the list
    built so far and [mx] the current piece. *)
Definition envelope_step (keepMxfileTag : bool) (decoded : list string)
    (mx : string) : result (list string) :=
  match decoded with
  | [] =>
      (* first time around is stuff before the mx tag *)
      Ok (mx :: (if keepMxfileTag then [open_marker] else []))
  | _ =>
      mxs ← PyStr.splitn mx ">" 1;
      decoded ← (if keepMxfileTag
                 then m0 ← py_index mxs 0; Ok (decoded ++ [m0; ">"])%list
                 else Ok decoded);
      m1 ← py_index mxs 1;
      mxs ← PyStr.splitn m1 close_marker 1;
      m0 ← py_index mxs 0;
      block ← _mxDecodeBlock (VStr m0);
      let decoded := (decoded ++ [block])%list in
      let decoded :=
        if keepMxfileTag then (decoded ++ [close_marker])%list else decoded in
      m1 ← py_index mxs 1;
      Ok (decoded ++ [m1])%list
  end.

Fixpoint envelope_loop (keepMxfileTag : bool) (decoded : list string)
    (pieces : list string) : result (list string) :=
  match pieces with
  | [] => Ok decoded
  | mx :: rest =>
      decoded ← envelope_step keepMxfileTag decoded mx;
      envelope_loop keepMxfileTag decoded rest
  end.

(** The text [assign] hands to the XML parser. *)
Definition assign_text (s : string) (encoded keepMxfileTag : bool)
    : result string :=
  if encoded then
    pieces ← PyStr.split s open_marker;
    decoded ← envelope_loop keepMxfileTag [] pieces;
    Ok (PyStr.join "" decoded)
  else Ok s.

(** ** Elements, items and the object store *)

(** An [lxml] element: its tag, its attributes and its child elements. *)
#[warnings="-register-all"] Inductive Element : Type := mkElement {
  tag : string;
  attrib : gmap string string;
  elems : list Element
}.

(** Objects are referred to by their place in the store. *)
Abbreviation loc := nat (only parsing).

(** The [DrawIoFile] object, as the value of an item's [_fileRoot]. *)
Inductive FileRef : Type := ThisFile.

(** The fields of an [MxItem], as [MxItem.__init__] declares them. *)
Record MxItem : Type := mkMxItem {
  _fileChildren : list loc;
  _parent : option loc;
  _children : list loc;
  _root : option loc;
  _fileRoot : option FileRef;
  fileParent : option loc;
  _xmlTag : Element
}.

Definition set_fileChildren (v : list loc) (it : MxItem) : MxItem :=
  mkMxItem v (_parent it) (_children it) (_root it) (_fileRoot it)
           (fileParent it) (_xmlTag it).
Definition set_parent (v : option loc) (it : MxItem) : MxItem :=
  mkMxItem (_fileChildren it) v (_children it) (_root it) (_fileRoot it)
           (fileParent it) (_xmlTag it).
Definition set_children (v : list loc) (it : MxItem) : MxItem :=
  mkMxItem (_fileChildren it) (_parent it) v (_root it) (_fileRoot it)
           (fileParent it) (_xmlTag it).
Definition set_root (v : option loc) (it : MxItem) : MxItem :=
  mkMxItem (_fileChildren it) (_parent it) (_children it) v (_fileRoot it)
           (fileParent it) (_xmlTag it).
Definition set_fileRoot (v : option FileRef) (it : MxItem) : MxItem :=
  mkMxItem (_fileChildren it) (_parent it) (_children it) (_root it) v
           (fileParent it) (_xmlTag it).
Definition set_xmlTag (v : Element) (it : MxItem) : MxItem :=
  mkMxItem (_fileChildren it) (_parent it) (_children it) (_root it)
           (_fileRoot it) (fileParent it) v.

(** [elem.attrib[k] = v] on an item's element. *)
Definition set_attrib (k v : string) (it : MxItem) : MxItem :=
  set_xmlTag (mkElement (tag (_xmlTag it)) (<[k := v]> (attrib (_xmlTag it)))
                        (elems (_xmlTag it))) it.

(** A dictionary that remembers the order in which its keys were first
    set, as Python's [dict] does. *)
Section Dict.
Context {K V : Type} `{EqDecision K}.

Fixpoint dict_set (k : K) (v : V) (d : list (K * V)) : list (K * V) :=
  match d with
  | [] => [(k, v)]
  | (k', v') :: d' =>
      if decide (k = k') then (k, v) :: d' else (k', v') :: dict_set k v d'
  end.

Fixpoint dict_get (k : K) (d : list (K * V)) : option V :=
  match d with
  | [] => None
  | (k', v') :: d' => if decide (k = k') then Some v' else dict_get k d'
  end.

Definition dict_values (d : list (K * V)) : list V := d.*2.
Definition dict_keys (d : list (K * V)) : list K := d.*1.
End Dict.

(** The state of the program: the store of [MxItem] objects and the
    fields of the one [DrawIoFile].  [lookups] is not a field of the
    source: it records the arguments of the calls of [lookupId] made so
    far, latest first. *)
Record World : Type := mkWorld {
  store : list MxItem;
  _itemTree : option loc;
  _itemLookup : list (option string * loc);
  _etree : option Element;
  lookups : list (option string)
}.

Definition set_store (v : list MxItem) (w : World) : World :=
  mkWorld v (_itemTree w) (_itemLookup w) (_etree w) (lookups w).
Definition set_itemTree (v : option loc) (w : World) : World :=
  mkWorld (store w) v (_itemLookup w) (_etree w) (lookups w).
Definition set_itemLookup (v : list (option string * loc)) (w : World) : World :=
  mkWorld (store w) (_itemTree w) v (_etree w) (lookups w).
Definition set_etree (v : option Element) (w : World) : World :=
  mkWorld (store w) (_itemTree w) (_itemLookup w) v (lookups w).
Definition log_lookup (k : option string) (w : World) : World :=
  mkWorld (store w) (_itemTree w) (_itemLookup w) (_etree w) (k :: lookups w).

(** The world of a [DrawIoFile] before [load]: [DrawIoFile.__init__]. *)
Definition empty_world : World := mkWorld [] None [] None [].

(** A computation that reads and writes the world and may raise.  The
    world at the point of a raise is not kept: no statement below is about
    the state an exception leaves behind. *)
Definition M (A : Type) : Type := World -> result (A * World).

Global Instance M_ret : MRet M := fun A a w => Ok (a, w).
Global Instance M_bind : MBind M := fun A B k c w =>
  match c w with
  | Ok (a, w') => k a w'
  | Raise e => Raise e
  | OutOfFuel => OutOfFuel
  | Stuck => Stuck
  end.

Definition raise {A} (e : PyExc) : M A := fun _ => Raise e.
Definition out_of_fuel {A} : M A := fun _ => OutOfFuel.
Definition lift {A} (r : result A) : M A := fun w =>
  match r with
  | Ok a => Ok (a, w)
  | Raise e => Raise e
  | OutOfFuel => OutOfFuel
  | Stuck => Stuck
  end.
Definition get_world : M World := fun w => Ok (w, w).
Definition modify (f : World -> World) : M unit := fun w => Ok (tt, f w).

Definition item_at (w : World) (l : loc) : result MxItem :=
  match store w !! l with
  | Some it => Ok it
  | None => Stuck
  end.
Definition get_item (l : loc) : M MxItem := fun w =>
  it ← item_at w l; Ok (it, w).
Definition upd_item (l : loc) (f : MxItem -> MxItem) : M unit :=
  modify (fun w => set_store (alter f l (store w)) w).

Fixpoint forM_ {A} (l : list A) (f : A -> M unit) : M unit :=
  match l with
  | [] => mret tt
  | a :: l' => _ ← f a; forM_ l' f
  end.

(** ** [class MxItem] *)

Definition dquote : string := String (ascii_of_nat 34) "".

Module MxItem.

(** [MxItem.__init__(fileParent, xmlTag)]: the new object's reference. *)
Definition __init__ (fileParent : option loc) (xmlTag : Element) : M loc :=
  fun w =>
    let self := length (store w) in
    Ok (self,
        set_store (store w ++ [mkMxItem [] None [] (Some self) None
                                        fileParent xmlTag])%list w).

Definition mxType (it : MxItem) : string := tag (_xmlTag it).

Definition mxId (it : MxItem) : option string := attrib (_xmlTag it) !! "id".

Definition id (it : MxItem) : option string := mxId it.

Definition name (it : MxItem) : string :=
  match attrib (_xmlTag it) !! "value" with
  | None => mxType it
  | Some v => mxType it +:+ " " +:+ dquote +:+ v +:+ dquote
  end.

Definition value (it : MxItem) : option string :=
  attrib (_xmlTag it) !! "value".

(** The [fileRoot] property: the answer is taken from the physical
    parent, once, and kept. *)
Fixpoint fileRoot (fuel : nat) (self : loc) : M (option FileRef) :=
  match fuel with
  | O => out_of_fuel
  | S fuel' =>
      it ← get_item self;
      _ ← match _fileRoot it, fileParent it with
          | None, Some p =>
              r ← fileRoot fuel' p;
              upd_item self (set_fileRoot r)
          | _, _ => mret tt
          end;
      it ← get_item self;
      mret (_fileRoot it)
  end.

Definition fileChildren (it : MxItem) : list loc := _fileChildren it.

(** [DrawIoFile.lookupId], reached through [fileRoot]. *)
Definition lookupId (mxId : option string) : M (option loc) :=
  fun w => Ok (dict_get mxId (_itemLookup w), log_lookup mxId w).

(** The [parent] property. *)
Definition parent (fuel : nat) (self : loc) : M (option loc) :=
  it ← get_item self;
  let parentId := attrib (_xmlTag it) !! "parent" in
  stale ← match _parent it with
          | None => mret true
          | Some p =>
              pit ← get_item p;
              mret (bool_decide (id pit ≠ parentId))
          end;
  _ ← (if (stale : bool) then
         match parentId with
         | None => upd_item self (set_parent None)
         | Some _ =>
             fr ← fileRoot fuel self;
             match fr with
             | None => raise AttributeError
             | Some ThisFile =>
                 r ← lookupId parentId;
                 upd_item self (set_parent r)
             end
         end
       else mret tt);
  it ← get_item self;
  mret (_parent it).

(** The [root] property. *)
Fixpoint root (fuel : nat) (self : loc) : M (option loc) :=
  match fuel with
  | O => out_of_fuel
  | S fuel' =>
      it ← get_item self;
      _ ← match _root it with
          | None =>
              p ← parent fuel' self;
              match p with
              | Some p =>
                  r ← root fuel' p;
                  upd_item self (set_root r)
              | None => mret tt
              end
          | Some _ => mret tt
          end;
      it ← get_item self;
      mret (_root it)
  end.

(** The [children] property. *)
Definition children (it : MxItem) : list loc :=
  if bool_decide (_children it = []) && String.eqb (name it) "root"
  then fileChildren it
  else _children it.

(** [self[idx]] for an integer [idx]. *)
Definition __getitem__ (it : MxItem) (idx : Z) : result loc :=
  let _unused := children it in (* force load *)
  py_index (_children it) idx.

(** [list(self.walkFileTree())]: the generator only reads the store,
    and the loop that consumes it writes no [_fileChildren]. *)
Fixpoint walkFileTree (fuel : nat) (w : World) (self : loc)
    : result (list loc) :=
  match fuel with
  | O => OutOfFuel
  | S fuel' =>
      it ← item_at w self;
      below ← rmapM (walkFileTree fuel' w) (fileChildren it);
      Ok (self :: concat below)
  end.

(** The setter of the [xmlTag] property: one new item per child
    element. *)
Fixpoint new_children (self : loc) (xs : list Element) : M (list loc) :=
  match xs with
  | [] => mret []
  | childXml :: xs' =>
      c ← __init__ (Some self) childXml;
      cs ← new_children self xs';
      mret (c :: cs)
  end.

Definition xmlTag_setter (self : loc) (xmlTag : Element) : M unit :=
  _ ← upd_item self (set_xmlTag xmlTag);
  cs ← new_children self (elems xmlTag);
  upd_item self (set_fileChildren cs).

(** [self.treeStr(indent, ignore)]; [ignore] is [None] or a set of
    items, compared by identity. *)
Fixpoint treeStr (fuel : nat) (w : World) (self : loc) (indent : string)
    (ignore : option (gset loc)) : result string :=
  match fuel with
  | O => OutOfFuel
  | S fuel' =>
      it ← item_at w self;
      let ret := [indent +:+ name it] in
      let indent := indent +:+ "   " in
      ret ← match ignore with
            | None =>
                (* ignore=set([self]), used by nothing below *)
                Ok ret
            | Some ig =>
                if bool_decide (self ∈ ig) then Ok (ret ++ ["..."])%list
                else
                  below ← rmapM (fun c => treeStr fuel' w c indent ignore)
                                (children it);
                  Ok (ret ++ below)%list
            end;
      Ok (PyStr.join indent ret)
  end.

End MxItem.

(** ** [class DrawIoFile] *)

Module DrawIoFile.

(** [DrawIoFile.treeStr(indent, ignore)] *)
Definition treeStr (fuel : nat) (w : World) (indent : string)
    (ignore : option (gset loc)) : result string :=
  match _itemTree w with
  | None => Raise TypeError
  | Some t =>
      it ← item_at w t;
      top ← MxItem.__getitem__ it 0;
      MxItem.treeStr fuel w top indent ignore
  end.

Definition lookupId := MxItem.lookupId.

(** The first loop of [_relinkAll]. *)
Fixpoint index_items (items : list loc) : M unit :=
  match items with
  | [] => mret tt
  | item :: rest =>
      it ← get_item item;
      _ ← modify (fun w =>
            set_itemLookup (dict_set (MxItem.id it) item (_itemLookup w)) w);
      index_items rest
  end.

(** The body of the second loop of [_relinkAll]. *)
Definition link_item (fuel : nat) (item : loc) : M unit :=
  p ← MxItem.parent fuel item;
  match p with
  | None => mret tt
  | Some _ =>
      p ← MxItem.parent fuel item;
      match p with
      | None => raise AttributeError
      | Some p =>
          pit ← get_item p;
          upd_item p (set_children (_children pit ++ [item])%list)
      end
  end.

(** The first half of [_relinkAll]: the table is emptied and every item
    the walk yields is entered under its id. *)
Definition index_pass (fuel : nat) : M unit :=
  _ ← modify (set_itemLookup []);
  w ← get_world;
  match _itemTree w with
  | None => raise AttributeError
  | Some t =>
      items ← lift (MxItem.walkFileTree fuel w t);
      index_items items
  end.

(** The second half: now that everything is added, we can link it up. *)
Definition link_pass (fuel : nat) : M unit :=
  w ← get_world;
  forM_ (dict_values (_itemLookup w)) (link_item fuel).

(** [DrawIoFile._relinkAll] *)
Definition _relinkAll (fuel : nat) : M unit :=
  _ ← index_pass fuel;
  link_pass fuel.

(** [elem[0]] on an element. *)
Definition first_child (e : Element) : result Element :=
  py_index (elems e) 0.

Section Assign.

(** [lxml.etree.fromstring], the XML parser. *)
Variable fromstring : string -> result Element.

(** [DrawIoFile.assign(s, encoded, keepMxfileTag)] *)
Definition assign (fuel : nat) (s : string)
    (encoded keepMxfileTag : bool) : M unit :=
  s ← lift (assign_text s encoded keepMxfileTag);
  e ← lift (fromstring s);
  _ ← modify (set_etree (Some e));
  x ← lift (e0 ← first_child e; e1 ← first_child e0; first_child e1);
  t ← MxItem.__init__ None x;
  _ ← modify (set_itemTree (Some t));
  _ ← upd_item t (set_fileRoot (Some ThisFile));
  _relinkAll fuel.

End Assign.

End DrawIoFile.

(** ** Sample documents *)

(** [<mxCell id=i parent=p/>] *)
Definition cell (i : string) (p : option string) : Element :=
  mkElement "mxCell"
    (match p with
     | Some p => <["parent" := p]> {["id" := i]}
     | None => {["id" := i]}
     end) [].

(** A [<root>] whose cells [a] and [b] name each other as parent, [c]
    names [a], [d] names an id that no cell has and [e] names none. *)
Definition sample_root : Element :=
  mkElement "root" ∅
    [cell "a" (Some "b"); cell "b" (Some "a"); cell "c" (Some "a");
     cell "d" (Some "999"); cell "e" None].

(** The item tree of an element with its child items made by the setter
    of [xmlTag], before any relinking. *)
Definition build_tree (e : Element) : M unit :=
  t ← MxItem.__init__ None e;
  _ ← MxItem.xmlTag_setter t e;
  _ ← modify (set_itemTree (Some t));
  upd_item t (set_fileRoot (Some ThisFile)).

Definition world_of (c : M unit) : World :=
  match c empty_world with
  | Ok (_, w) => w
  | _ => empty_world
  end.

Definition sample_unlinked : World := world_of (build_tree sample_root).

Definition sample_world : World :=
  world_of (_ ← build_tree sample_root; DrawIoFile._relinkAll 2).

(** [<mxfile><diagram><mxGraphModel> x </mxGraphModel></diagram></mxfile>] *)
Definition document (x : Element) : Element :=
  mkElement "mxfile" ∅
    [mkElement "diagram" ∅ [mkElement "mxGraphModel" ∅ [x]]].

(** A parser that knows one document. *)
Definition parse_sample (s : string) : result Element :=
  if String.eqb s "<sample/>" then Ok (document sample_root)
  else Raise ValueError.

Definition sample_root_item : MxItem :=
  mkMxItem [1; 2; 3; 4; 5]%nat None [] (Some 0%nat) (Some ThisFile) None
           sample_root.

(** The items of [a], [b] and [c] after relinking, and of [d] before. *)
Definition sample_a : MxItem :=
  mkMxItem [] (Some 2%nat) [2; 3]%nat (Some 1%nat) (Some ThisFile) (Some 0%nat)
           (cell "a" (Some "b")).
Definition sample_b : MxItem :=
  mkMxItem [] (Some 1%nat) [1]%nat (Some 2%nat) (Some ThisFile) (Some 0%nat)
           (cell "b" (Some "a")).
Definition sample_c : MxItem :=
  mkMxItem [] (Some 1%nat) [] (Some 3%nat) (Some ThisFile) (Some 0%nat)
           (cell "c" (Some "a")).
Definition sample_d : MxItem :=
  mkMxItem [] None [] (Some 4%nat) None (Some 0%nat) (cell "d" (Some "999")).

(** The relinked sample after [c]'s [parent] attribute is set to [b]. *)
Definition sample_mutated : World :=
  set_store (alter (set_attrib "parent" "b") 3%nat (store sample_world))
            sample_world.

(** The sample after the index pass, before any linking, and the same
    once [d] has looked its file root up. *)
Definition sample_indexed : World :=
  world_of (_ ← build_tree sample_root; DrawIoFile.index_pass 2).
Definition sample_indexed_d : World :=
  set_store (alter (set_fileRoot (Some ThisFile)) 4%nat (store sample_indexed))
            sample_indexed.

(** The sample document as [assign] loads it. *)
Definition sample_loaded : World :=
  world_of (DrawIoFile.assign parse_sample 2 "<sample/>" false true).

(** ** Notions used in the statements *)

(** The composition the round-trip property is about. *)
Definition roundtrip (deflate_raw : list Z -> list Z) (x : string)
    : result string :=
  b ← _mxEncodeBlock deflate_raw x; _mxDecodeBlock b.

(** [sep in s] *)
Fixpoint contains (sep s : string) : bool :=
  match PyStr.strip_prefix sep s with
  | Some _ => true
  | None =>
      match s with
      | EmptyString => false
      | String _ s' => contains sep s'
      end
  end.




(** The id of the item at a place of the store. *)
Definition id_at (w : World) (l : loc) : option string :=
  it ← store w !! l; MxItem.id it.

(** What the accessors of the logical links leave alone in an item, and
    in the world. *)
Definition item_frame (it it' : MxItem) : Prop :=
  _fileChildren it' = _fileChildren it /\ _root it' = _root it
  /\ fileParent it' = fileParent it /\ _xmlTag it' = _xmlTag it.

Definition frame (w w' : World) : Prop :=
  _itemTree w' = _itemTree w /\ _itemLookup w' = _itemLookup w
  /\ _etree w' = _etree w /\ Forall2 item_frame (store w) (store w').

(** Two items that differ in [_fileRoot] at most. *)
Definition differs_in_fileRoot (it it' : MxItem) : Prop :=
  exists fr, it' = set_fileRoot fr it.

(** * Documents, linking, loading: further notions *)

(** ** Documents with markers *)

(** [c in s] for a character. *)
Fixpoint char_in (c : ascii) (s : string) : bool :=
  match s with
  | EmptyString => false
  | String d s' => Ascii.eqb c d || char_in c s'
  end.

(** One marker of a document: the text between [<diagram] and the next
    [>], the payload, what the payload decodes to, and the text that
    follows [</diagram>] up to the next marker. *)
Record block : Type := mkBlock {
  attrs : string;
  payload : string;
  decoded_payload : string;
  trailer : string
}.

(** The piece of the document a marker contributes after its
    [<diagram]. *)
Definition block_piece (b : block) : string :=
  attrs b +:+ ">" +:+ payload b +:+ close_marker +:+ trailer b.

(** A document in pieces: the text before the first marker, then what
    follows each [<diagram]. *)
Fixpoint pieces_text (pre : string) (pieces : list string) : string :=
  match pieces with
  | [] => pre
  | p :: rest => pre +:+ open_marker +:+ pieces_text p rest
  end.

Definition document_text (pre : string) (blocks : list block) : string :=
  pieces_text pre (block_piece <$> blocks).

(** A marker the envelope loop reads as written: no [>] among the
    attributes, no closing tag inside the payload, no opening of another
    marker inside the piece; and one whose payload decodes as well. *)
Definition block_shape (b : block) : Prop :=
  char_in ">" (attrs b) = false
  /\ ~ PyStr.occurs close_marker (payload b)
  /\ ~ PyStr.occurs open_marker (block_piece b).

Definition block_ok (b : block) : Prop :=
  block_shape b
  /\ _mxDecodeBlock (VStr (payload b)) = Ok (decoded_payload b).

(** What a marker contributes to the output, with and without the
    wrapping tag. *)
Definition block_kept (b : block) : string :=
  attrs b +:+ ">" +:+ decoded_payload b +:+ close_marker +:+ trailer b.
Definition block_bare (b : block) : string :=
  decoded_payload b +:+ trailer b.

(** What a turn of the loop appends for a marker that is read as
    written. *)
Definition block_output (keep : bool) (b : block) : list string :=
  if keep
  then [attrs b; ">"; decoded_payload b; close_marker; trailer b]
  else [decoded_payload b; trailer b].

(** The marker with its payload replaced by what it decodes to. *)
Definition decoded_block (b : block) : block :=
  mkBlock (attrs b) (decoded_payload b) (decoded_payload b) (trailer b).

Fixpoint concat_str (l : list string) : string :=
  match l with
  | [] => ""
  | s :: l' => s +:+ concat_str l'
  end.

(** A document with two markers, each holding the stored block of
    [%zz]. *)
Definition two_blocks : list block :=
  [mkBlock " id=x" "AQMA/P8leno=" "%zz" "<!-- -->";
   mkBlock " id=y" "AQMA/P8leno=" "%zz" "</mxfile>"].

(** A block whose payload is cut short by one character. *)
Definition truncated_block : block :=
  mkBlock " id=z" "AQMA/P8leno" "" "</mxfile>".

(** ** Worlds built by the operations *)

(** The item [MxItem.__init__(fileParent, xmlTag)] makes at a place. *)
Definition fresh_item (self : loc) (fileParent : option loc)
    (xmlTag : Element) : MxItem :=
  mkMxItem [] None [] (Some self) None fileParent xmlTag.



(** A parser that answers every text with the same document, whose
    [e[0][0][0]] names itself as parent. *)
Definition parse_loop (s : string) : result Element :=
  Ok (document (mkElement "root" {["id" := "r"; "parent" := "r"]} [])).

(** An item made on its own, outside any file, with a [parent]
    attribute. *)
Definition orphan_world : World :=
  world_of (_ ← MxItem.__init__ None (cell "x" (Some "y")); mret tt).

(** ** Notions for the link pass *)

(** The chain of physical parents of an item reaches, in fewer than
    [fuel] steps, an item that holds the file [f] in [_fileRoot]. *)
Inductive resolves (S : list MxItem) (f : FileRef) : nat -> loc -> Prop :=
  | resolves_here n l it :
      S !! l = Some it -> _fileRoot it = Some f -> resolves S f (Datatypes.S n) l
  | resolves_up n l it p :
      S !! l = Some it -> _fileRoot it = None -> fileParent it = Some p ->
      resolves S f n p -> resolves S f (Datatypes.S n) l.

(** The value of an item's [parent] attribute. *)
Definition parentId_at (w : World) (l : loc) : option string :=
  it ← store w !! l; attrib (_xmlTag it) !! "parent".

(** The item the table holds for an item's [parent] attribute. *)
Definition logical_parent (w : World) (l : loc) : option loc :=
  pid ← parentId_at w l; dict_get (Some pid) (_itemLookup w).

(** An item after [fileRoot] ran somewhere: the same but for
    [_fileRoot], which is as it was or now holds [f]. *)
Definition cached_only (f : FileRef) (it it' : MxItem) : Prop :=
  exists fr, it' = set_fileRoot fr it /\ (fr = _fileRoot it \/ fr = Some f).

(** An item as the tree builders leave it: no logical links yet. *)
Definition unlinked (it : MxItem) : Prop :=
  _parent it = None /\ _children it = [].

(** How the item at a place [q] changes when the link pass handles the
    item [l], whose [parent] attribute the table resolves to [r]: the
    element and the physical parent stay, [_fileRoot] stays or is filled
    in, [_parent] is set for [l] itself, and [l] is appended to the
    [_children] of the item [r] names. *)
Definition linked_item (l : loc) (r : option loc) (q : loc)
    (it it' : MxItem) : Prop :=
  _xmlTag it' = _xmlTag it
  /\ fileParent it' = fileParent it
  /\ _fileChildren it' = _fileChildren it
  /\ _root it' = _root it
  /\ (_fileRoot it' = _fileRoot it \/ _fileRoot it' = Some ThisFile)
  /\ _parent it' = (if decide (q = l) then r else _parent it)
  /\ _children it' = (if decide (r = Some q) then _children it ++ [l]
                      else _children it).

(** How the item at a place [q] has changed once the link pass has
    handled the items [done], in that order, in a world [w] whose items
    were not linked before: [_parent] holds the item the table resolves
    the [parent] attribute to for the items handled, and [_children] has
    gained, in the order of handling, the items whose attribute resolves
    to [q]. *)
Definition linked_after (w : World) (done : list loc) (q : loc)
    (it it' : MxItem) : Prop :=
  _xmlTag it' = _xmlTag it
  /\ fileParent it' = fileParent it
  /\ _fileChildren it' = _fileChildren it
  /\ _root it' = _root it
  /\ (_fileRoot it' = _fileRoot it \/ _fileRoot it' = Some ThisFile)
  /\ _parent it' = (if decide (q ∈ done) then logical_parent w q
                    else _parent it)
  /\ _children it' = (_children it
                      ++ filter (fun l => logical_parent w l = Some q) done)%list.

(** The table the first loop of [_relinkAll] builds from the items of a
    walk. *)
Definition indexed (w : World) (items : list loc)
    : list (option string * loc) :=
  foldl (fun d l => dict_set (id_at w l) l d) [] items.

(** A [<root>] in which two cells bear the id [b]. *)
Definition shadow_root : Element :=
  mkElement "root" ∅
    [cell "a" None; cell "b" (Some "a"); cell "b" (Some "a")].

Definition shadow_unlinked : World := world_of (build_tree shadow_root).

(** The items the setter of [xmlTag] makes for the child elements [xs]
    of the item [self], the first of them at the place [n]. *)
Definition new_items (n : nat) (self : loc) (xs : list Element)
    : list MxItem :=
  imap (fun i x => fresh_item (n + i) (Some self) x) xs.

(** One item, for the whole sample document, with no children made. *)
Definition document_item : World :=
  world_of (_ ← MxItem.__init__ None (document sample_root); mret tt).

(** ** Loading and the command line *)

(** [s.startswith(p)] and [s.endswith(p)] *)
Definition str_startswith (s p : string) : bool :=
  bool_decide (is_Some (PyStr.strip_prefix p s)).
Definition str_endswith (s p : string) : bool :=
  str_startswith (String.rev s) (String.rev p).

(** [s.rsplit(sep, maxsplit)]: the scan of [split] run from the right
    end, which is [split] on the mirrored text. *)
Definition str_rsplit (s sep : string) (maxsplit : nat)
    : result (list string) :=
  pieces ← PyStr.split_with (String.rev sep) (Some maxsplit) (String.rev s);
  Ok (rev (String.rev <$> pieces)).

(** [s[i]] on a text; the source indexes texts at places where they
    begin with ASCII characters, of one byte each. *)
Definition str_index (s : string) (i : Z) : result string :=
  c ← py_index (list_ascii_of_string s) i; Ok (String c "").

(** What the process has printed, one entry per call of [print], and
    the one [DrawIoFile] object the name [mx] is bound to.  Each
    [DrawIoFile(...)] makes a new object; the items of the one before
    stay in the store, where nothing reaches them any more. *)
Record Process : Type := mkProcess {
  mx : World;
  stdout : list string
}.

Definition P (A : Type) : Type := Process -> result (A * Process).

Global Instance P_ret : MRet P := fun A a p => Ok (a, p).
Global Instance P_bind : MBind P := fun A B k c p =>
  match c p with
  | Ok (a, p') => k a p'
  | Raise e => Raise e
  | OutOfFuel => OutOfFuel
  | Stuck => Stuck
  end.

(** A call that fails or returns without touching the state. *)
Definition pure {A} (r : result A) : P A := fun p =>
  a ← r; Ok (a, p).

(** A method of the file object. *)
Definition on_mx {A} (c : M A) : P A := fun p =>
  match c (mx p) with
  | Ok (a, w) => Ok (a, mkProcess w (stdout p))
  | Raise e => Raise e
  | OutOfFuel => OutOfFuel
  | Stuck => Stuck
  end.

(** [print(s)] *)
Definition print (s : string) : P unit := fun p =>
  Ok (tt, mkProcess (mx p) (stdout p ++ [s])%list).

Definition usage : list string :=
  ["Useage:";
   "   drawio.py [options] [encode.xml | decode.drawio]";
   "Options:";
   "   --help ......... show this help";
   "   --encode=file .. encode a file";
   "   --decode=file .. decode a file";
   "   --tree=file .... show the logical file tree"].

Fixpoint print_all (lines : list string) : P unit :=
  match lines with
  | [] => mret tt
  | l :: rest => _ ← print l; print_all rest
  end.

Section CommandLine.

(** [lxml.etree.fromstring]; [open(filename,'rb')] followed by [read()],
    which gives the bytes of the file or raises; [lxml.etree.tostring]
    with [pretty_print=True]; and [str.strip()].  What [open] raises in
    Python is an OSError, which is not among [PyExc]: a failing
    [read_file] stands for it with any exception, and nothing below
    depends on which. *)
Variable fromstring : string -> result Element.
Variable read_file : string -> result (list Z).
Variable tostring : Element -> list Z.
Variable strip : string -> string.

(** [DrawIoFile.load(filename)] *)
Definition load (fuel : nat) (filename : string) : M unit :=
  data ← lift (b ← read_file filename; utf8.decode b);
  ext ← lift (pieces ← str_rsplit filename "." 1; py_index pieces (-1));
  DrawIoFile.assign fromstring fuel data (String.eqb ext "drawio") true.

(** [DrawIoFile.__init__(filename)] *)
Definition DrawIoFile__init__ (fuel : nat) (filename : string) : M unit :=
  _ ← modify (set_itemTree None);
  _ ← modify (set_itemLookup []);
  _ ← modify (set_etree None);
  load fuel filename.

(** The [decoded] property. *)
Definition decoded : M string := fun w =>
  match _etree w with
  | None => Raise TypeError
  | Some e => s ← utf8.decode (tostring e); Ok (strip s, w)
  end.

(** The [encoded] property. *)
Definition encoded : M string := raise NotImplementedError.

(** [DrawIoFile.__str__] *)
Definition DrawIoFile__str__ : M string := decoded.

(** One turn of the loop of [cmdline]; the result is the new value of
    [printhelp]. *)
Definition cmdline_arg (fuel : nat) (arg : string) (printhelp : bool)
    : P bool :=
  if str_startswith arg "-" then
    kv ← pure (PyStr.splitn arg "=" 1);
    kv0 ← pure (py_index kv 0);
    if String.eqb kv0 "--help" || String.eqb kv0 "-h" then mret true
    else
      arg0 ← pure (str_index arg 0);
      if String.eqb arg0 "--encode" then
        kv1 ← pure (py_index kv 1);
        _ ← on_mx (DrawIoFile__init__ fuel kv1);
        s ← on_mx encoded;
        _ ← print s;
        mret printhelp
      else if String.eqb kv0 "--kv" then
        arg1 ← pure (str_index arg 1);
        _ ← on_mx (DrawIoFile__init__ fuel arg1);
        s ← on_mx decoded;
        _ ← print s;
        mret printhelp
      else if String.eqb kv0 "--tree" then
        kv1 ← pure (py_index kv 1);
        _ ← on_mx (DrawIoFile__init__ fuel kv1);
        s ← on_mx (fun w => s ← DrawIoFile.treeStr fuel w "" None; Ok (s, w));
        _ ← print s;
        mret printhelp
      else
        _ ← print ("ERR: Unknown Argument " +:+ dquote +:+ arg +:+ dquote);
        mret true
  else
    _ ← on_mx (DrawIoFile__init__ fuel arg);
    if str_endswith arg ".drawio" then
      (* we are decoding *)
      s ← on_mx decoded;
      _ ← print s;
      mret printhelp
    else
      (* we are encoding *)
      s ← on_mx encoded;
      _ ← print s;
      mret printhelp.

Fixpoint cmdline_loop (fuel : nat) (args : list string) (printhelp : bool)
    : P bool :=
  match args with
  | [] => mret printhelp
  | arg :: rest =>
      printhelp ← cmdline_arg fuel arg printhelp;
      cmdline_loop fuel rest printhelp
  end.

(** [cmdline(args)] *)
Definition cmdline (fuel : nat) (args : list string) : P Z :=
  printhelp ← cmdline_loop fuel args false;
  if (printhelp : bool) then
    _ ← print_all usage;
    mret (-1)
  else mret 0.

End CommandLine.

(** The line [cmdline] prints for an argument it does not know. *)
Definition unknown_line (arg : string) : string :=
  "ERR: Unknown Argument " +:+ dquote +:+ arg +:+ dquote.

(** A file system in which every name holds the text [<sample/>]. *)
Definition read_sample (filename : string) : result (list Z) :=
  Ok (str_encode "<sample/>").

(** A serialiser that writes the tag of the element only. *)
Definition str_encode_element (e : Element) : list Z :=
  str_encode ("<" +:+ tag e +:+ "/>").

(** ** Blocks with other characters *)

(** The characters of a block the base64 stage looks at: those of the
    alphabet and the pad. *)
Definition significant (c : Z) : bool :=
  bool_decide (is_Some (base64.sextet c)) || (c =? base64.PAD).

(** The block without its other characters. *)
Definition strip_junk (data : list Z) : list Z :=
  filter (fun c => significant c = true) data.

(** The stored block of [%zz], its payload broken over two indented
    lines. *)
Definition folded_block : string :=
  String (ascii_of_nat 10)
    ("  AQMA/P" +:+ String (ascii_of_nat 10) ("  8leno=" +:+
     String (ascii_of_nat 10) "")).

(** The line feed. *)
Definition LF : ascii := ascii_of_nat 10.

(** The sample with two cells of id [b], relinked. *)
Definition shadow_world : World :=
  world_of (_ ← build_tree shadow_root; DrawIoFile._relinkAll 2).

(** * Properties *)

(** ** Text *)

Lemma strip_prefix_app sep s r :
  PyStr.strip_prefix sep s = Some r -> s = sep +:+ r.
Proof.
  revert s; induction sep as [|a sep IH]; intros [|b s]; simpl;
    try congruence.
  destruct (Ascii.eqb_spec a b) as [->|]; [|congruence].
  intros H. f_equal. auto.
Qed.

Lemma strip_prefix_complete sep post :
  PyStr.strip_prefix sep (sep +:+ post) = Some post.
Proof.
  induction sep as [|a sep IH]; simpl; [by destruct post|].
  by rewrite Ascii.eqb_refl.
Qed.

Lemma occurs_tail sep c s :
  PyStr.occurs sep s -> PyStr.occurs sep (String c s).
Proof. intros (pre & post & ->). by exists (String c pre), post. Qed.

Lemma occurs_contains sep s : PyStr.occurs sep s -> contains sep s = true.
Proof.
  intros (pre & post & ->).
  induction pre as [|c pre IH]; simpl.
  - destruct (sep +:+ post) eqn:E; simpl;
      rewrite <- E, strip_prefix_complete; reflexivity.
  - destruct (PyStr.strip_prefix sep _); [reflexivity | exact IH].
Qed.

(** A text in which the separator does not occur is split into itself. *)
Lemma split_scan_absent sep s cur :
  ~ PyStr.occurs sep s ->
  PyStr.split_scan sep None O cur s = [String.rev_app cur s].
Proof.
  revert cur; induction s as [|c s IH]; intros cur Hno; simpl.
  - reflexivity.
  - destruct (PyStr.strip_prefix sep (String c s)) as [r|] eqn:Hp.
    + exfalso. apply Hno. exists "", r. simpl. by apply strip_prefix_app.
    + rewrite IH; [reflexivity|]. intros H. apply Hno. by apply occurs_tail.
Qed.

(** ** Results and the state monad *)


Lemma rmapM_Ok_all {A B} (f : A -> result B) l bs a :
  rmapM f l = Ok bs -> a ∈ l -> exists b, f a = Ok b.
Proof.
  revert bs; induction l as [|x l IH]; intros bs H Hin; [by inversion Hin|].
  simpl in H. destruct (f x) as [b| | |] eqn:E; try discriminate.
  simpl in H. destruct (rmapM f l) eqn:E2; try discriminate.
  apply elem_of_cons in Hin as [->|Hin]; eauto.
Qed.

Lemma rmapM_ext {A B} (f g : A -> result B) l :
  (forall a, a ∈ l -> f a = g a) -> rmapM f l = rmapM g l.
Proof.
  induction l as [|x l IH]; intros H; simpl; [done|].
  rewrite (H x) by (by left). rewrite IH; [done|].
  intros a Ha. apply H. by right.
Qed.

Lemma rmapM_Ok_Forall2 {A B} (f : A -> result B) l bs :
  rmapM f l = Ok bs -> Forall2 (fun a b => f a = Ok b) l bs.
Proof.
  revert bs; induction l as [|x l IH]; intros bs H; simpl in H.
  - injection H as <-. constructor.
  - destruct (f x) as [b| | |] eqn:E; try discriminate.
    cbn [mbind result_bind] in H.
    destruct (rmapM f l) as [bs'| | |]; try discriminate.
    injection H as <-. constructor; auto.
Qed.

Lemma bind_Ok {A B} (c : M A) (k : A -> M B) w b w' :
  (c ≫= k) w = Ok (b, w') ->
  exists a w1, c w = Ok (a, w1) /\ k a w1 = Ok (b, w').
Proof.
  unfold mbind, M_bind. destruct (c w) as [[a w1]| | |]; try discriminate.
  eauto.
Qed.

Lemma bind_run {A B} (c : M A) (k : A -> M B) w a w1 :
  c w = Ok (a, w1) -> (c ≫= k) w = k a w1.
Proof. unfold mbind, M_bind. by intros ->. Qed.

Lemma get_item_Ok l w it w' :
  get_item l w = Ok (it, w') -> store w !! l = Some it /\ w' = w.
Proof.
  unfold get_item, item_at. destruct (store w !! l); simpl; [|discriminate].
  by intros [= -> ->].
Qed.

Lemma get_item_run l w it :
  store w !! l = Some it -> get_item l w = Ok (it, w).
Proof. unfold get_item, item_at. by intros ->. Qed.

(** ** The block codec *)
















(** C1 (the code departs from it): the round trip
    [_mxDecodeBlock(_mxEncodeBlock(x)) == x] is claimed for every text [x];
    in the source [_mxEncodeBlock] hands the text that [quote] returns to
    [zlib.compress], which takes bytes only, so for every [x], and whatever
    the compressor would output, the encoder raises TypeError and the round
    trip yields no text at all. *)
Theorem encode_block_raises_TypeError (deflate_raw : list Z -> list Z)
    (x : string) :
  _mxEncodeBlock deflate_raw x = Raise TypeError
  /\ roundtrip deflate_raw x = Raise TypeError
  /\ roundtrip deflate_raw x <> Ok x.
Proof. split; [reflexivity | split; [reflexivity | discriminate]]. Qed.




(** ** The envelope *)

(** C5 (the code departs from it): a text without the marker [<diagram]
    should reach the parser unchanged; with [keepMxfileTag] at its default
    the first turn of the loop appends the marker's opening to the only
    piece, so the parser is handed the text followed by [<diagram].  The
    text is unchanged only when [keepMxfileTag] is false. *)
Theorem zero_markers_appends_marker (s : string) :
  ~ PyStr.occurs open_marker s ->
  assign_text s true true = Ok (s +:+ "<diagram")
  /\ assign_text s true true <> Ok s
  /\ assign_text s true false = Ok s.
Proof.
  intros Hno. unfold assign_text, PyStr.split, PyStr.split_with.
  change open_marker with "<diagram" in *.
  cbn [mbind result_bind].
  rewrite split_scan_absent by exact Hno.
  assert (Hne : s +:+ "<diagram" <> s).
  { clear. induction s as [|c s IH]; simpl; [discriminate | congruence]. }
  split; [reflexivity | split; [|reflexivity]].
  simpl. intros [= H]. by apply Hne.
Qed.

Lemma zero_markers_appends_marker_witness :
  ~ PyStr.occurs open_marker "<a/>"
  /\ assign_text "<a/>" true true = Ok "<a/><diagram"
  /\ assign_text "<a/>" true true <> Ok "<a/>"
  /\ assign_text "<a/>" true false = Ok "<a/>".
Proof.
  assert (Hno : ~ PyStr.occurs open_marker "<a/>").
  { intros H. apply occurs_contains in H. vm_compute in H. discriminate. }
  split; [exact Hno | exact (zero_markers_appends_marker "<a/>" Hno)].
Defined.

(** ** What the accessors leave alone *)

Lemma item_frame_refl it : item_frame it it.
Proof. by repeat split. Qed.

Lemma items_frame_refl l : Forall2 item_frame l l.
Proof.
  apply Forall2_same_length_lookup_2; [reflexivity|].
  intros i x y Hx Hy. rewrite Hx in Hy. injection Hy as <-.
  apply item_frame_refl.
Qed.

Lemma frame_refl w : frame w w.
Proof. repeat split. apply items_frame_refl. Qed.

Lemma frame_trans w1 w2 w3 : frame w1 w2 -> frame w2 w3 -> frame w1 w3.
Proof.
  intros (a1 & b1 & c1 & d1) (a2 & b2 & c2 & d2).
  split; [congruence|]. split; [congruence|]. split; [congruence|].
  eapply Forall2_trans; [|exact d1|exact d2].
  intros x y z (?&?&?&?) (?&?&?&?). repeat split; congruence.
Qed.

Lemma frame_upd l f w :
  (forall it, item_frame it (f it)) ->
  frame w (set_store (alter f l (store w)) w).
Proof.
  intros Hf. repeat split. simpl.
  apply Forall2_alter_r; [apply items_frame_refl|].
  intros x y _ _ (a & b & c & d). destruct (Hf y) as (a' & b' & c' & d').
  repeat split; congruence.
Qed.

Lemma frame_log k w : frame w (log_lookup k w).
Proof. repeat split. apply items_frame_refl. Qed.

Lemma fileRoot_frame fuel : forall self w r w',
  MxItem.fileRoot fuel self w = Ok (r, w') ->
  frame w w' /\ lookups w' = lookups w.
Proof.
  induction fuel as [|fuel IH]; intros self w r w' H; [discriminate|].
  simpl in H.
  apply bind_Ok in H as (it & w1 & Hg & H).
  apply get_item_Ok in Hg as [Hit ->].
  apply bind_Ok in H as ([] & w2 & Hc & H).
  apply bind_Ok in H as (it2 & w3 & Hg & H).
  apply get_item_Ok in Hg as [Hit2 ->].
  injection H as <- <-.
  destruct (_fileRoot it);
    [injection Hc as <-; split; [apply frame_refl|done]|].
  destruct (fileParent it) as [p|];
    [|injection Hc as <-; split; [apply frame_refl|done]].
  apply bind_Ok in Hc as (r & w1' & Hr & Hu).
  apply IH in Hr as [Hf Hl]. injection Hu as <-.
  split; [|exact Hl].
  eapply frame_trans; [exact Hf|]. apply frame_upd. intros; by repeat split.
Qed.

Lemma differs_in_fileRoot_refl l : Forall2 differs_in_fileRoot l l.
Proof.
  apply Forall2_same_length_lookup_2; [reflexivity|].
  intros i x y Hx Hy. rewrite Hx in Hy. injection Hy as <-.
  exists (_fileRoot x). by destruct x.
Qed.

Lemma fileRoot_writes_fileRoot_only fuel : forall self w r w',
  MxItem.fileRoot fuel self w = Ok (r, w') ->
  Forall2 differs_in_fileRoot (store w) (store w').
Proof.
  induction fuel as [|fuel IH]; intros self w r w' H; [discriminate|].
  simpl in H.
  apply bind_Ok in H as (it & w1 & Hg & H).
  apply get_item_Ok in Hg as [Hit ->].
  apply bind_Ok in H as ([] & w2 & Hc & H).
  apply bind_Ok in H as (it2 & w3 & Hg & H).
  apply get_item_Ok in Hg as [Hit2 ->].
  injection H as <- <-.
  destruct (_fileRoot it);
    [injection Hc as <-; apply differs_in_fileRoot_refl|].
  destruct (fileParent it) as [p|];
    [|injection Hc as <-; apply differs_in_fileRoot_refl].
  apply bind_Ok in Hc as (r & w1' & Hr & Hu).
  apply IH in Hr. injection Hu as <-. simpl.
  apply Forall2_alter_r; [exact Hr|].
  intros x y _ _ [fr ->]. exists r. by destruct x.
Qed.

Lemma parent_frame fuel self w r w' :
  MxItem.parent fuel self w = Ok (r, w') -> frame w w'.
Proof.
  unfold MxItem.parent. intros H.
  apply bind_Ok in H as (it & w1 & Hg & H).
  apply get_item_Ok in Hg as [Hit ->].
  apply bind_Ok in H as (stale & w1 & Hs & H).
  assert (w1 = w) as ->.
  { destruct (_parent it).
    - apply bind_Ok in Hs as (pit & w2 & Hg & Hs).
      apply get_item_Ok in Hg as [_ ->]. by injection Hs as _ <-.
    - by injection Hs as _ <-. }
  apply bind_Ok in H as ([] & w2 & Hc & H).
  apply bind_Ok in H as (it2 & w3 & Hg & H).
  apply get_item_Ok in Hg as [Hit2 ->].
  injection H as _ <-.
  destruct stale; [|injection Hc as <-; apply frame_refl].
  destruct (attrib (_xmlTag it) !! "parent").
  - apply bind_Ok in Hc as (fr & w1 & Hfr & Hc).
    apply fileRoot_frame in Hfr as [Hf _].
    destruct fr as [[]|]; [|discriminate].
    apply bind_Ok in Hc as (q & w3 & Hl & Hu).
    injection Hl as _ <-. injection Hu as <-.
    eapply frame_trans; [exact Hf|]. eapply frame_trans; [apply frame_log|].
    apply (frame_upd self (set_parent q) (log_lookup _ w1)).
    intros; by repeat split.
  - injection Hc as <-. apply frame_upd. intros; by repeat split.
Qed.

Lemma link_item_frame fuel item w u w' :
  DrawIoFile.link_item fuel item w = Ok (u, w') -> frame w w'.
Proof.
  unfold DrawIoFile.link_item. intros H.
  apply bind_Ok in H as (p & w1 & Hp & H). apply parent_frame in Hp.
  destruct p as [p|]; [|injection H as _ <-; exact Hp].
  apply bind_Ok in H as (p2 & w2 & Hp2 & H). apply parent_frame in Hp2.
  destruct p2 as [p2|]; [|discriminate].
  apply bind_Ok in H as (pit & w3 & Hg & H).
  apply get_item_Ok in Hg as [_ ->].
  injection H as _ <-.
  eapply frame_trans; [exact Hp|]. eapply frame_trans; [exact Hp2|].
  apply frame_upd. intros; by repeat split.
Qed.

Lemma forM_frame {A} (f : A -> M unit) l :
  (forall a w u w', f a w = Ok (u, w') -> frame w w') ->
  forall w u w', forM_ l f w = Ok (u, w') -> frame w w'.
Proof.
  intros Hf. induction l as [|a l IH]; intros w u w' H; simpl in H.
  - injection H as _ <-. apply frame_refl.
  - apply bind_Ok in H as (u1 & w1 & H1 & H).
    eapply frame_trans; [by eapply Hf | by eapply IH].
Qed.

Lemma frame_no_file_children w w' :
  frame w w' ->
  Forall (fun it => _fileChildren it = []) (store w) ->
  Forall (fun it => _fileChildren it = []) (store w').
Proof.
  intros (_ & _ & _ & Hst) Hall. apply Forall_lookup. intros i y Hy.
  destruct (Forall2_lookup_r _ _ _ _ _ Hst Hy) as (x & Hx & Hc & _).
  rewrite Hc. by eapply (Forall_lookup_1 _ _ _ _ Hall).
Qed.

Lemma set_attrib_frame_id k v it :
  k <> "id" -> MxItem.id (set_attrib k v it) = MxItem.id it.
Proof.
  intros Hk. unfold MxItem.id, MxItem.mxId, set_attrib. simpl.
  by rewrite lookup_insert_ne.
Qed.

(** ** The id-lookup table *)

Section DictFacts.
Context {K V : Type} `{EqDecision K}.

Lemma dict_get_set (k k' : K) (v : V) d :
dict_get k (dict_set k' v d)
= if decide (k = k') then Some v else dict_get k d.
Proof.
induction d as [|[k1 v1] d IH]; simpl.
- by destruct (decide (k = k')).
- destruct (decide (k' = k1)) as [->|Hne]; simpl.
  + by destruct (decide (k = k1)).
  + rewrite IH. destruct (decide (k = k1)) as [->|]; [|done].
    by rewrite decide_False.
Qed.

Lemma dict_keys_set (k : K) (v : V) d :
NoDup (dict_keys d) ->
NoDup (dict_keys (dict_set k v d))
/\ forall k', k' ∈ dict_keys (dict_set k v d) <-> k' = k \/ k' ∈ dict_keys d.
Proof.
unfold dict_keys. induction d as [|[k1 v1] d IH]; simpl; intros Hnd.
- split; [repeat constructor; by intros ?%elem_of_nil|].
  intros k'. by rewrite !elem_of_cons.
- apply NoDup_cons in Hnd as [Hk1 Hnd].
  destruct (decide (k = k1)) as [->|Hne]; simpl.
  + split; [by apply NoDup_cons|]. intros k'. rewrite !elem_of_cons. tauto.
  + destruct (IH Hnd) as [IH1 IH2]. split.
    * apply NoDup_cons. split; [|done]. rewrite IH2. intros [->|]; done.
    * intros k'. rewrite !elem_of_cons, IH2. tauto.
Qed.

End DictFacts.

(** After a run of insertions a key holds the last value entered under
    it. *)
Lemma dict_get_fold {K} `{EqDecision K} (f : nat -> K) (k : K) items :
  forall (d : list (K * nat)),
    dict_get k (foldl (fun d l => dict_set (f l) l d) d items)
    = match last (filter (fun l => f l = k) items) with
      | Some l => Some l
      | None => dict_get k d
      end.
Proof.
  induction items as [|x items IH]; intros d; simpl; [done|].
  rewrite IH, dict_get_set, filter_cons.
  destruct (decide (f x = k)) as [Hx|Hx].
  - rewrite decide_True by done.
    destruct (filter _ items) as [|y ys] eqn:E; [done|].
    rewrite (last_cons x (y :: ys)). by destruct (last (y :: ys)).
  - rewrite decide_False by done. done.
Qed.

Lemma dict_keys_fold {K} `{EqDecision K} (f : nat -> K) items :
  forall d : list (K * nat),
    NoDup (dict_keys d) ->
    NoDup (dict_keys (foldl (fun d l => dict_set (f l) l d) d items)).
Proof.
  induction items as [|x items IH]; intros d Hd; simpl; [done|].
  apply IH. by apply dict_keys_set.
Qed.

Lemma last_filter_Some {A} (P : A -> Prop) `{forall x, Decision (P x)} l x :
  last (filter P l) = Some x -> x ∈ l /\ P x.
Proof.
  intros [pre E]%last_Some.
  assert (Hin : x ∈ filter P l).
  { rewrite E. apply elem_of_app. right. by left. }
  by apply list_elem_of_filter in Hin as [? ?].
Qed.

Lemma last_filter_None {A} (P : A -> Prop) `{forall x, Decision (P x)} l :
  last (filter P l) = None -> forall x, x ∈ l -> ~ P x.
Proof.
  intros E%last_None x Hx HP.
  assert (Hin : x ∈ filter P l) by (by apply list_elem_of_filter).
  rewrite E in Hin. by apply elem_of_nil in Hin.
Qed.

Lemma index_items_run items : forall w,
  (forall l, l ∈ items -> is_Some (store w !! l)) ->
  DrawIoFile.index_items items w
  = Ok (tt, set_itemLookup
              (foldl (fun d l => dict_set (id_at w l) l d) (_itemLookup w) items)
              w).
Proof.
  induction items as [|x items IH]; intros w Hv; simpl.
  - by destruct w.
  - destruct (Hv x) as [it Hit]; [by left|].
    rewrite (bind_run _ _ _ _ _ (get_item_run _ _ _ Hit)).
    unfold modify at 1. unfold mbind at 1, M_bind at 1.
    rewrite IH.
    + assert (Hx : id_at w x = MxItem.id it)
        by (unfold id_at; rewrite Hit; reflexivity).
      rewrite Hx. reflexivity.
    + intros l Hl. simpl. apply Hv. by right.
Qed.

(** The walk reads the store only, and yields objects of the store. *)
Lemma walkFileTree_store fuel : forall w w' t,
  store w' = store w ->
  MxItem.walkFileTree fuel w' t = MxItem.walkFileTree fuel w t.
Proof.
  induction fuel as [|fuel IH]; intros w w' t Hs; simpl; [done|].
  unfold item_at. rewrite Hs. destruct (store w !! t) as [it|]; [|done].
  cbn [mbind result_bind].
  rewrite (rmapM_ext _ (MxItem.walkFileTree fuel w)); [done|].
  intros a _. by apply IH.
Qed.

Lemma walkFileTree_valid fuel : forall w t items,
  MxItem.walkFileTree fuel w t = Ok items ->
  forall l, l ∈ items -> is_Some (store w !! l).
Proof.
  induction fuel as [|fuel IH]; intros w t items H l Hl; [discriminate|].
  simpl in H. unfold item_at in H.
  destruct (store w !! t) as [it|] eqn:Hit; [|discriminate].
  cbn [mbind result_bind] in H.
  destruct (rmapM _ _) as [below| | |] eqn:E; try discriminate.
  injection H as <-.
  apply elem_of_cons in Hl as [->|Hl]; [by rewrite Hit|].
  apply list_elem_of_In, in_concat in Hl as (sub & Hsub & Hl).
  apply list_elem_of_In in Hsub, Hl.
  apply rmapM_Ok_Forall2 in E.
  apply list_elem_of_lookup in Hsub as [i Hi].
  destruct (Forall2_lookup_r _ _ _ _ _ E Hi) as (c & _ & Hc).
  by eapply IH.
Qed.

Lemma index_pass_run (fuel : nat) (w : World) (t : loc) (items : list loc) :
  _itemTree w = Some t ->
  MxItem.walkFileTree fuel w t = Ok items ->
  DrawIoFile.index_pass fuel w
  = Ok (tt, set_itemLookup
              (foldl (fun d l => dict_set (id_at w l) l d) [] items) w).
Proof.
  intros Ht Hwalk.
  pose proof (walkFileTree_valid _ _ _ _ Hwalk) as Hvalid.
  set (w0 := set_itemLookup [] w).
  unfold DrawIoFile.index_pass.
  rewrite (bind_run _ _ w tt w0) by reflexivity.
  rewrite (bind_run _ _ w0 w0 w0) by reflexivity.
  change (_itemTree w0) with (_itemTree w). rewrite Ht.
  rewrite (bind_run _ _ w0 items w0).
  2:{ unfold lift. rewrite (walkFileTree_store fuel w w0 t eq_refl).
      by rewrite Hwalk. }
  rewrite index_items_run by exact Hvalid. reflexivity.
Qed.

(** C2 (the code departs from it): after the index pass every id found
    on the walk maps to the last item that bears it, each key once; but
    the pass enters every item under whatever [item.id] is, so an item
    without id is in the table too, under the key [None], where the claim
    wants no entry for it. *)
Theorem index_pass_enters_items_without_id (fuel : nat) (w : World) (t : loc)
    (items : list loc) :
  _itemTree w = Some t ->
  MxItem.walkFileTree fuel w t = Ok items ->
  exists w',
    DrawIoFile.index_pass fuel w = Ok (tt, w')
    /\ store w' = store w
    /\ NoDup (dict_keys (_itemLookup w'))
    /\ (forall k : option string,
          dict_get k (_itemLookup w')
          = last (filter (fun l => id_at w l = k) items))
    /\ (forall l, l ∈ items -> id_at w l = None ->
          exists l', dict_get None (_itemLookup w') = Some l'
                     /\ l' ∈ items /\ id_at w l' = None).
Proof.
  intros Ht Hwalk.
  rewrite (index_pass_run _ _ _ _ Ht Hwalk).
  eexists. split; [reflexivity|]. simpl.
  assert (Hget : forall k : option string,
            dict_get k (foldl (fun d l => dict_set (id_at w l) l d) [] items)
            = last (filter (fun l => id_at w l = k) items)).
  { intros k. rewrite (dict_get_fold (id_at w) k items []). simpl.
    by destruct (last _). }
  split; [reflexivity|]. split; [|split].
  - apply dict_keys_fold. constructor.
  - exact Hget.
  - intros l Hl Hnone. rewrite Hget.
    destruct (last _) as [l'|] eqn:E.
    + exists l'. split; [done|]. by apply last_filter_Some in E.
    + exfalso. by apply (last_filter_None _ _ E l).
Qed.

Lemma index_pass_enters_items_without_id_witness :
  (_itemTree sample_unlinked = Some 0%nat
   /\ MxItem.walkFileTree 2 sample_unlinked 0%nat
      = Ok [0; 1; 2; 3; 4; 5]%nat)
  /\ exists w',
       DrawIoFile.index_pass 2 sample_unlinked = Ok (tt, w')
       /\ store w' = store sample_unlinked
       /\ NoDup (dict_keys (_itemLookup w'))
       /\ (forall k : option string,
             dict_get k (_itemLookup w')
             = last (filter (fun l => id_at sample_unlinked l = k)
                            [0; 1; 2; 3; 4; 5]%nat))
       /\ (forall l, l ∈ [0; 1; 2; 3; 4; 5]%nat ->
             id_at sample_unlinked l = None ->
             exists l', dict_get None (_itemLookup w') = Some l'
                        /\ l' ∈ [0; 1; 2; 3; 4; 5]%nat
                        /\ id_at sample_unlinked l' = None).
Proof.
  assert (H1 : _itemTree sample_unlinked = Some 0%nat)
    by (vm_compute; reflexivity).
  assert (H2 : MxItem.walkFileTree 2 sample_unlinked 0%nat
               = Ok [0; 1; 2; 3; 4; 5]%nat) by (vm_compute; reflexivity).
  exact (conj (conj H1 H2)
           (index_pass_enters_items_without_id 2 sample_unlinked 0%nat _ H1 H2)).
Defined.

(** The table of the sample after the index pass: the [<root>] item,
    which has no id, sits under [None]. *)
Example sample_table :
  _itemLookup sample_indexed
  = [(None, 0%nat); (Some "a", 1%nat); (Some "b", 2%nat); (Some "c", 3%nat);
     (Some "d", 4%nat); (Some "e", 5%nat)].
Proof. vm_compute. reflexivity. Qed.

(** ** Relinking *)

(** C3 (as amended): an element whose [parent] attribute names an id that
    the table does not hold raises nothing in the relink pass: [lookupId]
    answers [None], the element's parent is [None], the element is
    appended to no children list, and the pass goes on. *)
Theorem dangling_parent_is_dropped (fuel : nat) (w wf : World) (item : loc)
    (it : MxItem) (pid : string) :
  store w !! item = Some it ->
  _parent it = None ->
  attrib (_xmlTag it) !! "parent" = Some pid ->
  dict_get (Some pid) (_itemLookup w) = None ->
  MxItem.fileRoot fuel item w = Ok (Some ThisFile, wf) ->
  exists w',
    DrawIoFile.link_item fuel item w = Ok (tt, w')
    /\ (forall l, _children <$> store w' !! l = _children <$> store w !! l)
    /\ _parent <$> store w' !! item = Some None.
Proof.
  intros Hit Hp Hattr Hget Hfr.
  destruct (fileRoot_frame _ _ _ _ _ Hfr) as [(_ & Htab & _ & _) _].
  pose proof (fileRoot_writes_fileRoot_only _ _ _ _ _ Hfr) as Hst.
  destruct (Forall2_lookup_l _ _ _ _ _ Hst Hit) as (it' & Hit' & fr & ->).
  set (w2 := set_store (alter (set_parent None) item
                          (store (log_lookup (Some pid) wf)))
                       (log_lookup (Some pid) wf)).
  assert (Hpar : MxItem.parent fuel item w = Ok (None, w2)).
  { unfold MxItem.parent.
    rewrite (bind_run _ _ _ _ _ (get_item_run _ _ _ Hit)).
    rewrite Hp, Hattr.
    rewrite (bind_run _ _ w true w) by reflexivity.
    rewrite (bind_run _ _ w tt w2).
    2:{ rewrite (bind_run _ _ _ _ _ Hfr). cbv beta iota.
        unfold MxItem.lookupId at 1.
        rewrite (bind_run _ _ wf None (log_lookup (Some pid) wf)).
        2:{ by rewrite Htab, Hget. }
        reflexivity. }
    rewrite (bind_run _ _ w2 (set_parent None (set_fileRoot fr it)) w2).
    2:{ apply get_item_run. simpl. by rewrite list_lookup_alter_eq, Hit'. }
    reflexivity. }
  exists w2. split; [|split].
  - unfold DrawIoFile.link_item. by rewrite (bind_run _ _ _ _ _ Hpar).
  - intros l. simpl. destruct (decide (item = l)) as [<-|Hne].
    + by rewrite list_lookup_alter_eq, Hit', Hit.
    + rewrite list_lookup_alter_ne by done.
      destruct (store wf !! l) as [y|] eqn:Hy.
      * by destruct (Forall2_lookup_r _ _ _ _ _ Hst Hy) as (x & -> & fr' & ->).
      * destruct (store w !! l) as [x|] eqn:Hx; [|done].
        destruct (Forall2_lookup_l _ _ _ _ _ Hst Hx) as (? & ? & _).
        congruence.
  - simpl. by rewrite list_lookup_alter_eq, Hit'.
Qed.

Lemma dangling_parent_is_dropped_witness :
  (store sample_indexed !! 4%nat = Some sample_d
   /\ _parent sample_d = None
   /\ attrib (_xmlTag sample_d) !! "parent" = Some "999"
   /\ dict_get (Some "999") (_itemLookup sample_indexed) = None
   /\ MxItem.fileRoot 2 4%nat sample_indexed
      = Ok (Some ThisFile, sample_indexed_d))
  /\ exists w',
       DrawIoFile.link_item 2 4%nat sample_indexed = Ok (tt, w')
       /\ (forall l, _children <$> store w' !! l
                     = _children <$> store sample_indexed !! l)
       /\ _parent <$> store w' !! 4%nat = Some None.
Proof.
  assert (H1 : store sample_indexed !! 4%nat = Some sample_d)
    by (vm_compute; reflexivity).
  assert (H2 : _parent sample_d = None) by reflexivity.
  assert (H3 : attrib (_xmlTag sample_d) !! "parent" = Some "999")
    by (vm_compute; reflexivity).
  assert (H4 : dict_get (Some "999") (_itemLookup sample_indexed) = None)
    by (vm_compute; reflexivity).
  assert (H5 : MxItem.fileRoot 2 4%nat sample_indexed
               = Ok (Some ThisFile, sample_indexed_d))
    by (vm_compute; reflexivity).
  exact (conj (conj H1 (conj H2 (conj H3 (conj H4 H5))))
           (dangling_parent_is_dropped 2 sample_indexed sample_indexed_d 4%nat
              sample_d "999" H1 H2 H3 H4 H5)).
Defined.

(** C3 as stated fails: in the sample the cell [d] has [parent="999"], no
    item has the id [999], and [_relinkAll] returns normally; afterwards
    [d] is in no children list. *)
Lemma relink_accepts_dangling_parent :
  (exists it, store sample_unlinked !! 4%nat = Some it
              /\ attrib (_xmlTag it) !! "parent" = Some "999")
  /\ Forall (fun it => MxItem.id it <> Some "999") (store sample_unlinked)
  /\ DrawIoFile._relinkAll 2 sample_unlinked = Ok (tt, sample_world)
  /\ (~ exists e, DrawIoFile._relinkAll 2 sample_unlinked = Raise e)
  /\ Forall (fun it => 4%nat ∉ _children it) (store sample_world).
Proof.
  assert (H : DrawIoFile._relinkAll 2 sample_unlinked = Ok (tt, sample_world))
    by (vm_compute; reflexivity).
  split; [exists sample_d; split; vm_compute; reflexivity|].
  split; [compute_done|].
  split; [exact H|].
  split; [intros [e He]; rewrite H in He; discriminate|].
  compute_done.
Qed.

(** ** The logical accessors *)

(** C4 (the code departs from it): the claim wants [treeStr] to end on a
    logical cycle by printing [...] at the revisited node.  In the source
    the call without [ignore] builds the visited set and then renders
    nothing below the node, so it returns the node's name alone, with no
    marker; and a call with a set never adds a node to it, so on two items
    that are each other's children, neither in the set, no amount of
    recursion returns a text: when each is the other's first child every
    depth ends out of fuel. *)
Theorem treeStr_cycle (w : World) (a b : loc) (ia ib : MxItem)
    (ig : gset loc) :
  store w !! a = Some ia ->
  store w !! b = Some ib ->
  b ∈ MxItem.children ia ->
  a ∈ MxItem.children ib ->
  a ∉ ig -> b ∉ ig ->
  (forall fuel indent,
     MxItem.treeStr (S fuel) w a indent None = Ok (indent +:+ MxItem.name ia))
  /\ (forall fuel indent s,
        MxItem.treeStr fuel w a indent (Some ig) <> Ok s)
  /\ (hd_error (MxItem.children ia) = Some b ->
      hd_error (MxItem.children ib) = Some a ->
      forall fuel indent,
        MxItem.treeStr fuel w a indent (Some ig) = OutOfFuel).
Proof.
  intros Ha Hb Hba Hab Hia Hib. split; [|split].
  - intros fuel indent. simpl. unfold item_at. by rewrite Ha.
  - intros fuel.
    cut ((forall indent s, MxItem.treeStr fuel w a indent (Some ig) <> Ok s)
         /\ (forall indent s,
               MxItem.treeStr fuel w b indent (Some ig) <> Ok s)).
    { intros [H _]. exact H. }
    induction fuel as [|fuel [IHa IHb]]; [split; intros; discriminate|].
    split; intros indent s; simpl; unfold item_at.
    + rewrite Ha. cbn [mbind result_bind].
      rewrite bool_decide_eq_false_2 by exact Hia.
      destruct (rmapM _ (MxItem.children ia)) as [below| | |] eqn:E;
        try discriminate.
      destruct (rmapM_Ok_all _ _ _ _ E Hba) as [s' Hs']. by apply IHb in Hs'.
    + rewrite Hb. cbn [mbind result_bind].
      rewrite bool_decide_eq_false_2 by exact Hib.
      destruct (rmapM _ (MxItem.children ib)) as [below| | |] eqn:E;
        try discriminate.
      destruct (rmapM_Ok_all _ _ _ _ E Hab) as [s' Hs']. by apply IHa in Hs'.
  - intros Hha Hhb fuel.
    cut ((forall indent, MxItem.treeStr fuel w a indent (Some ig) = OutOfFuel)
         /\ (forall indent,
               MxItem.treeStr fuel w b indent (Some ig) = OutOfFuel)).
    { intros [H _]. exact H. }
    induction fuel as [|fuel [IHa IHb]]; [split; reflexivity|].
    split; intros indent; simpl; unfold item_at.
    + rewrite Ha. cbn [mbind result_bind].
      rewrite bool_decide_eq_false_2 by exact Hia.
      destruct (MxItem.children ia) as [|c cs]; [discriminate|].
      injection Hha as ->. simpl. by rewrite IHb.
    + rewrite Hb. cbn [mbind result_bind].
      rewrite bool_decide_eq_false_2 by exact Hib.
      destruct (MxItem.children ib) as [|c cs]; [discriminate|].
      injection Hhb as ->. simpl. by rewrite IHa.
Qed.

Lemma treeStr_cycle_witness :
  (store sample_world !! 1%nat = Some sample_a
   /\ store sample_world !! 2%nat = Some sample_b
   /\ 2%nat ∈ MxItem.children sample_a
   /\ 1%nat ∈ MxItem.children sample_b
   /\ (1%nat ∉ (∅ : gset loc)) /\ (2%nat ∉ (∅ : gset loc)))
  /\ (forall fuel indent,
        MxItem.treeStr (S fuel) sample_world 1%nat indent None
        = Ok (indent +:+ MxItem.name sample_a))
  /\ (forall fuel indent s,
        MxItem.treeStr fuel sample_world 1%nat indent (Some ∅) <> Ok s)
  /\ (hd_error (MxItem.children sample_a) = Some 2%nat ->
      hd_error (MxItem.children sample_b) = Some 1%nat ->
      forall fuel indent,
        MxItem.treeStr fuel sample_world 1%nat indent (Some ∅) = OutOfFuel).
Proof.
  assert (H1 : store sample_world !! 1%nat = Some sample_a)
    by (vm_compute; reflexivity).
  assert (H2 : store sample_world !! 2%nat = Some sample_b)
    by (vm_compute; reflexivity).
  assert (H3 : 2%nat ∈ MxItem.children sample_a)
    by (vm_compute; apply list_elem_of_here).
  assert (H4 : 1%nat ∈ MxItem.children sample_b)
    by (vm_compute; apply list_elem_of_here).
  assert (H5 : 1%nat ∉ (∅ : gset loc)) by apply not_elem_of_empty.
  assert (H6 : 2%nat ∉ (∅ : gset loc)) by apply not_elem_of_empty.
  exact (conj (conj H1 (conj H2 (conj H3 (conj H4 (conj H5 H6)))))
           (treeStr_cycle sample_world 1%nat 2%nat sample_a sample_b ∅
              H1 H2 H3 H4 H5 H6)).
Defined.

(** What the top-level call prints for the cell [a] of the sample, whose
    children are [b] and [c]: its name and nothing else. *)
Example sample_treeStr :
  MxItem.treeStr 5 sample_world 1%nat "" None = Ok "mxCell".
Proof. vm_compute. reflexivity. Qed.

(** [MxItem.__init__] stores the new item itself in [_root]. *)
Lemma init_root fileParent xmlTag w :
  exists self w',
    MxItem.__init__ fileParent xmlTag w = Ok (self, w')
    /\ _root <$> store w' !! self = Some (Some self).
Proof.
  eexists _, _. split; [reflexivity|]. simpl.
  by rewrite lookup_app_r, Nat.sub_diag.
Qed.

(** C6 (the code departs from it): [root] should climb the logical
    parents up to an item without parent.  [__init__] stores the item
    itself in [_root], nothing else writes the field, and the accessor
    climbs only when the field is [None]; so for every item [root]
    returns the item itself and leaves the world as it is, whatever its
    parent. *)
Theorem root_returns_self (fuel : nat) (w : World) (self : loc)
    (it : MxItem) :
  store w !! self = Some it ->
  _root it = Some self ->
  MxItem.root (S fuel) self w = Ok (Some self, w).
Proof.
  intros Hit Hr. simpl. unfold mbind, M_bind, get_item, item_at.
  rewrite Hit. simpl. rewrite Hr. simpl. rewrite Hit. simpl. by rewrite Hr.
Qed.

Lemma root_returns_self_witness :
  (store sample_world !! 3%nat = Some sample_c /\ _root sample_c = Some 3%nat)
  /\ MxItem.root 5 3%nat sample_world = Ok (Some 3%nat, sample_world).
Proof.
  assert (H1 : store sample_world !! 3%nat = Some sample_c)
    by (vm_compute; reflexivity).
  assert (H2 : _root sample_c = Some 3%nat) by reflexivity.
  exact (conj (conj H1 H2)
           (root_returns_self 4 sample_world 3%nat sample_c H1 H2)).
Defined.

(** In the sample the parent of [c] resolves to [a], whose parent is [b],
    and yet the root of [c] is [c]. *)
Example sample_root_of_c :
  fst <$> MxItem.parent 2 3%nat sample_world = Ok (Some 1%nat)
  /\ fst <$> MxItem.root 5 3%nat sample_world = Ok (Some 3%nat).
Proof. split; vm_compute; reflexivity. Qed.

(** C7: an item with a cached logical parent whose id is the item's
    [parent] attribute gets the cached parent back, with the world
    untouched and so without any call of [lookupId]; once the attribute
    is set to the id of another indexed item the next access finds the
    cached parent's id different, looks the new id up (one call of
    [lookupId], with the new id) and returns and caches the item the
    table holds for it. *)
Theorem parent_cache_follows_attribute (fuel : nat) (w0 : World)
    (self p : loc) (it pit : MxItem) :
  store w0 !! self = Some it ->
  _parent it = Some p ->
  store w0 !! p = Some pit ->
  MxItem.id pit = attrib (_xmlTag it) !! "parent" ->
  MxItem.parent fuel self w0 = Ok (Some p, w0)
  /\ forall (newid : string) (q : loc) (w wf : World),
       MxItem.id pit <> Some newid ->
       dict_get (Some newid) (_itemLookup w0) = Some q ->
       upd_item self (set_attrib "parent" newid) w0 = Ok (tt, w) ->
       MxItem.fileRoot fuel self w = Ok (Some ThisFile, wf) ->
       exists w',
         MxItem.parent fuel self w = Ok (Some q, w')
         /\ lookups w' = Some newid :: lookups w0
         /\ _parent <$> store w' !! self = Some (Some q).
Proof.
  intros Hit Hp Hpit Hid. split.
  - unfold MxItem.parent.
    rewrite (bind_run _ _ _ _ _ (get_item_run _ _ _ Hit)).
    rewrite Hp.
    rewrite (bind_run _ _ w0 false w0).
    2:{ rewrite (bind_run _ _ _ _ _ (get_item_run _ _ _ Hpit)).
        rewrite bool_decide_eq_false_2; [reflexivity|]. intros H; by apply H. }
    rewrite (bind_run _ _ w0 tt w0) by reflexivity.
    rewrite (bind_run _ _ _ _ _ (get_item_run _ _ _ Hit)).
    by rewrite Hp.
  - intros newid q w wf Hne Hq Hw Hfr.
    injection Hw as <-.
    set (w := set_store _ w0) in *.
    assert (Hself : store w !! self = Some (set_attrib "parent" newid it)).
    { subst w; simpl. by rewrite list_lookup_alter_eq, Hit. }
    assert (Hpw : exists pit',
               store w !! p = Some pit' /\ MxItem.id pit' = MxItem.id pit).
    { subst w; simpl. destruct (decide (self = p)) as [->|Hsp].
      - rewrite list_lookup_alter_eq, Hpit. simpl.
        eexists; split; [reflexivity|]. by apply set_attrib_frame_id.
      - rewrite list_lookup_alter_ne by done. eauto. }
    destruct Hpw as (pit' & Hpit' & Hid').
    destruct (fileRoot_frame _ _ _ _ _ Hfr) as [(_ & Htab & _ & Hst) Hlog].
    destruct (Forall2_lookup_l _ _ _ _ _ Hst Hself) as (it' & Hit' & _).
    set (w2 := set_store (alter (set_parent (Some q)) self
                           (store (log_lookup (Some newid) wf)))
                         (log_lookup (Some newid) wf)).
    exists w2. split; [|split].
    + unfold MxItem.parent.
      rewrite (bind_run _ _ _ _ _ (get_item_run _ _ _ Hself)).
      simpl _parent. rewrite Hp.
      rewrite (bind_run _ _ w true w).
      2:{ rewrite (bind_run _ _ _ _ _ (get_item_run _ _ _ Hpit')).
          rewrite bool_decide_eq_true_2; [reflexivity|].
          rewrite Hid'. simpl. rewrite lookup_insert_eq. exact Hne. }
      simpl attrib. rewrite lookup_insert_eq.
      rewrite (bind_run _ _ w tt w2).
      2:{ rewrite (bind_run _ _ _ _ _ Hfr). cbv beta iota.
          unfold MxItem.lookupId at 1.
          rewrite (bind_run _ _ wf (Some q) (log_lookup (Some newid) wf)).
          2:{ rewrite Htab. unfold w. simpl. by rewrite Hq. }
          reflexivity. }
      rewrite (bind_run _ _ w2 (set_parent (Some q) it') w2).
      2:{ apply get_item_run. simpl. by rewrite list_lookup_alter_eq, Hit'. }
      reflexivity.
    + simpl. by rewrite Hlog.
    + simpl. by rewrite list_lookup_alter_eq, Hit'.
Qed.

Lemma parent_cache_follows_attribute_witness :
  (store sample_world !! 3%nat = Some sample_c
   /\ _parent sample_c = Some 1%nat
   /\ store sample_world !! 1%nat = Some sample_a
   /\ MxItem.id sample_a = attrib (_xmlTag sample_c) !! "parent")
  /\ MxItem.parent 2 3%nat sample_world = Ok (Some 1%nat, sample_world)
  /\ exists w',
       MxItem.parent 2 3%nat sample_mutated = Ok (Some 2%nat, w')
       /\ lookups w' = Some "b" :: lookups sample_world
       /\ _parent <$> store w' !! 3%nat = Some (Some 2%nat).
Proof.
  assert (H1 : store sample_world !! 3%nat = Some sample_c)
    by (vm_compute; reflexivity).
  assert (H2 : _parent sample_c = Some 1%nat) by reflexivity.
  assert (H3 : store sample_world !! 1%nat = Some sample_a)
    by (vm_compute; reflexivity).
  assert (H4 : MxItem.id sample_a = attrib (_xmlTag sample_c) !! "parent")
    by (vm_compute; reflexivity).
  assert (H5 : MxItem.id sample_a <> Some "b") by (vm_compute; discriminate).
  assert (H6 : dict_get (Some "b") (_itemLookup sample_world) = Some 2%nat)
    by (vm_compute; reflexivity).
  assert (H7 : upd_item 3%nat (set_attrib "parent" "b") sample_world
               = Ok (tt, sample_mutated)) by reflexivity.
  assert (H8 : MxItem.fileRoot 2 3%nat sample_mutated
               = Ok (Some ThisFile, sample_mutated))
    by (vm_compute; reflexivity).
  pose proof (parent_cache_follows_attribute 2 sample_world 3%nat 1%nat
                sample_c sample_a H1 H2 H3 H4) as [HA HB].
  exact (conj (conj H1 (conj H2 (conj H3 H4)))
           (conj HA (HB "b" 2%nat sample_mutated sample_mutated H5 H6 H7 H8))).
Defined.

(** ** Loading *)

(** C9: [assign] makes one item, for the element [_etree[0][0][0]], by
    [MxItem.__init__], which stores the element in [_xmlTag] without going
    through the setter of [xmlTag]; so after every [assign] that returns,
    the item tree is that one item, it has no file children, the walk from
    it yields it alone, and the id-lookup table has the one entry made for
    it.  No item of the store gains file children either. *)
Theorem assign_leaves_items_childless (fromstring : string -> result Element)
    (fuel : nat) (s : string) (encoded keepMxfileTag : bool) (w w' : World) :
  DrawIoFile.assign fromstring fuel s encoded keepMxfileTag w = Ok (tt, w') ->
  (exists t it,
     _itemTree w' = Some t
     /\ store w' !! t = Some it
     /\ _fileChildren it = []
     /\ (forall n, MxItem.walkFileTree (S n) w' t = Ok [t])
     /\ _itemLookup w' = [(MxItem.id it, t)]
     /\ (length (_itemLookup w') <= 1)%nat)
  /\ (Forall (fun it => _fileChildren it = []) (store w) ->
      Forall (fun it => _fileChildren it = []) (store w')).
Proof.
  intros H. unfold DrawIoFile.assign in H.
  apply bind_Ok in H as (s' & w1 & Hs & H).
  assert (w1 = w) as ->
    by (unfold lift in Hs; destruct (assign_text _ _ _); congruence).
  apply bind_Ok in H as (e & w1 & He & H).
  assert (w1 = w) as ->
    by (unfold lift in He; destruct (fromstring _); congruence).
  apply bind_Ok in H as ([] & w1 & Hm & H). injection Hm as <-.
  apply bind_Ok in H as (x & w1 & Hx & H).
  assert (w1 = set_etree (Some e) w) as ->.
  { unfold lift in Hx. destruct (_ ≫= _); congruence. }
  apply bind_Ok in H as (t & w1 & Hi & H). injection Hi as <- <-.
  apply bind_Ok in H as ([] & w1 & Hm & H). injection Hm as <-.
  apply bind_Ok in H as ([] & w1 & Hm & H). injection Hm as <-.
  set (t := length (store w)) in *.
  set (it0 := mkMxItem [] None [] (Some t) (Some ThisFile) None x).
  set (w3 := set_store _ _) in H.
  assert (Hst3 : store w3 = store w ++ [it0]).
  { subst w3. simpl. rewrite alter_app_r_alt by (unfold t; lia).
    by replace (t - length (store w))%nat with O by (unfold t; lia). }
  assert (Ht3 : store w3 !! t = Some it0).
  { rewrite Hst3. rewrite lookup_app_r by (unfold t; lia).
    by replace (t - length (store w))%nat with O by (unfold t; lia). }
  unfold DrawIoFile._relinkAll in H.
  apply bind_Ok in H as ([] & w4' & Hidx & Hlink).
  destruct fuel as [|fuel]; [discriminate|].
  assert (Hwalk : forall n, MxItem.walkFileTree (S n) w3 t = Ok [t]).
  { intros n. simpl. unfold item_at. by rewrite Ht3. }
  rewrite (index_pass_run (S fuel) w3 t [t] eq_refl (Hwalk fuel)) in Hidx.
  injection Hidx as <-. simpl in Hlink.
  assert (Hid3 : id_at w3 t = MxItem.id it0)
    by (unfold id_at; by rewrite Ht3).
  rewrite Hid3 in Hlink.
  set (w4 := set_itemLookup [(MxItem.id it0, t)] w3) in Hlink.
  unfold DrawIoFile.link_pass in Hlink.
  apply bind_Ok in Hlink as (w5 & w6 & Hg & Hlink). injection Hg as <- <-.
  apply forM_frame in Hlink; [|intros; by eapply link_item_frame].
  pose proof Hlink as (Htree & Htab & _ & Hst).
  assert (Ht4 : store w4 !! t = Some it0) by exact Ht3.
  destruct (Forall2_lookup_l _ _ _ _ _ Hst Ht4)
    as (it & Hit & Hfc & _ & _ & Hxml).
  split.
  - exists t, it. split; [|split; [|split; [|split; [|split]]]].
    + by rewrite Htree.
    + exact Hit.
    + by rewrite Hfc.
    + intros n. simpl. unfold item_at. rewrite Hit. simpl.
      unfold MxItem.fileChildren. by rewrite Hfc.
    + rewrite Htab. simpl. unfold MxItem.id, MxItem.mxId. by rewrite Hxml.
    + rewrite Htab. simpl. lia.
  - intros Hall. eapply frame_no_file_children; [exact Hlink|].
    change (store w4) with (store w3). rewrite Hst3.
    apply Forall_app. split; [done|]. by constructor.
Qed.

Lemma assign_leaves_items_childless_witness :
  DrawIoFile.assign parse_sample 2 "<sample/>" false true empty_world
  = Ok (tt, sample_loaded)
  /\ (exists t it,
        _itemTree sample_loaded = Some t
        /\ store sample_loaded !! t = Some it
        /\ _fileChildren it = []
        /\ (forall n, MxItem.walkFileTree (S n) sample_loaded t = Ok [t])
        /\ _itemLookup sample_loaded = [(MxItem.id it, t)]
        /\ (length (_itemLookup sample_loaded) <= 1)%nat)
  /\ (Forall (fun it => _fileChildren it = []) (store empty_world) ->
      Forall (fun it => _fileChildren it = []) (store sample_loaded)).
Proof.
  assert (H : DrawIoFile.assign parse_sample 2 "<sample/>" false true
                empty_world = Ok (tt, sample_loaded))
    by (vm_compute; reflexivity).
  exact (conj H
           (assign_leaves_items_childless parse_sample 2 "<sample/>" false true
              empty_world sample_loaded H)).
Defined.

(** The sample document has five cells under [<root>]; loaded, it is one
    item, entered under [None]. *)
Example sample_loaded_table :
  length (store sample_loaded) = 1%nat
  /\ _itemLookup sample_loaded = [(None, 0%nat)].
Proof. split; vm_compute; reflexivity. Qed.

(** C10: an item named [root] whose [_children] is empty and whose
    [_fileChildren] is not answers [children] with its file children,
    which are not empty, while [self[0]] indexes the empty [_children] and
    raises IndexError; and [DrawIoFile.treeStr], which starts from
    [self._itemTree[0]], raises it too when that item is the item tree. *)
Theorem root_item_index_raises (w : World) (t : loc) (it : MxItem)
    (fuel : nat) (indent : string) (ignore : option (gset loc)) :
  store w !! t = Some it ->
  MxItem.name it = "root" ->
  _children it = [] ->
  _fileChildren it <> [] ->
  MxItem.children it = _fileChildren it
  /\ MxItem.children it <> []
  /\ MxItem.__getitem__ it 0 = Raise IndexError
  /\ (_itemTree w = Some t ->
      DrawIoFile.treeStr fuel w indent ignore = Raise IndexError).
Proof.
  intros Hit Hname Hch Hfc.
  assert (Hc : MxItem.children it = _fileChildren it).
  { unfold MxItem.children. rewrite Hch, Hname. reflexivity. }
  assert (Hg : MxItem.__getitem__ it 0 = Raise IndexError).
  { unfold MxItem.__getitem__. rewrite Hch. reflexivity. }
  split; [exact Hc|]. split; [by rewrite Hc|]. split; [exact Hg|].
  intros Ht. unfold DrawIoFile.treeStr, item_at. rewrite Ht, Hit.
  cbn [mbind result_bind]. by rewrite Hg.
Qed.

Lemma root_item_index_raises_witness :
  (store sample_unlinked !! 0%nat = Some sample_root_item
   /\ MxItem.name sample_root_item = "root"
   /\ _children sample_root_item = []
   /\ _fileChildren sample_root_item <> [])
  /\ MxItem.children sample_root_item = _fileChildren sample_root_item
  /\ MxItem.children sample_root_item <> []
  /\ MxItem.__getitem__ sample_root_item 0 = Raise IndexError
  /\ (_itemTree sample_unlinked = Some 0%nat ->
      DrawIoFile.treeStr 5 sample_unlinked "" None = Raise IndexError).
Proof.
  assert (H1 : store sample_unlinked !! 0%nat = Some sample_root_item)
    by (vm_compute; reflexivity).
  assert (H2 : MxItem.name sample_root_item = "root")
    by (vm_compute; reflexivity).
  assert (H3 : _children sample_root_item = []) by reflexivity.
  assert (H4 : _fileChildren sample_root_item <> []) by discriminate.
  exact (conj (conj H1 (conj H2 (conj H3 H4)))
           (root_item_index_raises sample_unlinked 0%nat sample_root_item 5 ""
              None H1 H2 H3 H4)).
Defined.

(** * Further properties *)

(** ** Splitting at a separator *)

Lemma app_assoc_str (a b c : string) : (a +:+ b) +:+ c = a +:+ b +:+ c.
Proof. induction a; simpl; congruence. Qed.

Lemma app_nil_r_str (a : string) : a +:+ "" = a.
Proof. induction a; simpl; congruence. Qed.

Lemma rev_app_tail (cur b : string) :
  String.rev_app cur b = String.rev_app cur "" +:+ b.
Proof.
  revert b; induction cur as [|d cur IH]; intros b; simpl; [done|].
  rewrite (IH (String d b)), (IH (String d "")).
  by rewrite app_assoc_str.
Qed.

Lemma rev_app_app (cur a b : string) :
  String.rev_app cur (a +:+ b) = String.rev_app cur a +:+ b.
Proof.
  rewrite (rev_app_tail cur (a +:+ b)), (rev_app_tail cur a).
  by rewrite app_assoc_str.
Qed.

(** Skipping the rest of a separator that has just been matched. *)
Lemma split_scan_skip sep budget cur t rest :
  PyStr.split_scan sep budget (String.length t) cur (t +:+ rest)
  = PyStr.split_scan sep budget O cur rest.
Proof. induction t as [|c t IH]; simpl; [done | exact IH]. Qed.

(** With no split left the rest of the text is one piece. *)
Lemma split_scan_spent sep cur s :
  PyStr.split_scan sep (Some O) O cur s = [String.rev_app cur s].
Proof.
  revert cur; induction s as [|c s IH]; intros cur; simpl; [done|].
  by rewrite IH.
Qed.

(** A prefix whose first character does not come back in it cannot
    begin inside a text and run over a later occurrence of that
    character. *)
Lemma strip_prefix_inside p c X Y r :
  char_in c p = false ->
  PyStr.strip_prefix p (X +:+ String c Y) = Some r ->
  exists X', X = p +:+ X'.
Proof.
  revert X; induction p as [|d p IH]; intros X Hc H; [by exists X|].
  simpl in Hc. apply orb_false_iff in Hc as [Hcd Hc].
  destruct X as [|x X]; simpl in H.
  - rewrite Ascii.eqb_sym, Hcd in H. discriminate.
  - destruct (Ascii.eqb_spec d x) as [->|]; [|discriminate].
    destruct (IH X Hc H) as [X' ->]. by exists X'.
Qed.

Lemma split_scan_match sep budget cur c s' r :
  budget <> Some O ->
  PyStr.strip_prefix sep (String c s') = Some r ->
  PyStr.split_scan sep budget O cur (String c s')
  = String.rev cur
    :: PyStr.split_scan sep (Nat.pred <$> budget)
         (Nat.pred (String.length sep)) "" s'.
Proof.
  intros Hb Hp. cbn [PyStr.split_scan]. rewrite Hp.
  destruct budget as [[|n]|]; [by destruct Hb| |]; reflexivity.
Qed.

Lemma split_scan_nomatch sep budget cur c s' :
  PyStr.strip_prefix sep (String c s') = None ->
  PyStr.split_scan sep budget O cur (String c s')
  = PyStr.split_scan sep budget O (String c cur) s'.
Proof.
  intros Hp. cbn [PyStr.split_scan]. rewrite Hp.
  by destruct budget as [[|n]|].
Qed.

(** The first occurrence of a separator whose first character does not
    come back in it: the text before it is a piece and the scan goes on
    after it with one split less. *)
Lemma split_scan_first c t budget cur pre rest :
  char_in c t = false ->
  budget <> Some O ->
  ~ PyStr.occurs (String c t) pre ->
  PyStr.split_scan (String c t) budget O cur
    (pre +:+ String c t +:+ rest)
  = String.rev_app cur pre
    :: PyStr.split_scan (String c t) (Nat.pred <$> budget) O "" rest.
Proof.
  intros Hc Hb. revert cur; induction pre as [|a pre IH]; intros cur Hno.
  - change ("" +:+ String c t +:+ rest) with (String c (t +:+ rest)).
    rewrite (split_scan_match _ _ _ _ _ rest Hb).
    2:{ apply (strip_prefix_complete (String c t) rest). }
    cbn [String.length Nat.pred]. by rewrite split_scan_skip.
  - change (String a pre +:+ String c t +:+ rest)
      with (String a (pre +:+ String c t +:+ rest)).
    rewrite split_scan_nomatch.
    + rewrite IH; [done|]. intros H. apply Hno. by apply occurs_tail.
    + destruct (PyStr.strip_prefix _ _) as [r|] eqn:Hp; [|done].
      exfalso. simpl in Hp.
      destruct (Ascii.eqb_spec c a) as [<-|]; [|discriminate].
      destruct (strip_prefix_inside t c pre (t +:+ rest) r Hc Hp) as [X' ->].
      apply Hno. exists "", X'. reflexivity.
Qed.

(** A text in which the separator does not occur is one piece, whatever
    the number of splits allowed. *)
Lemma split_scan_absent_any sep budget s cur :
  ~ PyStr.occurs sep s ->
  PyStr.split_scan sep budget O cur s = [String.rev_app cur s].
Proof.
  revert cur; induction s as [|c s IH]; intros cur Hno; [done|].
  rewrite split_scan_nomatch.
  - rewrite IH; [done|]. intros H. apply Hno. by apply occurs_tail.
  - destruct (PyStr.strip_prefix sep (String c s)) as [r|] eqn:Hp; [|done].
    exfalso. apply Hno. exists "", r. simpl. by apply strip_prefix_app.
Qed.

Lemma char_in_occurs c s :
  char_in c s = false -> ~ PyStr.occurs (String c "") s.
Proof.
  intros Hc (pre & post & ->). induction pre as [|a pre IH]; simpl in Hc.
  - by rewrite Ascii.eqb_refl in Hc.
  - apply orb_false_iff in Hc as [_ Hc]. auto.
Qed.

(** [s.split(sep, 1)] at the first occurrence of [sep]. *)
Lemma splitn_first c t pre rest :
  char_in c t = false ->
  ~ PyStr.occurs (String c t) pre ->
  PyStr.splitn (pre +:+ String c t +:+ rest) (String c t) 1
  = Ok [pre; rest].
Proof.
  intros Hc Hno. unfold PyStr.splitn, PyStr.split_with.
  rewrite split_scan_first by done.
  cbn [fmap option_fmap option_map Nat.pred].
  by rewrite split_scan_spent.
Qed.

Lemma splitn_absent sep s n :
  sep <> "" -> ~ PyStr.occurs sep s -> PyStr.splitn s sep n = Ok [s].
Proof.
  intros Hsep Hno. unfold PyStr.splitn, PyStr.split_with.
  destruct sep; [done|]. by rewrite split_scan_absent_any.
Qed.

Lemma split_pieces pieces : forall pre cur,
  ~ PyStr.occurs open_marker pre ->
  Forall (fun p => ~ PyStr.occurs open_marker p) pieces ->
  PyStr.split_scan open_marker None O cur (pieces_text pre pieces)
  = String.rev_app cur pre :: pieces.
Proof.
  induction pieces as [|p pieces IH]; intros pre cur Hpre Hall.
  - by apply split_scan_absent.
  - apply Forall_cons in Hall as [Hp Hall].
    cbn [pieces_text]. change open_marker with (String "<" "diagram") in *.
    rewrite split_scan_first by done.
    cbn [fmap option_fmap option_map].
    by rewrite IH.
Qed.

Lemma split_pieces_text pre pieces :
  ~ PyStr.occurs open_marker pre ->
  Forall (fun p => ~ PyStr.occurs open_marker p) pieces ->
  PyStr.split (pieces_text pre pieces) open_marker = Ok (pre :: pieces).
Proof.
  intros Hpre Hall. unfold PyStr.split, PyStr.split_with.
  change open_marker with (String "<" "diagram") at 1.
  cbv beta iota. f_equal. by apply (split_pieces pieces pre "").
Qed.

Lemma envelope_step_shape keep decoded b :
  decoded <> [] ->
  block_shape b ->
  envelope_step keep decoded (block_piece b)
  = (block ← _mxDecodeBlock (VStr (payload b));
     Ok (decoded ++
         if keep
         then [attrs b; ">"; block; close_marker; trailer b]
         else [block; trailer b])).
Proof.
  intros Hd (Ha & Hp & _). unfold envelope_step.
  destruct decoded as [|d0 decoded]; [done|]. unfold block_piece.
  change ">" with (String ">" "") at 1.
  rewrite (splitn_first ">" "" (attrs b)) by (done || by apply char_in_occurs).
  cbn [mbind result_bind].
  change (py_index [attrs b; payload b +:+ close_marker +:+ trailer b] 1)
    with (Ok (payload b +:+ close_marker +:+ trailer b)).
  change (py_index [attrs b; payload b +:+ close_marker +:+ trailer b] 0)
    with (Ok (attrs b)).
  change close_marker with (String "<" "/diagram>") in *.
  destruct keep; cbn [mbind result_bind];
    rewrite (splitn_first "<" "/diagram>" (payload b)) by done;
    cbn [mbind result_bind];
    change (py_index [payload b; trailer b] 0) with (Ok (payload b));
    cbn [mbind result_bind];
    destruct (_mxDecodeBlock (VStr (payload b))) as [d| | |];
    cbn [mbind result_bind]; try reflexivity;
    change (py_index [payload b; trailer b] 1) with (Ok (trailer b));
    cbn [mbind result_bind]; by rewrite <- !app_assoc.
Qed.

Lemma envelope_step_block keep decoded b :
  decoded <> [] ->
  block_ok b ->
  envelope_step keep decoded (block_piece b)
  = Ok (decoded ++ block_output keep b).
Proof.
  intros Hd [Hs Hdec]. rewrite envelope_step_shape by done.
  by rewrite Hdec.
Qed.

Lemma envelope_loop_app keep l1 : forall decoded l2,
  envelope_loop keep decoded (l1 ++ l2)
  = (d ← envelope_loop keep decoded l1; envelope_loop keep d l2).
Proof.
  induction l1 as [|p l1 IH]; intros decoded l2; [done|].
  cbn [app envelope_loop].
  destruct (envelope_step keep decoded p); cbn [mbind result_bind]; auto.
Qed.

Lemma envelope_loop_blocks keep blocks : forall decoded,
  decoded <> [] ->
  Forall block_ok blocks ->
  envelope_loop keep decoded (block_piece <$> blocks)
  = Ok (decoded ++ concat (block_output keep <$> blocks)).
Proof.
  induction blocks as [|b blocks IH]; intros decoded Hd Hall.
  - simpl. by rewrite app_nil_r.
  - apply Forall_cons in Hall as [Hb Hall].
    cbn [fmap list_fmap envelope_loop].
    rewrite envelope_step_block by done. cbn [mbind result_bind].
    rewrite IH; [|by destruct decoded|done].
    cbn [concat]. by rewrite <- app_assoc.
Qed.

Lemma join_empty l : PyStr.join "" l = concat_str l.
Proof.
  induction l as [|s l IH]; [done|]. simpl.
  destruct l as [|s' l]; [by rewrite app_nil_r_str|].
  by rewrite <- IH.
Qed.

Lemma concat_str_app l1 l2 :
  concat_str (l1 ++ l2) = concat_str l1 +:+ concat_str l2.
Proof.
  induction l1 as [|s l1 IH]; simpl; [done|]. by rewrite IH, app_assoc_str.
Qed.

Lemma concat_str_blocks {A} (f : A -> list string) (l : list A) :
  concat_str (concat (f <$> l))
  = concat_str ((fun a => concat_str (f a)) <$> l).
Proof.
  induction l as [|a l IH]; simpl; [done|].
  rewrite concat_str_app. f_equal. exact IH.
Qed.

Lemma block_ok_no_open blocks :
  Forall block_ok blocks ->
  Forall (fun p => ~ PyStr.occurs open_marker p) (block_piece <$> blocks).
Proof.
  intros Hall. apply Forall_fmap. eapply Forall_impl; [exact Hall|].
  by intros b ((_ & _ & H) & _).
Qed.

(** The text of a document whose markers are all read as written. *)
Lemma assign_text_document (pre : string) (blocks : list block) :
  ~ PyStr.occurs open_marker pre ->
  Forall block_ok blocks ->
  assign_text (document_text pre blocks) true true
  = Ok (pre +:+ open_marker +:+ concat_str (block_kept <$> blocks))
  /\ assign_text (document_text pre blocks) true false
     = Ok (pre +:+ concat_str (block_bare <$> blocks)).
Proof.
  intros Hpre Hall.
  unfold assign_text, document_text.
  rewrite split_pieces_text by (done || by apply block_ok_no_open).
  cbn [mbind result_bind].
  cbn [envelope_loop envelope_step]. cbn [mbind result_bind].
  split.
  - rewrite envelope_loop_blocks by done. cbn [mbind result_bind].
    rewrite join_empty, concat_str_app, concat_str_blocks. f_equal.
    cbn [concat_str]. rewrite app_nil_r_str, app_assoc_str. do 3 f_equal.
    apply list_fmap_ext. intros _ b _. unfold block_kept, block_output.
    cbn [concat_str]. by rewrite app_nil_r_str.
  - rewrite envelope_loop_blocks by done. cbn [mbind result_bind].
    rewrite join_empty, concat_str_app, concat_str_blocks. f_equal.
    cbn [concat_str]. rewrite app_nil_r_str. do 2 f_equal.
    apply list_fmap_ext. intros _ b _. unfold block_bare, block_output.
    cbn [concat_str]. by rewrite app_nil_r_str.
Qed.

(** The loop stops at the first piece on which a turn raises, after any
    number of markers read as written. *)
Lemma assign_text_fails_at pre blocks bad others keep e :
  ~ PyStr.occurs open_marker pre ->
  Forall block_ok blocks ->
  Forall (fun p => ~ PyStr.occurs open_marker p) (bad :: others) ->
  (forall decoded, decoded <> [] ->
     envelope_step keep decoded bad = Raise e) ->
  assign_text (pieces_text pre ((block_piece <$> blocks) ++ bad :: others))
    true keep
  = Raise e.
Proof.
  intros Hpre Hall Hno Hbad. unfold assign_text.
  rewrite split_pieces_text;
    [|done|apply Forall_app; split; [by apply block_ok_no_open|done]].
  cbn [mbind result_bind].
  cbn [envelope_loop envelope_step]. cbn [mbind result_bind].
  rewrite envelope_loop_app, envelope_loop_blocks by done.
  cbn [mbind result_bind envelope_loop].
  rewrite Hbad; [done|]. by destruct keep.
Qed.

Lemma length_app_str (a b : string) :
  String.length (a +:+ b) = (String.length a + String.length b)%nat.
Proof. induction a; simpl; congruence. Qed.

Lemma length_concat_str l :
  String.length (concat_str l) = sum_list (String.length <$> l).
Proof.
  induction l as [|s l IH]; [done|].
  cbn [concat_str fmap list_fmap sum_list sum_list_with].
  rewrite length_app_str, IH. reflexivity.
Qed.

Lemma length_pieces_text pieces : forall pre,
  String.length (pieces_text pre pieces)
  = (String.length pre + 8 * length pieces
     + sum_list (String.length <$> pieces))%nat.
Proof.
  induction pieces as [|p pieces IH]; intros pre.
  - cbn [pieces_text fmap list_fmap sum_list sum_list_with length]. lia.
  - cbn [pieces_text fmap list_fmap sum_list sum_list_with length].
    rewrite !length_app_str, IH.
    change (String.length open_marker) with 8%nat. unfold id. lia.
Qed.

Ltac no_occurrence :=
  let H := fresh in
  intros H; apply occurs_contains in H; vm_compute in H; discriminate H.

(** X1: a document with one marker that is read as written (no
    [<diagram] before it or after its opening, no [>] among its
    attributes, no [</diagram>] inside the payload, a payload that
    decodes) reaches the parser with the payload replaced by its decoded
    text and everything around it as it was; without [keepMxfileTag] the
    wrapping tag is left out. *)
Theorem assign_text_one_marker (pre a p d t : string) :
  ~ PyStr.occurs open_marker pre ->
  char_in ">" a = false ->
  ~ PyStr.occurs close_marker p ->
  ~ PyStr.occurs open_marker (a +:+ ">" +:+ p +:+ "</diagram>" +:+ t) ->
  _mxDecodeBlock (VStr p) = Ok d ->
  assign_text (pre +:+ "<diagram" +:+ a +:+ ">" +:+ p +:+ "</diagram>" +:+ t)
    true true
  = Ok (pre +:+ "<diagram" +:+ a +:+ ">" +:+ d +:+ "</diagram>" +:+ t)
  /\ assign_text
       (pre +:+ "<diagram" +:+ a +:+ ">" +:+ p +:+ "</diagram>" +:+ t)
       true false
     = Ok (pre +:+ d +:+ t).
Proof.
  intros Hpre Ha Hp Hno Hd.
  destruct (assign_text_document pre [mkBlock a p d t] Hpre) as [H1 H2].
  { constructor; [|constructor]. by repeat split. }
  unfold document_text, block_kept, block_bare, block_piece in H1, H2.
  cbn [fmap list_fmap concat_str pieces_text attrs payload decoded_payload
       trailer] in H1, H2.
  rewrite app_nil_r_str in H1, H2.
  split; [exact H1 | exact H2].
Qed.

Lemma assign_text_one_marker_witness :
  (~ PyStr.occurs open_marker "<mxfile>"
   /\ char_in ">" " id=x" = false
   /\ ~ PyStr.occurs close_marker "AQMA/P8leno="
   /\ ~ PyStr.occurs open_marker
        (" id=x" +:+ ">" +:+ "AQMA/P8leno=" +:+ "</diagram>" +:+ "</mxfile>")
   /\ _mxDecodeBlock (VStr "AQMA/P8leno=") = Ok "%zz")
  /\ assign_text "<mxfile><diagram id=x>AQMA/P8leno=</diagram></mxfile>"
       true true
     = Ok "<mxfile><diagram id=x>%zz</diagram></mxfile>"
  /\ assign_text "<mxfile><diagram id=x>AQMA/P8leno=</diagram></mxfile>"
       true false
     = Ok "<mxfile>%zz</mxfile>".
Proof.
  assert (H1 : ~ PyStr.occurs open_marker "<mxfile>") by no_occurrence.
  assert (H2 : char_in ">" " id=x" = false) by reflexivity.
  assert (H3 : ~ PyStr.occurs close_marker "AQMA/P8leno=") by no_occurrence.
  assert (H4 : ~ PyStr.occurs open_marker
                 (" id=x" +:+ ">" +:+ "AQMA/P8leno=" +:+ "</diagram>"
                  +:+ "</mxfile>")) by no_occurrence.
  assert (H5 : _mxDecodeBlock (VStr "AQMA/P8leno=") = Ok "%zz")
    by (vm_compute; reflexivity).
  exact (conj (conj H1 (conj H2 (conj H3 (conj H4 H5))))
           (assign_text_one_marker "<mxfile>" " id=x" "AQMA/P8leno=" "%zz"
              "</mxfile>" H1 H2 H3 H4 H5)).
Defined.

Lemma Forall_block_ok_two : Forall block_ok two_blocks.
Proof.
  repeat constructor; try no_occurrence; vm_compute; reflexivity.
Qed.

(** X2: for a document with any number of markers read as written, the
    text handed to the parser is the text before the first marker, one
    [<diagram], and then for each marker its attributes, [>], the decoded
    payload, [</diagram>] and the text after it.  The opening of the
    first marker is kept and that of every later marker is left out: the
    text is shorter than the document with its payloads decoded by the
    eight characters of [<diagram] for every marker after the first. *)
Theorem assign_text_markers (pre : string) (blocks : list block) :
  ~ PyStr.occurs open_marker pre ->
  Forall block_ok blocks ->
  assign_text (document_text pre blocks) true true
  = Ok (pre +:+ open_marker +:+ concat_str (block_kept <$> blocks))
  /\ assign_text (document_text pre blocks) true false
     = Ok (pre +:+ concat_str (block_bare <$> blocks))
  /\ (blocks <> [] ->
      String.length (document_text pre (decoded_block <$> blocks))
      = (String.length
           (pre +:+ open_marker +:+ concat_str (block_kept <$> blocks))
         + 8 * (length blocks - 1))%nat).
Proof.
  intros Hpre Hall.
  destruct (assign_text_document pre blocks Hpre Hall) as [H1 H2].
  split; [exact H1|]. split; [exact H2|].
  intros Hne. unfold document_text.
  rewrite length_pieces_text, !length_app_str, length_concat_str.
  rewrite !length_fmap. change (String.length open_marker) with 8%nat.
  rewrite <- !list_fmap_compose.
  change (String.length ∘ block_piece ∘ decoded_block)
    with (String.length ∘ block_kept).
  destruct blocks; [done|]. simpl length. lia.
Qed.

Lemma assign_text_markers_witness :
  (~ PyStr.occurs open_marker "<mxfile>" /\ Forall block_ok two_blocks)
  /\ assign_text (document_text "<mxfile>" two_blocks) true true
     = Ok ("<mxfile>" +:+ open_marker
           +:+ concat_str (block_kept <$> two_blocks))
  /\ assign_text (document_text "<mxfile>" two_blocks) true false
     = Ok ("<mxfile>" +:+ concat_str (block_bare <$> two_blocks))
  /\ (two_blocks <> [] ->
      String.length (document_text "<mxfile>" (decoded_block <$> two_blocks))
      = (String.length
           ("<mxfile>" +:+ open_marker
            +:+ concat_str (block_kept <$> two_blocks))
         + 8 * (length two_blocks - 1))%nat).
Proof.
  assert (H1 : ~ PyStr.occurs open_marker "<mxfile>") by no_occurrence.
  exact (conj (conj H1 Forall_block_ok_two)
           (assign_text_markers "<mxfile>" two_blocks H1 Forall_block_ok_two)).
Defined.

(** The two-marker sample, in full. *)
Example two_blocks_text :
  document_text "<mxfile>" two_blocks
  = "<mxfile><diagram id=x>AQMA/P8leno=</diagram><!-- --><diagram id=y>AQMA/P8leno=</diagram></mxfile>"
  /\ assign_text (document_text "<mxfile>" two_blocks) true true
     = Ok "<mxfile><diagram id=x>%zz</diagram><!-- --> id=y>%zz</diagram></mxfile>".
Proof. split; vm_compute; reflexivity. Qed.

(** X3: when what follows a [<diagram] has no [>] at all, the loop
    asks for the second part of a split that has one part and raises
    IndexError, whatever [keepMxfileTag] is and however many markers were
    read before. *)
Theorem marker_without_end_of_tag (pre : string) (blocks : list block)
    (bad : string) (others : list string) (keep : bool) :
  ~ PyStr.occurs open_marker pre ->
  Forall block_ok blocks ->
  Forall (fun p => ~ PyStr.occurs open_marker p) (bad :: others) ->
  char_in ">" bad = false ->
  assign_text (pieces_text pre ((block_piece <$> blocks) ++ bad :: others))
    true keep
  = Raise IndexError.
Proof.
  intros Hpre Hall Hno Hbad. apply assign_text_fails_at; try done.
  intros decoded Hd. unfold envelope_step.
  destruct decoded as [|d0 decoded]; [done|].
  rewrite splitn_absent by (done || by apply char_in_occurs).
  by destruct keep.
Qed.

Lemma marker_without_end_of_tag_witness :
  (~ PyStr.occurs open_marker "<mxfile>"
   /\ Forall block_ok two_blocks
   /\ Forall (fun p => ~ PyStr.occurs open_marker p) [" id=z"]
   /\ char_in ">" " id=z" = false)
  /\ assign_text
       (pieces_text "<mxfile>" ((block_piece <$> two_blocks) ++ [" id=z"]))
       true true
     = Raise IndexError.
Proof.
  assert (H1 : ~ PyStr.occurs open_marker "<mxfile>") by no_occurrence.
  assert (H3 : Forall (fun p => ~ PyStr.occurs open_marker p) [" id=z"])
    by (repeat constructor; no_occurrence).
  assert (H4 : char_in ">" " id=z" = false) by reflexivity.
  exact (conj (conj H1 (conj Forall_block_ok_two (conj H3 H4)))
           (marker_without_end_of_tag "<mxfile>" two_blocks " id=z" [] true
              H1 Forall_block_ok_two H3 H4)).
Defined.

(** X4: when a marker's opening tag is closed but no [</diagram>]
    follows, everything after the [>] is handed to the block decoder
    before the missing part is asked for: the loop raises the decoder's
    exception if that text does not decode, and IndexError if it does. *)
Theorem marker_without_closing_tag (pre : string) (blocks : list block)
    (a rest : string) (others : list string) (keep : bool) :
  ~ PyStr.occurs open_marker pre ->
  Forall block_ok blocks ->
  Forall (fun p => ~ PyStr.occurs open_marker p)
         ((a +:+ ">" +:+ rest) :: others) ->
  char_in ">" a = false ->
  ~ PyStr.occurs close_marker rest ->
  (forall e, _mxDecodeBlock (VStr rest) = Raise e ->
     assign_text
       (pieces_text pre
          ((block_piece <$> blocks) ++ (a +:+ ">" +:+ rest) :: others))
       true keep
     = Raise e)
  /\ (forall d, _mxDecodeBlock (VStr rest) = Ok d ->
        assign_text
          (pieces_text pre
             ((block_piece <$> blocks) ++ (a +:+ ">" +:+ rest) :: others))
          true keep
        = Raise IndexError).
Proof.
  intros Hpre Hall Hno Ha Hrest.
  assert (Hstep : forall decoded, decoded <> [] ->
            envelope_step keep decoded (a +:+ ">" +:+ rest)
            = (block ← _mxDecodeBlock (VStr rest);
               (Raise IndexError : result (list string)))).
  { intros decoded Hd. unfold envelope_step.
    destruct decoded as [|d0 decoded]; [done|].
    change ">" with (String ">" "") at 1.
    rewrite (splitn_first ">" "" a) by (done || by apply char_in_occurs).
    cbn [mbind result_bind].
    change (py_index [a; rest] 1) with (Ok rest).
    change (py_index [a; rest] 0) with (Ok a).
    destruct keep; cbn [mbind result_bind];
      rewrite (splitn_absent close_marker rest 1) by done;
      cbn [mbind result_bind];
      change (py_index [rest] 0) with (Ok rest);
      cbn [mbind result_bind];
      by destruct (_mxDecodeBlock (VStr rest)). }
  split.
  - intros e He. apply assign_text_fails_at; try done.
    intros decoded Hd. by rewrite Hstep, He.
  - intros d He. apply assign_text_fails_at; try done.
    intros decoded Hd. by rewrite Hstep, He.
Qed.

Lemma marker_without_closing_tag_witness :
  (~ PyStr.occurs open_marker "<mxfile>"
   /\ Forall block_ok two_blocks
   /\ Forall (fun p => ~ PyStr.occurs open_marker p)
        [" id=z" +:+ ">" +:+ "AQMA/P8leno=</mxfile>"]
   /\ char_in ">" " id=z" = false
   /\ ~ PyStr.occurs close_marker "AQMA/P8leno=</mxfile>")
  /\ (forall e, _mxDecodeBlock (VStr "AQMA/P8leno=</mxfile>") = Raise e ->
        assign_text
          (pieces_text "<mxfile>"
             ((block_piece <$> two_blocks)
              ++ [" id=z" +:+ ">" +:+ "AQMA/P8leno=</mxfile>"]))
          true true
        = Raise e)
  /\ (forall d, _mxDecodeBlock (VStr "AQMA/P8leno=</mxfile>") = Ok d ->
        assign_text
          (pieces_text "<mxfile>"
             ((block_piece <$> two_blocks)
              ++ [" id=z" +:+ ">" +:+ "AQMA/P8leno=</mxfile>"]))
          true true
        = Raise IndexError).
Proof.
  assert (H1 : ~ PyStr.occurs open_marker "<mxfile>") by no_occurrence.
  assert (H3 : Forall (fun p => ~ PyStr.occurs open_marker p)
                 [" id=z" +:+ ">" +:+ "AQMA/P8leno=</mxfile>"])
    by (repeat constructor; no_occurrence).
  assert (H4 : char_in ">" " id=z" = false) by reflexivity.
  assert (H5 : ~ PyStr.occurs close_marker "AQMA/P8leno=</mxfile>")
    by no_occurrence.
  exact (conj (conj H1 (conj Forall_block_ok_two (conj H3 (conj H4 H5))))
           (marker_without_closing_tag "<mxfile>" two_blocks " id=z"
              "AQMA/P8leno=</mxfile>" [] true
              H1 Forall_block_ok_two H3 H4 H5)).
Defined.

(** The text after the pad of the sample block is skipped by base64, so
    the unterminated sample decodes and the loop raises IndexError. *)
Example unterminated_sample :
  _mxDecodeBlock (VStr "AQMA/P8leno=</mxfile>") = Ok "%zz".
Proof. vm_compute. reflexivity. Qed.

(** X5: when a marker is written as the loop expects but its payload
    does not decode, [assign] raises the decoder's exception at that
    marker: nothing of the document reaches the parser, whatever follows
    and however many markers were read before. *)
Theorem payload_error_propagates (pre : string) (blocks : list block)
    (b : block) (others : list string) (keep : bool) (e : PyExc) :
  ~ PyStr.occurs open_marker pre ->
  Forall block_ok blocks ->
  Forall (fun p => ~ PyStr.occurs open_marker p) others ->
  block_shape b ->
  _mxDecodeBlock (VStr (payload b)) = Raise e ->
  assign_text
    (pieces_text pre ((block_piece <$> blocks) ++ block_piece b :: others))
    true keep
  = Raise e.
Proof.
  intros Hpre Hall Hno Hb He. apply assign_text_fails_at; try done.
  - constructor; [|done]. by destruct Hb as (_ & _ & H).
  - intros decoded Hd. rewrite envelope_step_shape by done. by rewrite He.
Qed.

Lemma payload_error_propagates_witness :
  (~ PyStr.occurs open_marker "<mxfile>"
   /\ Forall block_ok two_blocks
   /\ Forall (fun p => ~ PyStr.occurs open_marker p) []
   /\ block_shape truncated_block
   /\ _mxDecodeBlock (VStr (payload truncated_block)) = Raise BinasciiError)
  /\ assign_text
       (pieces_text "<mxfile>"
          ((block_piece <$> two_blocks) ++ [block_piece truncated_block]))
       true true
     = Raise BinasciiError.
Proof.
  assert (H1 : ~ PyStr.occurs open_marker "<mxfile>") by no_occurrence.
  assert (H3 : Forall (fun p : string => ~ PyStr.occurs open_marker p) [])
    by constructor.
  assert (H4 : block_shape truncated_block)
    by (repeat split; try no_occurrence).
  assert (H5 : _mxDecodeBlock (VStr (payload truncated_block))
               = Raise BinasciiError) by (vm_compute; reflexivity).
  exact (conj (conj H1 (conj Forall_block_ok_two (conj H3 (conj H4 H5))))
           (payload_error_propagates "<mxfile>" two_blocks truncated_block []
              true BinasciiError H1 Forall_block_ok_two H3 H4 H5)).
Defined.

(** ** Names and children *)

Lemma char_in_app c a b :
  char_in c (a +:+ b) = char_in c a || char_in c b.
Proof. induction a as [|d a IH]; simpl; [done|]. by rewrite IH, orb_assoc. Qed.

(** X6: the printable name of an item is [root] exactly when its tag is
    [root] and it has no [value] attribute (the quoted value always
    shows in the name); so [children] answers with the file children
    exactly for such an item without logical children, and with
    [_children] in every other case. *)
Theorem children_fallback (it : MxItem) :
  (MxItem.name it = "root"
   <-> MxItem.mxType it = "root" /\ MxItem.value it = None)
  /\ (_children it = [] -> MxItem.mxType it = "root" ->
      MxItem.value it = None ->
      MxItem.children it = _fileChildren it)
  /\ (_children it <> [] \/ MxItem.mxType it <> "root"
      \/ MxItem.value it <> None ->
      MxItem.children it = _children it).
Proof.
  assert (Hname : MxItem.name it = "root"
                  <-> MxItem.mxType it = "root" /\ MxItem.value it = None).
  { unfold MxItem.name, MxItem.value.
    destruct (attrib (_xmlTag it) !! "value") as [v|]; [|by intuition].
    split; [|by intros [_ ?]]. intros H. exfalso.
    assert (Hc : char_in (ascii_of_nat 34)
                   (MxItem.mxType it +:+ " " +:+ dquote +:+ v +:+ dquote)
                 = true).
    { rewrite !char_in_app.
      change (char_in (ascii_of_nat 34) dquote) with true.
      by rewrite !orb_true_r. }
    rewrite H in Hc. vm_compute in Hc. discriminate. }
  split; [exact Hname|]. split.
  - intros Hc Ht Hv. unfold MxItem.children. rewrite Hc.
    by rewrite (proj2 Hname (conj Ht Hv)).
  - intros H. unfold MxItem.children.
    destruct (_children it) as [|c cs] eqn:Hc; [|done].
    simpl. destruct (String.eqb_spec (MxItem.name it) "root") as [Hn|]; [|done].
    apply Hname in Hn as [Ht Hv]. by destruct H as [H|[H|H]].
Qed.

Lemma children_fallback_witness :
  (_children sample_root_item = []
   /\ MxItem.mxType sample_root_item = "root"
   /\ MxItem.value sample_root_item = None)
  /\ MxItem.children sample_root_item = _fileChildren sample_root_item.
Proof.
  assert (H1 : _children sample_root_item = []) by reflexivity.
  assert (H2 : MxItem.mxType sample_root_item = "root") by reflexivity.
  assert (H3 : MxItem.value sample_root_item = None) by reflexivity.
  exact (conj (conj H1 (conj H2 H3))
           (proj1 (proj2 (children_fallback sample_root_item)) H1 H2 H3)).
Defined.

(** ** The file root *)

Lemma fileRoot_result fuel self w r w' :
  MxItem.fileRoot fuel self w = Ok (r, w') ->
  exists it', store w' !! self = Some it' /\ _fileRoot it' = r.
Proof.
  destruct fuel as [|fuel]; [discriminate|]. simpl. intros H.
  apply bind_Ok in H as (it & w1 & Hg & H).
  apply get_item_Ok in Hg as [Hit ->].
  apply bind_Ok in H as ([] & w2 & Hc & H).
  apply bind_Ok in H as (it2 & w3 & Hg & H).
  apply get_item_Ok in Hg as [Hit2 ->].
  injection H as <- <-. eauto.
Qed.

(** X7: once [fileRoot] has found a file for an item, the answer is kept
    in the item: every later access returns the same file in one step and
    leaves the world as it is. *)
Theorem fileRoot_is_cached (fuel n : nat) (self : loc) (w w' : World)
    (f : FileRef) :
  MxItem.fileRoot fuel self w = Ok (Some f, w') ->
  MxItem.fileRoot (S n) self w' = Ok (Some f, w').
Proof.
  intros H. apply fileRoot_result in H as (it' & Hit' & Hfr).
  simpl. rewrite (bind_run _ _ _ _ _ (get_item_run _ _ _ Hit')).
  rewrite Hfr. rewrite (bind_run _ _ w' tt w') by reflexivity.
  rewrite (bind_run _ _ _ _ _ (get_item_run _ _ _ Hit')).
  by rewrite Hfr.
Qed.

Lemma fileRoot_is_cached_witness :
  MxItem.fileRoot 2 4%nat sample_indexed = Ok (Some ThisFile, sample_indexed_d)
  /\ MxItem.fileRoot 1 4%nat sample_indexed_d
     = Ok (Some ThisFile, sample_indexed_d).
Proof.
  assert (H : MxItem.fileRoot 2 4%nat sample_indexed
              = Ok (Some ThisFile, sample_indexed_d))
    by (vm_compute; reflexivity).
  exact (conj H (fileRoot_is_cached 2 0 4%nat sample_indexed sample_indexed_d
                   ThisFile H)).
Defined.

(** X8: an item that has a [parent] attribute but neither a file root of
    its own nor a physical parent to ask cannot look its parent up:
    [fileRoot] is [None] and the access to [parent] raises
    AttributeError. *)
Theorem parent_of_orphan_raises (fuel : nat) (w : World) (self : loc)
    (it : MxItem) (pid : string) :
  store w !! self = Some it ->
  _parent it = None ->
  attrib (_xmlTag it) !! "parent" = Some pid ->
  _fileRoot it = None ->
  fileParent it = None ->
  MxItem.fileRoot (S fuel) self w = Ok (None, w)
  /\ MxItem.parent (S fuel) self w = Raise AttributeError.
Proof.
  intros Hit Hp Hattr Hfr Hfp.
  assert (H : MxItem.fileRoot (S fuel) self w = Ok (None, w)).
  { simpl. rewrite (bind_run _ _ _ _ _ (get_item_run _ _ _ Hit)).
    rewrite Hfr, Hfp. rewrite (bind_run _ _ w tt w) by reflexivity.
    rewrite (bind_run _ _ _ _ _ (get_item_run _ _ _ Hit)).
    by rewrite Hfr. }
  split; [exact H|].
  unfold MxItem.parent.
  rewrite (bind_run _ _ _ _ _ (get_item_run _ _ _ Hit)).
  rewrite Hp, Hattr. rewrite (bind_run _ _ w true w) by reflexivity.
  unfold mbind at 1, M_bind at 1.
  rewrite (bind_run _ _ _ _ _ H). reflexivity.
Qed.

Lemma parent_of_orphan_raises_witness :
  (store orphan_world !! 0%nat = Some (fresh_item 0 None (cell "x" (Some "y")))
   /\ _parent (fresh_item 0 None (cell "x" (Some "y"))) = None
   /\ attrib (_xmlTag (fresh_item 0 None (cell "x" (Some "y")))) !! "parent"
      = Some "y"
   /\ _fileRoot (fresh_item 0 None (cell "x" (Some "y"))) = None
   /\ fileParent (fresh_item 0 None (cell "x" (Some "y"))) = None)
  /\ MxItem.fileRoot 1 0%nat orphan_world = Ok (None, orphan_world)
  /\ MxItem.parent 1 0%nat orphan_world = Raise AttributeError.
Proof.
  assert (H1 : store orphan_world !! 0%nat
               = Some (fresh_item 0 None (cell "x" (Some "y"))))
    by (vm_compute; reflexivity).
  assert (H3 : attrib (_xmlTag (fresh_item 0 None (cell "x" (Some "y"))))
                 !! "parent" = Some "y") by (vm_compute; reflexivity).
  exact (conj (conj H1 (conj eq_refl (conj H3 (conj eq_refl eq_refl))))
           (parent_of_orphan_raises 0 orphan_world 0%nat _ "y"
              H1 eq_refl H3 eq_refl eq_refl)).
Defined.

(** ** The file root along the physical parents *)

Lemma cached_only_refl f l : Forall2 (cached_only f) l l.
Proof.
  apply Forall2_same_length_lookup_2; [reflexivity|].
  intros i x y Hx Hy. rewrite Hx in Hy. injection Hy as <-.
  exists (_fileRoot x). split; [by destruct x | by left].
Qed.

Lemma resolves_mono f S S' n l :
  resolves S f n l ->
  (forall q it, S !! q = Some it ->
     exists it', S' !! q = Some it'
       /\ fileParent it' = fileParent it
       /\ (_fileRoot it' = _fileRoot it \/ _fileRoot it' = Some f)) ->
  resolves S' f n l.
Proof.
  intros H Hst. induction H as [n l it Hit Hfr | n l it p Hit Hfr Hp H IH].
  - destruct (Hst _ _ Hit) as (it' & Hit' & _ & Hc).
    apply (resolves_here _ _ _ _ _ Hit'). destruct Hc; congruence.
  - destruct (Hst _ _ Hit) as (it' & Hit' & Hfp & [Hc|Hc]).
    + apply (resolves_up _ _ _ _ _ p Hit'); congruence.
    + by apply (resolves_here _ _ _ _ _ Hit').
Qed.

(** [fileRoot] climbs to the first item that knows its file, returns the
    file and writes it in the items on the way, and in nothing else. *)
Lemma fileRoot_resolves f fuel l w :
  resolves (store w) f fuel l ->
  exists S',
    MxItem.fileRoot fuel l w = Ok (Some f, set_store S' w)
    /\ Forall2 (cached_only f) (store w) S'.
Proof.
  intros H. remember (store w) as S0 eqn:HS. revert w HS.
  induction H as [n l it Hit Hfr | n l it p Hit Hfr Hp H IH]; intros w ->.
  - exists (store w). split; [|apply cached_only_refl].
    simpl. rewrite (bind_run _ _ _ _ _ (get_item_run _ _ _ Hit)).
    rewrite Hfr. rewrite (bind_run _ _ w tt w) by reflexivity.
    rewrite (bind_run _ _ _ _ _ (get_item_run _ _ _ Hit)).
    rewrite Hfr. by destruct w.
  - destruct (IH w eq_refl) as (S1 & Hrun & Hst).
    destruct (Forall2_lookup_l _ _ _ _ _ Hst Hit) as (it1 & Hit1 & fr & -> & Hc).
    exists (alter (set_fileRoot (Some f)) l S1). split.
    + simpl. rewrite (bind_run _ _ _ _ _ (get_item_run _ _ _ Hit)).
      rewrite Hfr, Hp.
      rewrite (bind_run _ _ w tt
                 (set_store (alter (set_fileRoot (Some f)) l S1) w)).
      2:{ rewrite (bind_run _ _ _ _ _ Hrun). by destruct w. }
      set (w2 := set_store (alter (set_fileRoot (Some f)) l S1) w).
      rewrite (bind_run _ _ w2 (set_fileRoot (Some f) (set_fileRoot fr it)) w2).
      2:{ apply get_item_run. simpl. by rewrite list_lookup_alter_eq, Hit1. }
      reflexivity.
    + apply Forall2_alter_r; [exact Hst|].
      intros x y Hx Hy (fr' & -> & Hc'). exists (Some f).
      split; [by destruct x | by right].
Qed.

(** ** One item of the link pass *)

(** The first access to [parent] of an item that is not linked yet: the
    table is asked for the item's [parent] attribute, if it has one, and
    the answer is kept in [_parent]. *)
Lemma parent_unlinked fuel w l it :
  store w !! l = Some it ->
  _parent it = None ->
  (parentId_at w l = None \/ resolves (store w) ThisFile fuel l) ->
  exists S' lg,
    MxItem.parent fuel l w
    = Ok (logical_parent w l,
          mkWorld (alter (set_parent (logical_parent w l)) l S')
                  (_itemTree w) (_itemLookup w) (_etree w) lg)
    /\ Forall2 (cached_only ThisFile) (store w) S'.
Proof.
  intros Hit Hp Hres. unfold MxItem.parent.
  rewrite (bind_run _ _ _ _ _ (get_item_run _ _ _ Hit)).
  rewrite Hp. rewrite (bind_run _ _ w true w) by reflexivity.
  assert (Hpid : parentId_at w l = attrib (_xmlTag it) !! "parent")
    by (unfold parentId_at; by rewrite Hit).
  unfold logical_parent. rewrite Hpid.
  destruct (attrib (_xmlTag it) !! "parent") as [pid|] eqn:Hattr.
  - destruct Hres as [Hres|Hres]; [congruence|].
    destruct (fileRoot_resolves _ _ _ _ Hres) as (S' & Hrun & Hst).
    destruct (Forall2_lookup_l _ _ _ _ _ Hst Hit) as (it' & Hit' & _).
    exists S', (Some pid :: lookups w). split; [|exact Hst].
    cbn [mbind option_bind].
    set (r := dict_get (Some pid) (_itemLookup w)).
    set (w2 := mkWorld (alter (set_parent r) l S') (_itemTree w)
                 (_itemLookup w) (_etree w) (Some pid :: lookups w)).
    rewrite (bind_run _ _ w tt w2).
    2:{ rewrite (bind_run _ _ _ _ _ Hrun). cbv beta iota.
        unfold MxItem.lookupId at 1.
        rewrite (bind_run _ _ (set_store S' w) r
                   (log_lookup (Some pid) (set_store S' w)))
          by reflexivity.
        reflexivity. }
    rewrite (bind_run _ _ w2 (set_parent r it') w2).
    2:{ apply get_item_run. simpl. by rewrite list_lookup_alter_eq, Hit'. }
    reflexivity.
  - exists (store w), (lookups w). split; [|apply cached_only_refl].
    cbn [mbind option_bind].
    set (w2 := mkWorld (alter (set_parent None) l (store w)) (_itemTree w)
                 (_itemLookup w) (_etree w) (lookups w)).
    rewrite (bind_run _ _ w tt w2) by reflexivity.
    rewrite (bind_run _ _ w2 (set_parent None it) w2).
    2:{ apply get_item_run. simpl. by rewrite list_lookup_alter_eq, Hit. }
    reflexivity.
Qed.

(** An access to [parent] of an item whose cached parent still bears the
    id the attribute names. *)
Lemma parent_cached fuel w l it p pit :
  store w !! l = Some it ->
  _parent it = Some p ->
  store w !! p = Some pit ->
  MxItem.id pit = attrib (_xmlTag it) !! "parent" ->
  MxItem.parent fuel l w = Ok (Some p, w).
Proof.
  intros Hit Hp Hpit Hid. unfold MxItem.parent.
  rewrite (bind_run _ _ _ _ _ (get_item_run _ _ _ Hit)).
  rewrite Hp.
  rewrite (bind_run _ _ w false w).
  2:{ rewrite (bind_run _ _ _ _ _ (get_item_run _ _ _ Hpit)).
      rewrite bool_decide_eq_false_2; [reflexivity|]. intros H; by apply H. }
  rewrite (bind_run _ _ w tt w) by reflexivity.
  rewrite (bind_run _ _ _ _ _ (get_item_run _ _ _ Hit)).
  by rewrite Hp.
Qed.

(** What the link pass does for one item that is not linked yet. *)
Lemma link_item_effect fuel w l it :
  store w !! l = Some it ->
  _parent it = None ->
  (parentId_at w l = None \/ resolves (store w) ThisFile fuel l) ->
  (forall p, logical_parent w l = Some p ->
     exists pit, store w !! p = Some pit
                 /\ Some (MxItem.id pit) = Some <$> parentId_at w l) ->
  exists w',
    DrawIoFile.link_item fuel l w = Ok (tt, w')
    /\ _itemTree w' = _itemTree w
    /\ _itemLookup w' = _itemLookup w
    /\ _etree w' = _etree w
    /\ length (store w') = length (store w)
    /\ forall q itq, store w !! q = Some itq ->
         exists itq', store w' !! q = Some itq'
                      /\ linked_item l (logical_parent w l) q itq itq'.
Proof.
  intros Hit Hp Hres Hsound.
  destruct (parent_unlinked fuel w l it Hit Hp Hres) as (S' & lg & Hpar & Hst).
  set (r := logical_parent w l) in *.
  set (w2 := mkWorld (alter (set_parent r) l S') (_itemTree w)
               (_itemLookup w) (_etree w) lg) in *.
  assert (Hlen : length S' = length (store w))
    by (symmetry; by eapply Forall2_length).
  assert (Hw2 : forall q itq, store w !! q = Some itq ->
            exists fr, store w2 !! q
                       = Some (if decide (q = l)
                               then set_parent r (set_fileRoot fr itq)
                               else set_fileRoot fr itq)
                       /\ (fr = _fileRoot itq \/ fr = Some ThisFile)).
  { intros q itq Hq.
    destruct (Forall2_lookup_l _ _ _ _ _ Hst Hq) as (y & Hy & fr & -> & Hc).
    exists fr. split; [|exact Hc]. simpl.
    destruct (decide (q = l)) as [->|Hne].
    - by rewrite list_lookup_alter_eq, Hy.
    - by rewrite list_lookup_alter_ne. }
  unfold DrawIoFile.link_item. rewrite (bind_run _ _ _ _ _ Hpar).
  destruct r as [p|] eqn:Hr; cbv beta iota.
  - destruct (Hsound p eq_refl) as (pit & Hpit & Hid).
    destruct (Hw2 l it Hit) as (frl & Hl2 & _).
    rewrite decide_True in Hl2 by done.
    destruct (Hw2 p pit Hpit) as (frp & Hp2 & Hcp).
    assert (Hpid : parentId_at w l = attrib (_xmlTag it) !! "parent")
      by (unfold parentId_at; by rewrite Hit).
    assert (Hpc : MxItem.parent fuel l w2 = Ok (Some p, w2)).
    { apply (parent_cached fuel w2 l _ p _ Hl2 eq_refl Hp2).
      rewrite Hpid in Hid.
      destruct (attrib (_xmlTag it) !! "parent") as [pid|] eqn:Hattr;
        [|discriminate Hid].
      simpl in Hid. injection Hid as Hid.
      destruct (decide (p = l)); simpl; rewrite ?Hattr; exact Hid. }
    rewrite (bind_run _ _ _ _ _ Hpc). cbv beta iota.
    rewrite (bind_run _ _ _ _ _ (get_item_run _ _ _ Hp2)).
    eexists. split; [reflexivity|]. simpl.
    split; [done|]. split; [done|]. split; [done|].
    split; [by rewrite !length_alter|].
    intros q itq Hq. destruct (Hw2 q itq Hq) as (fr & Hq2 & Hc).
    simpl in Hq2, Hp2.
    destruct (decide (p = q)) as [->|Hne].
    + rewrite list_lookup_alter_eq, Hp2. simpl. eexists. split; [reflexivity|].
      rewrite Hq in Hpit. injection Hpit as <-.
      unfold linked_item. rewrite (decide_True (P := Some q = Some q)) by done.
      destruct (decide (q = l)); simpl; repeat split; try done;
        destruct Hcp as [->| ->]; auto.
    + rewrite list_lookup_alter_ne by done. rewrite Hq2.
      eexists. split; [reflexivity|].
      unfold linked_item. rewrite (decide_False (P := Some p = Some q))
        by congruence.
      destruct (decide (q = l)); simpl; repeat split; try done;
        destruct Hc as [->| ->]; auto.
  - eexists. split; [reflexivity|]. simpl.
    split; [done|]. split; [done|]. split; [done|].
    split; [by rewrite length_alter|].
    intros q itq Hq. destruct (Hw2 q itq Hq) as (fr & Hq2 & Hc).
    simpl in Hq2. rewrite Hq2. eexists. split; [reflexivity|].
    unfold linked_item. rewrite (decide_False (P := None = Some q)) by done.
    destruct (decide (q = l)); simpl; repeat split; try done;
      destruct Hc as [->| ->]; auto.
Qed.

(** ** The link pass as a whole *)

Lemma linked_after_nil w q it : linked_after w [] q it it.
Proof.
  unfold linked_after. rewrite decide_False by apply not_elem_of_nil.
  simpl. rewrite app_nil_r. repeat split; auto.
Qed.

Lemma linked_after_snoc w done l q it it' it'' :
  linked_after w done q it it' ->
  l ∉ done ->
  linked_item l (logical_parent w l) q it' it'' ->
  linked_after w (done ++ [l]) q it it''.
Proof.
  intros (H1 & H2 & H3 & H4 & H5 & H6 & H7) Hl
         (K1 & K2 & K3 & K4 & K5 & K6 & K7).
  unfold linked_after.
  split; [congruence|]. split; [congruence|]. split; [congruence|].
  split; [congruence|].
  split; [destruct H5 as [H5|H5], K5 as [K5|K5]; rewrite ?K5, ?H5; auto|].
  split.
  - rewrite K6. destruct (decide (q = l)) as [->|Hne].
    + rewrite decide_True; [done|]. apply elem_of_app. right. by left.
    + rewrite H6. destruct (decide (q ∈ done)) as [Hin|Hnin].
      * rewrite decide_True; [done|]. apply elem_of_app. by left.
      * rewrite decide_False; [done|].
        intros [?|?%list_elem_of_singleton]%elem_of_app; done.
  - rewrite K7, H7, filter_app, filter_cons, filter_nil.
    destruct (decide (logical_parent w l = Some q)) as [E|E].
    + by rewrite app_assoc.
    + by rewrite app_nil_r.
Qed.

Lemma link_items_run fuel w todo : forall done wk,
  _itemTree wk = _itemTree w ->
  _itemLookup wk = _itemLookup w ->
  _etree wk = _etree w ->
  length (store wk) = length (store w) ->
  (forall q itq, store w !! q = Some itq ->
     exists itq', store wk !! q = Some itq' /\ linked_after w done q itq itq') ->
  NoDup (done ++ todo) ->
  (forall l, l ∈ todo ->
     exists it, store w !! l = Some it /\ _parent it = None
       /\ (parentId_at w l = None \/ resolves (store w) ThisFile fuel l)) ->
  (forall l p, logical_parent w l = Some p ->
     exists pit, store w !! p = Some pit
                 /\ Some (MxItem.id pit) = Some <$> parentId_at w l) ->
  exists w',
    forM_ todo (DrawIoFile.link_item fuel) wk = Ok (tt, w')
    /\ _itemTree w' = _itemTree w
    /\ _itemLookup w' = _itemLookup w
    /\ _etree w' = _etree w
    /\ length (store w') = length (store w)
    /\ forall q itq, store w !! q = Some itq ->
         exists itq', store w' !! q = Some itq'
                      /\ linked_after w (done ++ todo) q itq itq'.
Proof.
  induction todo as [|l todo IH]; intros done wk Ht HT He Hlen Hst Hnd Htodo Hsound.
  - exists wk. rewrite app_nil_r. simpl. by destruct wk.
  - destruct (Htodo l) as (it & Hit & Hp & Hres); [by left|].
    destruct (Hst l it Hit) as (it' & Hit' & Hla).
    assert (Hl : l ∉ done).
    { apply NoDup_app in Hnd as (_ & Hd & _). intros Hin.
      apply (Hd l Hin). by left. }
    assert (Hpid : forall q, parentId_at wk q = parentId_at w q).
    { intros q. unfold parentId_at.
      destruct (store w !! q) as [itq|] eqn:Hq.
      - destruct (Hst q itq Hq) as (itq' & Hq' & (Hx & _)).
        rewrite Hq'. simpl. by rewrite Hx.
      - destruct (store wk !! q) as [itq'|] eqn:Hq'; [|done].
        apply lookup_lt_Some in Hq'. apply lookup_ge_None in Hq. lia. }
    assert (Hlp : forall q, logical_parent wk q = logical_parent w q).
    { intros q. unfold logical_parent. by rewrite Hpid, HT. }
    destruct (link_item_effect fuel wk l it' Hit') as (w2 & Hrun & Ht2 & HT2 & He2 & Hlen2 & Hst2).
    + destruct Hla as (_ & _ & _ & _ & _ & -> & _).
      by rewrite decide_False.
    + rewrite Hpid. destruct Hres as [Hres|Hres]; [by left|right].
      apply (resolves_mono _ _ _ _ _ Hres).
      intros q itq Hq. destruct (Hst q itq Hq) as (itq' & Hq' & (_ & ? & _ & _ & ? & _)).
      eauto.
    + intros p Hlp'. rewrite Hlp in Hlp'.
      destruct (Hsound l p Hlp') as (pit & Hpit & Hid).
      destruct (Hst p pit Hpit) as (pit' & Hpit' & (Hx & _)).
      exists pit'. split; [done|]. rewrite Hpid.
      unfold MxItem.id, MxItem.mxId in *. rewrite Hx. exact Hid.
    + destruct (IH (done ++ [l]) w2) as (w' & Hrun' & Ht' & HT' & He' & Hlen' & Hst').
      * congruence.
      * congruence.
      * congruence.
      * congruence.
      * intros q itq Hq. destruct (Hst q itq Hq) as (itq' & Hq' & Hla').
        destruct (Hst2 q itq' Hq') as (itq'' & Hq'' & Hli).
        exists itq''. split; [done|].
        rewrite Hlp in Hli.
        exact (linked_after_snoc w done l q itq itq' itq'' Hla' Hl Hli).
      * by rewrite <- app_assoc.
      * intros l' Hl'. apply Htodo. by right.
      * exact Hsound.
      * exists w'. simpl. rewrite (bind_run _ _ _ _ _ Hrun).
        rewrite <- app_assoc in Hst'. simpl in Hst'. auto 10.
Qed.

(** *** The table of the index pass *)

Lemma dict_set_elem {K V} `{EqDecision K} (k : K) (v : V) d kv :
  kv ∈ dict_set k v d -> kv = (k, v) \/ kv ∈ d.
Proof.
  induction d as [|[k1 v1] d IH]; simpl.
  - intros ?%list_elem_of_singleton. by left.
  - destruct (decide (k = k1)) as [->|Hne].
    + intros [->|?]%elem_of_cons; [by left|right; by right].
    + intros [->|H]%elem_of_cons; [right; by left|].
      destruct (IH H) as [?|?]; [by left|right; by right].
Qed.

Lemma dict_fold_elem {K} `{EqDecision K} (f : nat -> K) items :
  forall (d : list (K * nat)) kv,
    kv ∈ foldl (fun d l => dict_set (f l) l d) d items ->
    kv ∈ d \/ exists l, l ∈ items /\ kv = (f l, l).
Proof.
  induction items as [|x items IH]; intros d kv H; simpl in H; [by left|].
  destruct (IH _ _ H) as [H1|(l & Hl & ->)].
  - destruct (dict_set_elem _ _ _ _ H1) as [->|?]; [right|by left].
    exists x. split; [by left|done].
  - right. exists l. split; [by right|done].
Qed.

Lemma dict_set_fresh {K V} `{EqDecision K} (k : K) (v : V) d :
  k ∉ dict_keys d -> dict_set k v d = d ++ [(k, v)].
Proof.
  unfold dict_keys. induction d as [|[k1 v1] d IH]; simpl; [done|].
  intros [Hne Hk]%not_elem_of_cons.
  rewrite decide_False by done. by rewrite IH.
Qed.

Lemma dict_fold_fresh {K} `{EqDecision K} (f : nat -> K) items :
  forall d : list (K * nat),
    NoDup (dict_keys d ++ (f <$> items)) ->
    foldl (fun d l => dict_set (f l) l d) d items
    = d ++ ((fun l => (f l, l)) <$> items).
Proof.
  induction items as [|x items IH]; intros d Hnd; simpl.
  - by rewrite app_nil_r.
  - simpl in Hnd. rewrite dict_set_fresh.
    + rewrite IH.
      * by rewrite <- app_assoc.
      * unfold dict_keys in *. rewrite fmap_app. simpl.
        by rewrite <- app_assoc.
    + apply NoDup_app in Hnd as (_ & Hd & _). intros Hin.
      apply (Hd _ Hin). by left.
Qed.

Lemma indexed_sound w items k l :
  (k, l) ∈ indexed w items -> l ∈ items /\ id_at w l = k.
Proof.
  intros H. apply dict_fold_elem in H as [H|(l' & Hl' & [= -> ->])].
  - by apply elem_of_nil in H.
  - done.
Qed.

Lemma indexed_keys w items : NoDup (dict_keys (indexed w items)).
Proof. apply dict_keys_fold. constructor. Qed.

Lemma indexed_values w items : NoDup (dict_values (indexed w items)).
Proof.
  pose proof (indexed_keys w items) as Hk.
  assert (E : dict_keys (indexed w items)
              = id_at w <$> dict_values (indexed w items)).
  { unfold dict_keys, dict_values. rewrite <- list_fmap_compose.
    apply list_fmap_ext. intros i [k l] Hkl. simpl.
    apply list_elem_of_lookup_2, indexed_sound in Hkl as [_ ->]. done. }
  rewrite E in Hk. by apply NoDup_fmap_1 in Hk.
Qed.

Lemma indexed_get w items k l :
  dict_get k (indexed w items) = Some l -> l ∈ items /\ id_at w l = k.
Proof.
  unfold indexed. rewrite dict_get_fold.
  destruct (last _) as [l'|] eqn:E; [|discriminate].
  intros [= ->]. by apply last_filter_Some in E.
Qed.

Lemma relinkAll_run fuel w t items :
  _itemTree w = Some t ->
  MxItem.walkFileTree fuel w t = Ok items ->
  (forall l it, l ∈ items -> store w !! l = Some it -> _parent it = None) ->
  (forall l, l ∈ items ->
     parentId_at w l = None \/ resolves (store w) ThisFile fuel l) ->
  exists w',
    DrawIoFile._relinkAll fuel w = Ok (tt, w')
    /\ _itemTree w' = Some t
    /\ _itemLookup w' = indexed w items
    /\ _etree w' = _etree w
    /\ length (store w') = length (store w)
    /\ forall q itq, store w !! q = Some itq ->
         exists itq', store w' !! q = Some itq'
           /\ linked_after (set_itemLookup (indexed w items) w)
                (dict_values (indexed w items)) q itq itq'.
Proof.
  intros Ht Hwalk Hun Hres.
  pose proof (walkFileTree_valid _ _ _ _ Hwalk) as Hvalid.
  set (w1 := set_itemLookup (indexed w items) w).
  destruct (link_items_run fuel w1 (dict_values (indexed w items)) [] w1)
    as (w' & Hrun & Ht' & HT' & He' & Hlen' & Hst'); try reflexivity.
  - intros q itq Hq. exists itq. split; [done|apply linked_after_nil].
  - simpl. apply indexed_values.
  - intros l Hl. unfold dict_values in Hl.
    apply list_elem_of_fmap in Hl as ([k l'] & -> & Hkl). simpl.
    apply indexed_sound in Hkl as [Hin _].
    destruct (Hvalid l' Hin) as [it Hit].
    exists it. split; [done|]. split; [by eapply Hun|]. by apply Hres.
  - intros l p Hlp. unfold logical_parent in Hlp.
    change (parentId_at w1 l) with (parentId_at w l) in *.
    destruct (parentId_at w l) as [pid|]; [|discriminate].
    simpl in Hlp. apply indexed_get in Hlp as [Hin Hid].
    unfold id_at in Hid.
    destruct (store w !! p) as [pit|] eqn:Hpit; [|discriminate].
    exists pit. split; [done|]. simpl in *. by rewrite Hid.
  - exists w'. split.
    + unfold DrawIoFile._relinkAll.
      rewrite (bind_run _ _ _ _ _ (index_pass_run fuel w t items Ht Hwalk)).
      unfold DrawIoFile.link_pass.
      rewrite (bind_run _ _ w1 w1 w1) by reflexivity. exact Hrun.
    + simpl in Ht', HT', He', Hlen', Hst'. rewrite Ht in Ht'.
      repeat (split; [assumption|]). exact Hst'.
Qed.

Lemma dict_get_elem {K V} `{EqDecision K} (k : K) (v : V) d :
  NoDup (dict_keys d) -> (k, v) ∈ d -> dict_get k d = Some v.
Proof.
  unfold dict_keys. induction d as [|[k1 v1] d IH]; simpl; intros Hnd Hin.
  - by apply elem_of_nil in Hin.
  - apply NoDup_cons in Hnd as [Hk1 Hnd].
    apply elem_of_cons in Hin as [[= -> ->]|Hin].
    + by rewrite decide_True.
    + rewrite decide_False; [by apply IH|].
      intros ->. apply Hk1. apply list_elem_of_fmap. by exists (k1, v).
Qed.

Lemma indexed_distinct w items :
  NoDup (id_at w <$> items) ->
  indexed w items = (fun l => (id_at w l, l)) <$> items.
Proof.
  intros Hnd. unfold indexed. by rewrite dict_fold_fresh.
Qed.

Lemma logical_parent_ext w w' :
  _itemLookup w' = _itemLookup w ->
  length (store w') = length (store w) ->
  (forall q itq, store w !! q = Some itq ->
     exists itq', store w' !! q = Some itq' /\ _xmlTag itq' = _xmlTag itq) ->
  forall l, logical_parent w' l = logical_parent w l.
Proof.
  intros HT Hlen Hst l. unfold logical_parent, parentId_at. rewrite HT.
  destruct (store w !! l) as [it|] eqn:Hl.
  - destruct (Hst l it Hl) as (it' & -> & Hx). simpl. by rewrite Hx.
  - destruct (store w' !! l) as [it'|] eqn:Hl'; [|done].
    apply lookup_lt_Some in Hl'. apply lookup_ge_None in Hl. lia.
Qed.

(** X9: on a tree of items that are not linked yet, whose ids are
    pairwise distinct and each of which reaches the file through its
    physical parents, [_relinkAll] returns; the table lists the items
    under their ids in the order of the walk; every walked item keeps its
    element, has as [_parent] the item the table holds for its [parent]
    attribute, and has as [_children] exactly the walked items whose
    [parent] attribute resolves to it, in the order of the walk. *)
Theorem relinkAll_links_in_walk_order (fuel : nat) (w : World) (t : loc)
    (items : list loc) :
  _itemTree w = Some t ->
  MxItem.walkFileTree fuel w t = Ok items ->
  NoDup (id_at w <$> items) ->
  (forall l it, l ∈ items -> store w !! l = Some it -> unlinked it) ->
  (forall l, l ∈ items ->
     parentId_at w l = None \/ resolves (store w) ThisFile fuel l) ->
  exists w',
    DrawIoFile._relinkAll fuel w = Ok (tt, w')
    /\ _itemLookup w' = (fun l => (id_at w l, l)) <$> items
    /\ forall q itq, q ∈ items -> store w !! q = Some itq ->
         exists itq', store w' !! q = Some itq'
           /\ _xmlTag itq' = _xmlTag itq
           /\ _parent itq' = logical_parent w' q
           /\ _children itq'
              = filter (fun l => logical_parent w' l = Some q) items.
Proof.
  intros Ht Hwalk Hnd Hun Hres.
  destruct (relinkAll_run fuel w t items Ht Hwalk) as
    (w' & Hrun & _ & HT & _ & Hlen & Hst); [|done|].
  { intros l it Hl Hit. by destruct (Hun l it Hl Hit). }
  pose proof (indexed_distinct w items Hnd) as Hidx.
  assert (Hvals : dict_values (indexed w items) = items).
  { rewrite Hidx. unfold dict_values. rewrite <- list_fmap_compose.
    rewrite <- (list_fmap_id items) at 2. by apply list_fmap_ext. }
  rewrite Hvals in Hst.
  assert (Hlp : forall l, logical_parent w' l
                = logical_parent (set_itemLookup (indexed w items) w) l).
  { apply logical_parent_ext; [done|done|].
    intros q itq Hq. destruct (Hst q itq Hq) as (itq' & Hq' & (Hx & _)).
    eauto. }
  exists w'. split; [done|]. split; [by rewrite HT|].
  intros q itq Hq Hitq.
  destruct (Hst q itq Hitq) as (itq' & Hq' & (Hx & _ & _ & _ & _ & Hp & Hc)).
  exists itq'. split; [done|]. split; [done|].
  rewrite decide_True in Hp by done.
  destruct (Hun q itq Hq Hitq) as [_ Hch]. rewrite Hch in Hc. simpl in Hc.
  split; [by rewrite Hlp|]. rewrite Hc.
  apply list_filter_iff. intros l. by rewrite Hlp.
Qed.

Ltac walk_cases H :=
  repeat (apply elem_of_cons in H as [->|H]); [..|by apply elem_of_nil in H].

Lemma relinkAll_links_in_walk_order_witness :
  (_itemTree sample_unlinked = Some 0%nat
   /\ MxItem.walkFileTree 2 sample_unlinked 0%nat = Ok [0; 1; 2; 3; 4; 5]%nat
   /\ NoDup (id_at sample_unlinked <$> [0; 1; 2; 3; 4; 5]%nat)
   /\ (forall l it, l ∈ [0; 1; 2; 3; 4; 5]%nat ->
         store sample_unlinked !! l = Some it -> unlinked it)
   /\ (forall l, l ∈ [0; 1; 2; 3; 4; 5]%nat ->
         parentId_at sample_unlinked l = None
         \/ resolves (store sample_unlinked) ThisFile 2 l))
  /\ exists w',
       DrawIoFile._relinkAll 2 sample_unlinked = Ok (tt, w')
       /\ _itemLookup w'
          = (fun l => (id_at sample_unlinked l, l)) <$> [0; 1; 2; 3; 4; 5]%nat
       /\ forall q itq, q ∈ [0; 1; 2; 3; 4; 5]%nat ->
            store sample_unlinked !! q = Some itq ->
            exists itq', store w' !! q = Some itq'
              /\ _xmlTag itq' = _xmlTag itq
              /\ _parent itq' = logical_parent w' q
              /\ _children itq'
                 = filter (fun l => logical_parent w' l = Some q)
                          [0; 1; 2; 3; 4; 5]%nat.
Proof.
  assert (H1 : _itemTree sample_unlinked = Some 0%nat)
    by (vm_compute; reflexivity).
  assert (H2 : MxItem.walkFileTree 2 sample_unlinked 0%nat
               = Ok [0; 1; 2; 3; 4; 5]%nat) by (vm_compute; reflexivity).
  assert (H3 : NoDup (id_at sample_unlinked <$> [0; 1; 2; 3; 4; 5]%nat))
    by compute_done.
  assert (H4 : forall l it, l ∈ [0; 1; 2; 3; 4; 5]%nat ->
                 store sample_unlinked !! l = Some it -> unlinked it).
  { intros l it Hl Hit. walk_cases Hl;
      vm_compute in Hit; injection Hit as <-; split; reflexivity. }
  assert (H5 : forall l, l ∈ [0; 1; 2; 3; 4; 5]%nat ->
                 parentId_at sample_unlinked l = None
                 \/ resolves (store sample_unlinked) ThisFile 2 l).
  { intros l Hl. right. walk_cases Hl.
    - eapply resolves_here; vm_compute; reflexivity.
    - eapply resolves_up; [vm_compute; reflexivity..|].
      eapply resolves_here; vm_compute; reflexivity.
    - eapply resolves_up; [vm_compute; reflexivity..|].
      eapply resolves_here; vm_compute; reflexivity.
    - eapply resolves_up; [vm_compute; reflexivity..|].
      eapply resolves_here; vm_compute; reflexivity.
    - eapply resolves_up; [vm_compute; reflexivity..|].
      eapply resolves_here; vm_compute; reflexivity.
    - eapply resolves_up; [vm_compute; reflexivity..|].
      eapply resolves_here; vm_compute; reflexivity. }
  exact (conj (conj H1 (conj H2 (conj H3 (conj H4 H5))))
           (relinkAll_links_in_walk_order 2 sample_unlinked 0%nat _
              H1 H2 H3 H4 H5)).
Defined.

Lemma indexed_value_last w items q :
  q ∈ dict_values (indexed w items) ->
  last (filter (fun l => id_at w l = id_at w q) items) = Some q.
Proof.
  intros Hin. unfold dict_values in Hin.
  apply list_elem_of_fmap in Hin as ([k l] & -> & Hkl). simpl.
  pose proof (indexed_sound _ _ _ _ Hkl) as [_ Hid].
  pose proof (dict_get_elem _ _ _ (indexed_keys w items) Hkl) as Hget.
  unfold indexed in Hget. rewrite dict_get_fold in Hget. rewrite Hid.
  destruct (last _) as [l'|]; [done|discriminate].
Qed.

(** X10: when a later item of the walk bears the same id as the item
    [q], the table holds the later one, the second loop of [_relinkAll]
    never reaches [q], and [q] stays outside the logical tree: after the
    pass its [_parent] is still [None] and no walked item has it among
    its [_children], whatever its [parent] attribute says. *)
Theorem relinkAll_skips_shadowed_item (fuel : nat) (w : World) (t : loc)
    (items : list loc) (q : loc) :
  _itemTree w = Some t ->
  MxItem.walkFileTree fuel w t = Ok items ->
  (forall l it, l ∈ items -> store w !! l = Some it -> unlinked it) ->
  (forall l, l ∈ items ->
     parentId_at w l = None \/ resolves (store w) ThisFile fuel l) ->
  q ∈ items ->
  last (filter (fun l => id_at w l = id_at w q) items) <> Some q ->
  exists w',
    DrawIoFile._relinkAll fuel w = Ok (tt, w')
    /\ dict_get (id_at w q) (_itemLookup w') <> Some q
    /\ (exists itq', store w' !! q = Some itq' /\ _parent itq' = None)
    /\ forall p itp', p ∈ items -> store w' !! p = Some itp' ->
         q ∉ _children itp'.
Proof.
  intros Ht Hwalk Hun Hres Hq Hlast.
  pose proof (walkFileTree_valid _ _ _ _ Hwalk) as Hvalid.
  destruct (relinkAll_run fuel w t items Ht Hwalk) as
    (w' & Hrun & _ & HT & _ & Hlen & Hst); [|done|].
  { intros l it Hl Hit. by destruct (Hun l it Hl Hit). }
  assert (Hnv : q ∉ dict_values (indexed w items)).
  { intros Hin. by apply Hlast, indexed_value_last. }
  exists w'. split; [done|]. split; [|split].
  - rewrite HT. unfold indexed. rewrite dict_get_fold.
    destruct (last _) as [l'|]; [congruence|discriminate].
  - destruct (Hvalid q Hq) as [itq Hitq].
    destruct (Hst q itq Hitq) as (itq' & Hq' & (_ & _ & _ & _ & _ & Hp & _)).
    exists itq'. split; [done|].
    rewrite decide_False in Hp by done. rewrite Hp.
    by destruct (Hun q itq Hq Hitq).
  - intros p itp' Hp Hitp'.
    destruct (Hvalid p Hp) as [itp Hitp].
    destruct (Hst p itp Hitp) as (itp2 & Hp2 & (_ & _ & _ & _ & _ & _ & Hc)).
    rewrite Hitp' in Hp2. injection Hp2 as <-.
    destruct (Hun p itp Hp Hitp) as [_ Hch]. rewrite Hc, Hch. simpl.
    intros Hin%list_elem_of_filter. by destruct Hin.
Qed.

Lemma relinkAll_skips_shadowed_item_witness :
  (_itemTree shadow_unlinked = Some 0%nat
   /\ MxItem.walkFileTree 2 shadow_unlinked 0%nat = Ok [0; 1; 2; 3]%nat
   /\ (forall l it, l ∈ [0; 1; 2; 3]%nat ->
         store shadow_unlinked !! l = Some it -> unlinked it)
   /\ (forall l, l ∈ [0; 1; 2; 3]%nat ->
         parentId_at shadow_unlinked l = None
         \/ resolves (store shadow_unlinked) ThisFile 2 l)
   /\ 2%nat ∈ [0; 1; 2; 3]%nat
   /\ last (filter (fun l => id_at shadow_unlinked l
                             = id_at shadow_unlinked 2%nat)
                   [0; 1; 2; 3]%nat) <> Some 2%nat)
  /\ exists w',
       DrawIoFile._relinkAll 2 shadow_unlinked = Ok (tt, w')
       /\ dict_get (id_at shadow_unlinked 2%nat) (_itemLookup w') <> Some 2%nat
       /\ (exists itq', store w' !! 2%nat = Some itq' /\ _parent itq' = None)
       /\ forall p itp', p ∈ [0; 1; 2; 3]%nat -> store w' !! p = Some itp' ->
            2%nat ∉ _children itp'.
Proof.
  assert (H1 : _itemTree shadow_unlinked = Some 0%nat)
    by (vm_compute; reflexivity).
  assert (H2 : MxItem.walkFileTree 2 shadow_unlinked 0%nat
               = Ok [0; 1; 2; 3]%nat) by (vm_compute; reflexivity).
  assert (H3 : forall l it, l ∈ [0; 1; 2; 3]%nat ->
                 store shadow_unlinked !! l = Some it -> unlinked it).
  { intros l it Hl Hit. walk_cases Hl;
      vm_compute in Hit; injection Hit as <-; split; reflexivity. }
  assert (H4 : forall l, l ∈ [0; 1; 2; 3]%nat ->
                 parentId_at shadow_unlinked l = None
                 \/ resolves (store shadow_unlinked) ThisFile 2 l).
  { intros l Hl. right. walk_cases Hl.
    - eapply resolves_here; vm_compute; reflexivity.
    - eapply resolves_up; [vm_compute; reflexivity..|].
      eapply resolves_here; vm_compute; reflexivity.
    - eapply resolves_up; [vm_compute; reflexivity..|].
      eapply resolves_here; vm_compute; reflexivity.
    - eapply resolves_up; [vm_compute; reflexivity..|].
      eapply resolves_here; vm_compute; reflexivity. }
  assert (H5 : 2%nat ∈ [0; 1; 2; 3]%nat) by compute_done.
  assert (H6 : last (filter (fun l => id_at shadow_unlinked l
                                      = id_at shadow_unlinked 2%nat)
                            [0; 1; 2; 3]%nat) <> Some 2%nat)
    by (vm_compute; discriminate).
  exact (conj (conj H1 (conj H2 (conj H3 (conj H4 (conj H5 H6)))))
           (relinkAll_skips_shadowed_item 2 shadow_unlinked 0%nat _ 2%nat
              H1 H2 H3 H4 H5 H6)).
Defined.

(** The sample with two cells of id [b]: the first of them is left out;
    [a] has the second as its only child. *)
Example shadow_relinked :
  exists w', DrawIoFile._relinkAll 2 shadow_unlinked = Ok (tt, w')
    /\ _children <$> store w' = [[]; [3]; []; []]%nat
    /\ _parent <$> store w' = [None; None; None; Some 1%nat].
Proof. eexists. split; [vm_compute; reflexivity|]. split; reflexivity. Qed.

(** ** The setter of [xmlTag] *)

Lemma new_children_run self xs : forall w,
  MxItem.new_children self xs w
  = Ok (seq (length (store w)) (length xs),
        set_store (store w ++ new_items (length (store w)) self xs) w).
Proof.
  induction xs as [|x xs IH]; intros w; simpl.
  - unfold new_items. simpl. rewrite app_nil_r. by destruct w.
  - rewrite (bind_run _ _ _ _ _ eq_refl).
    rewrite (bind_run _ _ _ _ _ (IH _)). simpl.
    rewrite length_app. simpl. rewrite Nat.add_1_r.
    unfold set_store. simpl. rewrite <- app_assoc. simpl.
    unfold mret, M_ret. do 4 f_equal.
    unfold new_items, fresh_item. simpl. rewrite Nat.add_0_r. f_equal.
    apply imap_ext. intros i y _. simpl.
    by replace (S (length (store w) + i)) with (length (store w) + S i)%nat
      by lia.
Qed.

Lemma new_items_lookup n self xs i x :
  xs !! i = Some x ->
  new_items n self xs !! i = Some (fresh_item (n + i) (Some self) x).
Proof. intros H. unfold new_items. by rewrite list_lookup_imap, H. Qed.

Lemma walk_leaves fuel w cs :
  (forall c, c ∈ cs ->
     exists it, store w !! c = Some it /\ _fileChildren it = []) ->
  rmapM (MxItem.walkFileTree (S fuel) w) cs = Ok ((fun c => [c]) <$> cs).
Proof.
  induction cs as [|c cs IH]; intros Hall; [done|].
  cbn [rmapM fmap list_fmap]. destruct (Hall c) as (it & Hc & Hfc); [by left|].
  assert (Hw : MxItem.walkFileTree (S fuel) w c = Ok [c]).
  { simpl. unfold item_at. rewrite Hc. simpl.
    unfold MxItem.fileChildren. by rewrite Hfc. }
  rewrite Hw. cbn [mbind result_bind]. rewrite IH; [done|].
  intros c' Hc'. apply Hall. by right.
Qed.

Lemma concat_singletons {A} (l : list A) : concat ((fun c => [c]) <$> l) = l.
Proof. induction l as [|a l IH]; [done|]. simpl. by f_equal. Qed.

(** X11: the setter of [xmlTag] stores the element and makes one item
    per direct child element, by [MxItem.__init__], which does not go
    through the setter again: the new items have no file children, so
    the walk from the item yields it and its new children only, however
    deep the element is. *)
Theorem xmlTag_setter_one_level (self : loc) (xmlTag : Element) (w : World)
    (it : MxItem) :
  store w !! self = Some it ->
  exists w',
    MxItem.xmlTag_setter self xmlTag w = Ok (tt, w')
    /\ length (store w') = (length (store w) + length (elems xmlTag))%nat
    /\ (exists it', store w' !! self = Some it'
          /\ _xmlTag it' = xmlTag
          /\ _fileChildren it'
             = seq (length (store w)) (length (elems xmlTag)))
    /\ (forall i x, elems xmlTag !! i = Some x ->
          store w' !! (length (store w) + i)%nat
          = Some (fresh_item (length (store w) + i) (Some self) x))
    /\ forall fuel,
         MxItem.walkFileTree (S (S fuel)) w' self
         = Ok (self :: seq (length (store w)) (length (elems xmlTag))).
Proof.
  intros Hit. pose proof (lookup_lt_Some _ _ _ Hit) as Hlt.
  set (n := length (store w)) in *. set (k := length (elems xmlTag)).
  set (S1 := alter (set_xmlTag xmlTag) self (store w)).
  set (news := new_items n self (elems xmlTag)).
  set (w' := set_store (alter (set_fileChildren (seq n k)) self (S1 ++ news))
               (set_store (S1 ++ news) (set_store S1 w))).
  assert (Hn1 : length S1 = n) by (unfold S1; by rewrite length_alter).
  assert (Hrun : MxItem.xmlTag_setter self xmlTag w = Ok (tt, w')).
  { unfold MxItem.xmlTag_setter.
    rewrite (bind_run _ _ w tt (set_store S1 w)) by reflexivity.
    rewrite (bind_run _ _ _ _ _ (new_children_run self (elems xmlTag) _)).
    simpl. unfold upd_item, modify. simpl. by rewrite Hn1. }
  assert (Hself : store w' !! self
                  = Some (set_fileChildren (seq n k) (set_xmlTag xmlTag it))).
  { simpl. rewrite list_lookup_alter_eq, lookup_app_l by lia.
    unfold S1. by rewrite list_lookup_alter_eq, Hit. }
  assert (Hnew : forall i x, elems xmlTag !! i = Some x ->
            store w' !! (n + i)%nat = Some (fresh_item (n + i) (Some self) x)).
  { intros i x Hx. simpl. rewrite list_lookup_alter_ne by lia.
    rewrite lookup_app_r by lia.
    replace (n + i - length S1)%nat with i by lia.
    by apply new_items_lookup. }
  assert (Hlen : length (store w') = (n + k)%nat).
  { simpl. rewrite length_alter, length_app, Hn1. unfold news, new_items.
    by rewrite length_imap. }
  clearbody w'.
  exists w'. split; [exact Hrun|]. split; [|split; [|split; [exact Hnew|]]].
  - exact Hlen.
  - eexists. split; [exact Hself|]. done.
  - intros fuel.
    change (MxItem.walkFileTree (S (S fuel)) w' self)
      with (it ← item_at w' self;
            below ← rmapM (MxItem.walkFileTree (S fuel) w')
                      (MxItem.fileChildren it);
            Ok (self :: concat below)).
    assert (Hia : item_at w' self
                  = Ok (set_fileChildren (seq n k) (set_xmlTag xmlTag it)))
      by (unfold item_at; by rewrite Hself).
    rewrite Hia. cbn [mbind result_bind MxItem.fileChildren _fileChildren
                      set_fileChildren].
    rewrite walk_leaves.
    + cbn [mbind result_bind]. by rewrite concat_singletons.
    + intros c [Hc1 Hc2]%elem_of_seq.
      destruct (lookup_lt_is_Some_2 (elems xmlTag) (c - n)) as [x Hx];
        [unfold k in *; lia|].
      exists (fresh_item c (Some self) x). split; [|done].
      specialize (Hnew _ _ Hx).
      by replace (n + (c - n))%nat with c in Hnew by lia.
Qed.

Lemma xmlTag_setter_one_level_witness :
  store document_item !! 0%nat = Some (fresh_item 0 None (document sample_root))
  /\ exists w',
       MxItem.xmlTag_setter 0 (document sample_root) document_item
       = Ok (tt, w')
       /\ length (store w')
          = (length (store document_item)
             + length (elems (document sample_root)))%nat
       /\ (exists it', store w' !! 0%nat = Some it'
             /\ _xmlTag it' = document sample_root
             /\ _fileChildren it'
                = seq (length (store document_item))
                      (length (elems (document sample_root))))
       /\ (forall i x, elems (document sample_root) !! i = Some x ->
             store w' !! (length (store document_item) + i)%nat
             = Some (fresh_item (length (store document_item) + i)
                                (Some 0%nat) x))
       /\ forall fuel,
            MxItem.walkFileTree (S (S fuel)) w' 0%nat
            = Ok (0%nat :: seq (length (store document_item))
                               (length (elems (document sample_root)))).
Proof.
  assert (H : store document_item !! 0%nat
              = Some (fresh_item 0 None (document sample_root)))
    by (vm_compute; reflexivity).
  exact (conj H (xmlTag_setter_one_level 0 (document sample_root)
                   document_item _ H)).
Defined.

(** The whole sample document handed to the setter: of its eleven
    elements two become items. *)
Example document_walk :
  exists w',
    MxItem.xmlTag_setter 0 (document sample_root) document_item = Ok (tt, w')
    /\ MxItem.walkFileTree 9 w' 0%nat = Ok [0; 1]%nat.
Proof. eexists. split; vm_compute; reflexivity. Qed.

(** ** [assign] and the tree it leaves *)





(** Both cases occur: the sample's [<root>] has no [parent] attribute,
    and a [<root id=r parent=r>] becomes its own child. *)
Example treeStr_after_assign_cases :
  DrawIoFile.treeStr 5 sample_loaded "" None = Raise IndexError
  /\ exists w',
       DrawIoFile.assign parse_loop 2 "" false true empty_world = Ok (tt, w')
       /\ DrawIoFile.treeStr 5 w' "" None = Ok "root".
Proof.
  split; [vm_compute; reflexivity|].
  eexists. split; vm_compute; reflexivity.
Qed.

(** ** Loading and the command line *)

Lemma rev_app_rev (a b : string) :
  String.rev_app a b = String.rev a +:+ b.
Proof. unfold String.rev. apply rev_app_tail. Qed.

Lemma rev_String (c : ascii) (s : string) :
  String.rev (String c s) = String.rev s +:+ String c "".
Proof. unfold String.rev at 1. simpl. apply rev_app_rev. Qed.

Lemma rev_append (a b : string) :
  String.rev (a +:+ b) = String.rev b +:+ String.rev a.
Proof.
  induction a as [|c a IH]; simpl.
  - by rewrite app_nil_r_str.
  - by rewrite !rev_String, IH, app_assoc_str.
Qed.

Lemma rev_rev (s : string) : String.rev (String.rev s) = s.
Proof.
  induction s as [|c s IH]; [done|].
  by rewrite rev_String, rev_append, IH.
Qed.

Lemma char_in_rev c s : char_in c (String.rev s) = char_in c s.
Proof.
  induction s as [|d s IH]; [done|].
  rewrite rev_String, char_in_app, IH. simpl.
  rewrite orb_false_r. apply orb_comm.
Qed.

(** A text in which a character occurs ends with an occurrence of it
    followed by a text free of it. *)
Lemma last_occurrence c s :
  char_in c s = true ->
  exists p q, s = p +:+ String c q /\ char_in c q = false.
Proof.
  induction s as [|d s IH]; [discriminate|]. simpl. intros H.
  destruct (char_in c s) eqn:Hs.
  - destruct (IH eq_refl) as (p & q & -> & Hq). by exists (String d p), q.
  - rewrite orb_false_r in H. apply Ascii.eqb_eq in H as ->.
    by exists "", s.
Qed.

Lemma rsplit_last_absent s :
  char_in "." s = false ->
  (pieces ← str_rsplit s "." 1; py_index pieces (-1)) = Ok s.
Proof.
  intros H. unfold str_rsplit.
  change (PyStr.split_with (String.rev ".") (Some 1%nat) (String.rev s))
    with (PyStr.splitn (String.rev s) "." 1).
  rewrite splitn_absent; [|done|].
  - simpl. rewrite rev_rev. reflexivity.
  - apply char_in_occurs. by rewrite char_in_rev.
Qed.

Lemma rsplit_last_present p q :
  char_in "." q = false ->
  (pieces ← str_rsplit (p +:+ String "." q) "." 1; py_index pieces (-1))
  = Ok q.
Proof.
  intros H. unfold str_rsplit.
  change (PyStr.split_with (String.rev ".") (Some 1%nat) ?x)
    with (PyStr.splitn x "." 1).
  change (String "." q) with ("." +:+ q).
  rewrite rev_append, rev_append. change (String.rev ".") with ".".
  rewrite app_assoc_str.
  rewrite (splitn_first "." "" (String.rev q) (String.rev p)); [|done|].
  - simpl. rewrite !rev_rev. reflexivity.
  - apply char_in_occurs. by rewrite char_in_rev.
Qed.

(** The text after the last dot of a file name, or all of it, is
    [drawio] for the name [drawio] and the names ending in [.drawio]. *)
Lemma extension_drawio (filename : string) :
  exists ext,
    (pieces ← str_rsplit filename "." 1; py_index pieces (-1)) = Ok ext
    /\ (String.eqb ext "drawio" = true
        <-> filename = "drawio" \/ exists p, filename = p +:+ ".drawio").
Proof.
  destruct (char_in "." filename) eqn:Hc.
  - destruct (last_occurrence _ _ Hc) as (p & q & -> & Hq).
    exists q. split; [by apply rsplit_last_present|].
    rewrite String.eqb_eq. split.
    + intros ->. right. by exists p.
    + intros [E|[p' E]].
      * rewrite E in Hc. discriminate.
      * assert (Hr : (pieces ← str_rsplit (p' +:+ ".drawio") "." 1;
                      py_index pieces (-1)) = Ok "drawio")
          by (by apply rsplit_last_present).
        rewrite <- E, (rsplit_last_present p q Hq) in Hr. congruence.
  - exists filename. split; [by apply rsplit_last_absent|].
    rewrite String.eqb_eq. split; [by left|].
    intros [E|[p E]]; [done|].
    rewrite E, char_in_app in Hc. simpl in Hc.
    rewrite orb_true_r in Hc. discriminate.
Qed.

(** X13: [load] reads the file, decodes it as UTF-8 and hands the text
    to [assign], with [keepMxfileTag] at its default; the text is taken
    as encoded exactly when the file name is [drawio] or ends in
    [.drawio], since the test looks at what follows the last dot, or at
    the whole name when it has none. *)
Theorem load_reads_extension (fromstring : string -> result Element)
    (read_file : string -> result (list Z)) (fuel : nat)
    (filename : string) (data : list Z) (s : string) (w : World) :
  read_file filename = Ok data ->
  utf8.decode data = Ok s ->
  exists encoded : bool,
    load fromstring read_file fuel filename w
    = DrawIoFile.assign fromstring fuel s encoded true w
    /\ (encoded = true
        <-> filename = "drawio" \/ exists p, filename = p +:+ ".drawio").
Proof.
  intros Hr Hd. destruct (extension_drawio filename) as (ext & Hext & Hiff).
  exists (String.eqb ext "drawio"). split; [|exact Hiff].
  unfold load. rewrite Hr. cbn [mbind result_bind]. rewrite Hd, Hext.
  reflexivity.
Qed.

Lemma load_reads_extension_witness :
  (read_sample "a.drawio" = Ok (str_encode "<sample/>")
   /\ utf8.decode (str_encode "<sample/>") = Ok "<sample/>")
  /\ exists encoded : bool,
       load parse_sample read_sample 2 "a.drawio" empty_world
       = DrawIoFile.assign parse_sample 2 "<sample/>" encoded true empty_world
       /\ (encoded = true
           <-> "a.drawio" = "drawio"
               \/ exists p, "a.drawio" = p +:+ ".drawio").
Proof.
  assert (H1 : read_sample "a.drawio" = Ok (str_encode "<sample/>"))
    by reflexivity.
  assert (H2 : utf8.decode (str_encode "<sample/>") = Ok "<sample/>")
    by (vm_compute; reflexivity).
  exact (conj (conj H1 H2)
           (load_reads_extension parse_sample read_sample 2 "a.drawio" _ _
              empty_world H1 H2)).
Defined.

(** The first piece of a split begins with what the scan has read. *)
Lemma split_scan_head sep budget s : forall skip cur,
  exists x rest,
    PyStr.split_scan sep budget skip cur s = (String.rev cur +:+ x) :: rest.
Proof.
  induction s as [|c s IH]; intros skip cur.
  - exists "", []. simpl. by rewrite app_nil_r_str.
  - simpl. destruct skip as [|k]; [|apply IH].
    destruct budget as [[|n]|], (PyStr.strip_prefix sep (String c s)).
    all: try (destruct (IH O (String c cur)) as (x & rest & ->);
              exists (String c x), rest; f_equal;
              rewrite rev_String, app_assoc_str; reflexivity).
    all: eexists "", _; rewrite app_nil_r_str; reflexivity.
Qed.

Lemma cmdline_arg_unknown (fromstring : string -> result Element)
    (read_file : string -> result (list Z)) (tostring : Element -> list Z)
    (strip : string -> string) (fuel : nat) (arg : string)
    (printhelp : bool) (p : Process) :
  (exists tail, arg = "--encode" +:+ tail \/ arg = "--decode" +:+ tail) ->
  cmdline_arg fromstring read_file tostring strip fuel arg printhelp p
  = Ok (true, mkProcess (mx p) (stdout p ++ [unknown_line arg])).
Proof.
  intros [tail Harg]. unfold cmdline_arg.
  assert (Hs : str_startswith arg "-" = true)
    by (destruct Harg as [-> | ->]; reflexivity).
  rewrite Hs.
  assert (Hkv : exists x rest,
            PyStr.splitn arg "=" 1 = Ok ((String "-" (String "-" x)) :: rest)
            /\ exists c y, x = String c y /\ (c = "e" \/ c = "d")%char).
  { unfold PyStr.splitn, PyStr.split_with.
    destruct Harg as [-> | ->]; simpl;
      match goal with
      | |- context [PyStr.split_scan ?sep ?b ?k ?cur ?s] =>
          destruct (split_scan_head sep b s k cur) as (x & rest & ->)
      end; do 2 eexists; (split; [reflexivity|]);
      do 2 eexists; (split; [reflexivity|]); auto. }
  destruct Hkv as (x & rest & -> & c & y & -> & Hc).
  unfold pure at 1. unfold mbind at 1, P_bind at 1. cbn [mbind result_bind].
  unfold pure at 1. unfold mbind at 1, P_bind at 1.
  cbn [py_index length Z.of_nat Z.ltb Z.compare orb Z.leb Z.to_nat lookup
       list_lookup mbind result_bind Pos.of_succ_nat Pos.compare
       Pos.compare_cont negb Pos.succ].
  assert (Hstr : str_index arg 0 = Ok "-")
    by (destruct Harg as [-> | ->]; reflexivity).
  destruct Hc as [-> | ->]; simpl; unfold pure at 1;
    unfold mbind at 1, P_bind at 1; rewrite Hstr; reflexivity.
Qed.

Lemma print_all_run lines p :
  print_all lines p = Ok (tt, mkProcess (mx p) (stdout p ++ lines)).
Proof.
  revert p; induction lines as [|l lines IH]; intros p; simpl.
  - rewrite app_nil_r. by destruct p.
  - unfold mbind, P_bind. simpl. rewrite IH. simpl.
    by rewrite <- app_assoc.
Qed.

Lemma cmdline_loop_unknown (fromstring : string -> result Element)
    (read_file : string -> result (list Z)) (tostring : Element -> list Z)
    (strip : string -> string) (fuel : nat) (args : list string) :
  forall printhelp p,
  args <> [] ->
  Forall (fun arg => exists tail,
            arg = "--encode" +:+ tail \/ arg = "--decode" +:+ tail) args ->
  cmdline_loop fromstring read_file tostring strip fuel args printhelp p
  = Ok (true, mkProcess (mx p) (stdout p ++ (unknown_line <$> args))).
Proof.
  induction args as [|arg args IH]; intros printhelp p Hne Hall; [done|].
  apply Forall_cons in Hall as [Harg Hall]. simpl.
  unfold mbind, P_bind. rewrite cmdline_arg_unknown by done.
  destruct args as [|arg' args]; [done|].
  rewrite IH by done. simpl. by rewrite <- app_assoc.
Qed.

Lemma cmdline_unfold (fromstring : string -> result Element)
    (read_file : string -> result (list Z)) (tostring : Element -> list Z)
    (strip : string -> string) (fuel : nat) (args : list string)
    (p : Process) :
  cmdline fromstring read_file tostring strip fuel args p
  = match cmdline_loop fromstring read_file tostring strip fuel args false p
    with
    | Ok (true, p') => Ok (-1, mkProcess (mx p') (stdout p' ++ usage))
    | Ok (false, p') => Ok (0, p')
    | Raise e => Raise e
    | OutOfFuel => OutOfFuel
    | Stuck => Stuck
    end.
Proof.
  unfold cmdline, mbind at 1, P_bind at 1.
  destruct (cmdline_loop _ _ _ _ _ _ _ _) as [[[] p']| | |]; try reflexivity.
  unfold mbind, P_bind. by rewrite print_all_run.
Qed.

(** X14: the options [--encode=file] and [--decode=file], which the
    usage text announces, are not recognised: the test for the first
    compares the one character [arg[0]] with [--encode], and no branch
    tests for the second.  For a command line made of such arguments
    [cmdline] opens no file, prints one [ERR: Unknown Argument] line per
    argument and then the usage text, and returns -1. *)
Theorem cmdline_encode_option_unknown (fromstring : string -> result Element)
    (read_file : string -> result (list Z)) (tostring : Element -> list Z)
    (strip : string -> string) (fuel : nat) (args : list string)
    (p : Process) :
  args <> [] ->
  Forall (fun arg => exists tail,
            arg = "--encode" +:+ tail \/ arg = "--decode" +:+ tail) args ->
  cmdline fromstring read_file tostring strip fuel args p
  = Ok (-1, mkProcess (mx p)
              (stdout p ++ (unknown_line <$> args) ++ usage)).
Proof.
  intros Hne Hall. rewrite cmdline_unfold, cmdline_loop_unknown by done.
  simpl. by rewrite <- app_assoc.
Qed.

Lemma cmdline_encode_option_unknown_witness :
  (["--encode=a.xml"; "--decode=a.drawio"] <> []
   /\ Forall (fun arg => exists tail,
                arg = "--encode" +:+ tail \/ arg = "--decode" +:+ tail)
             ["--encode=a.xml"; "--decode=a.drawio"])
  /\ cmdline parse_sample read_sample str_encode_element id 2
       ["--encode=a.xml"; "--decode=a.drawio"] (mkProcess empty_world [])
     = Ok (-1, mkProcess empty_world
                 ([] ++ (unknown_line
                           <$> ["--encode=a.xml"; "--decode=a.drawio"])
                  ++ usage)).
Proof.
  assert (H1 : ["--encode=a.xml"; "--decode=a.drawio"] <> []) by discriminate.
  assert (H2 : Forall (fun arg => exists tail,
                  arg = "--encode" +:+ tail \/ arg = "--decode" +:+ tail)
                 ["--encode=a.xml"; "--decode=a.drawio"]).
  { repeat constructor.
    - exists "=a.xml". by left.
    - exists "=a.drawio". by right. }
  exact (conj (conj H1 H2)
           (cmdline_encode_option_unknown parse_sample read_sample
              str_encode_element id 2 _ (mkProcess empty_world []) H1 H2)).
Defined.

(** X15: a bare file name that does not end in [.drawio] is taken as a
    request to encode, and [encoded] raises NotImplementedError: on such
    an argument [cmdline] never returns, and when the file loads the
    exception is NotImplementedError, whatever arguments follow. *)
Theorem cmdline_cannot_encode (fromstring : string -> result Element)
    (read_file : string -> result (list Z)) (tostring : Element -> list Z)
    (strip : string -> string) (fuel : nat) (filename : string)
    (rest : list string) (p : Process) :
  str_startswith filename "-" = false ->
  str_endswith filename ".drawio" = false ->
  (forall r, cmdline fromstring read_file tostring strip fuel
               (filename :: rest) p <> Ok r)
  /\ (forall w', DrawIoFile__init__ fromstring read_file fuel filename (mx p)
                 = Ok (tt, w') ->
        cmdline fromstring read_file tostring strip fuel (filename :: rest) p
        = Raise NotImplementedError).
Proof.
  intros Hs He.
  assert (Hl : cmdline_loop fromstring read_file tostring strip fuel
                 (filename :: rest) false p
               = match DrawIoFile__init__ fromstring read_file fuel filename
                         (mx p) with
                 | Ok _ => Raise NotImplementedError
                 | Raise e => Raise e
                 | OutOfFuel => OutOfFuel
                 | Stuck => Stuck
                 end).
  { cbn [cmdline_loop]. unfold mbind at 1, P_bind at 1.
    unfold cmdline_arg. rewrite Hs, He.
    unfold mbind at 1, P_bind at 1, on_mx at 1.
    by destruct (DrawIoFile__init__ _ _ _ _ _) as [[[] w1]| | |]. }
  rewrite cmdline_unfold, Hl.
  destruct (DrawIoFile__init__ _ _ _ _ _) as [[[] w1]| | |]; split;
    try discriminate; try (intros ? [=]); try reflexivity.
Qed.

Lemma cmdline_cannot_encode_witness :
  (str_startswith "a.xml" "-" = false
   /\ str_endswith "a.xml" ".drawio" = false)
  /\ (forall r, cmdline parse_sample read_sample str_encode_element id 2
                  ["a.xml"] (mkProcess empty_world []) <> Ok r)
  /\ (forall w', DrawIoFile__init__ parse_sample read_sample 2 "a.xml"
                   (mx (mkProcess empty_world [])) = Ok (tt, w') ->
        cmdline parse_sample read_sample str_encode_element id 2
          ["a.xml"] (mkProcess empty_world [])
        = Raise NotImplementedError).
Proof.
  assert (H1 : str_startswith "a.xml" "-" = false) by reflexivity.
  assert (H2 : str_endswith "a.xml" ".drawio" = false)
    by (vm_compute; reflexivity).
  exact (conj (conj H1 H2)
           (cmdline_cannot_encode parse_sample read_sample str_encode_element
              id 2 "a.xml" [] (mkProcess empty_world []) H1 H2)).
Defined.

(** The sample file under a name in [.xml] loads, so the exception is
    that of [encoded]. *)
Example cmdline_xml_sample :
  cmdline parse_sample read_sample str_encode_element id 2 ["a.xml"]
    (mkProcess empty_world [])
  = Raise NotImplementedError.
Proof. vm_compute. reflexivity. Qed.

Lemma pbind_run {A B} (c : P A) (k : A -> P B) p a p' :
  c p = Ok (a, p') -> (c ≫= k) p = k a p'.
Proof. unfold mbind, P_bind. by intros ->. Qed.

Lemma pure_run {A} (r : result A) (a : A) p : r = Ok a -> pure r p = Ok (a, p).
Proof. unfold pure. by intros ->. Qed.


Lemma str_index_1 (a b : ascii) (s : string) :
  str_index (String a (String b s)) 1 = Ok (String b "").
Proof.
  unfold str_index, py_index. cbn [list_ascii_of_string length].
  replace (1 <? 0) with false by reflexivity.
  replace (1 <? 0) with false by reflexivity. cbn [orb].
  destruct (Z.leb_spec (Z.of_nat (S (S (length (list_ascii_of_string s))))) 1)
    as [H|H]; [lia|]. reflexivity.
Qed.






(** The sample file: the option raises. *)
Example cmdline_tree_sample :
  cmdline parse_sample read_sample str_encode_element id 2 ["--tree=a.xml"]
    (mkProcess empty_world [])
  = Raise IndexError.
Proof. vm_compute. reflexivity. Qed.

(** X17: the option [--kv] opens the file named by [arg[1]], the second
    character of the argument, which is [-]: whatever follows the [=] is
    ignored, and what is printed is the decoded text of the file [-]. *)
Theorem cmdline_kv_opens_dash (fromstring : string -> result Element)
    (read_file : string -> result (list Z)) (tostring : Element -> list Z)
    (strip : string -> string) (fuel : nat) (filename : string)
    (printhelp : bool) (p : Process) :
  cmdline_arg fromstring read_file tostring strip fuel
    ("--kv=" +:+ filename) printhelp p
  = (_ ← on_mx (DrawIoFile__init__ fromstring read_file fuel "-");
     s ← on_mx (decoded tostring strip);
     _ ← print s;
     mret printhelp) p.
Proof.
  unfold cmdline_arg.
  change (str_startswith ("--kv=" +:+ filename) "-") with true.
  cbv iota.
  assert (Hkv : PyStr.splitn ("--kv=" +:+ filename) "=" 1
                = Ok ["--kv"; filename]).
  { apply (splitn_first "=" "" "--kv" filename); [done|no_occurrence]. }
  rewrite (pbind_run _ _ _ _ _ (pure_run _ _ p Hkv)).
  rewrite (pbind_run _ _ p "--kv" p) by reflexivity.
  change (String.eqb "--kv" "--help" || String.eqb "--kv" "-h") with false.
  cbv iota.
  rewrite (pbind_run _ _ p "-" p) by reflexivity.
  change (String.eqb "-" "--encode") with false.
  change (String.eqb "--kv" "--kv") with true.
  cbv iota.
  rewrite (pbind_run _ _ p "-" p)
    by (apply pure_run, (str_index_1 "-" "-")).
  reflexivity.
Qed.

(** ** Blocks with other characters *)



(** A payload broken over indented lines decodes as the payload in one
    piece does. *)
Example folded_block_decodes :
  strip_junk (str_encode folded_block) = str_encode "AQMA/P8leno="
  /\ _mxDecodeBlock (VStr folded_block) = Ok "%zz"
  /\ _mxDecodeBlock (VStr "AQMA/P8leno=") = Ok "%zz".
Proof. repeat split; vm_compute; reflexivity. Qed.

(** ** The text of [treeStr] *)

Lemma char_in_join c sep pieces :
  char_in c sep = false ->
  Forall (fun p => char_in c p = false) pieces ->
  char_in c (PyStr.join sep pieces) = false.
Proof.
  intros Hsep. induction pieces as [|p [|q rest] IH]; intros Hall.
  - reflexivity.
  - by apply Forall_cons in Hall as [? _].
  - apply Forall_cons in Hall as [Hp Hall].
    change (PyStr.join sep (p :: q :: rest))
      with (p +:+ sep +:+ PyStr.join sep (q :: rest)).
    rewrite !char_in_app, Hp, Hsep, IH by done. reflexivity.
Qed.

(** X19: [treeStr] joins the lines of the tree with the indent, not with
    a line break: when neither the indent nor any item's name holds a
    line feed, the text it returns holds none, whatever the shape of the
    tree and the set of items to ignore. *)
Theorem treeStr_has_no_line_break (fuel : nat) (w : World) (self : loc)
    (indent : string) (ignore : option (gset loc)) (s : string) :
  MxItem.treeStr fuel w self indent ignore = Ok s ->
  char_in LF indent = false ->
  Forall (fun it => char_in LF (MxItem.name it) = false) (store w) ->
  char_in LF s = false.
Proof.
  intros H Hind Hnames. revert self indent s H Hind.
  induction fuel as [|fuel IH]; intros self indent s H Hind; [discriminate|].
  cbn [MxItem.treeStr] in H. unfold item_at in H.
  destruct (store w !! self) as [it|] eqn:Hit; [|discriminate].
  cbn [mbind result_bind] in H.
  assert (Hname : char_in LF (MxItem.name it) = false).
  { eapply (Forall_lookup_1 _ _ _ _ Hnames Hit). }
  assert (Hind' : char_in LF (indent +:+ "   ") = false)
    by (by rewrite char_in_app, Hind).
  assert (Hhead : char_in LF (indent +:+ MxItem.name it) = false)
    by (by rewrite char_in_app, Hind, Hname).
  destruct ignore as [ig|].
  - destruct (bool_decide (self ∈ ig)).
    + cbn [mbind result_bind] in H. injection H as <-.
      change (char_in LF (PyStr.join (indent +:+ "   ")
                            [indent +:+ MxItem.name it; "..."]) = false).
      apply char_in_join; [done|]. repeat constructor; done.
    + destruct (rmapM _ _) as [below| | |] eqn:Hb; try discriminate.
      cbn [mbind result_bind] in H. injection H as <-.
      change (char_in LF (PyStr.join (indent +:+ "   ")
                            ((indent +:+ MxItem.name it) :: below)) = false).
      apply char_in_join; [done|]. constructor; [done|].
      apply rmapM_Ok_Forall2 in Hb.
      clear -Hb IH Hind'. induction Hb as [|c t cs ts Hc _ IHb];
        constructor; [|exact IHb].
      by apply (IH c _ t Hc).
  - cbn [mbind result_bind] in H. injection H as <-. exact Hhead.
Qed.

Lemma treeStr_has_no_line_break_witness :
  (MxItem.treeStr 3 shadow_world 1%nat "" (Some ∅)
   = Ok "mxCell      mxCell"
   /\ char_in LF "" = false
   /\ Forall (fun it => char_in LF (MxItem.name it) = false)
             (store shadow_world))
  /\ char_in LF "mxCell      mxCell" = false.
Proof.
  assert (H1 : MxItem.treeStr 3 shadow_world 1%nat "" (Some ∅)
               = Ok "mxCell      mxCell") by (vm_compute; reflexivity).
  assert (H2 : char_in LF "" = false) by reflexivity.
  assert (H3 : Forall (fun it => char_in LF (MxItem.name it) = false)
                      (store shadow_world)).
  { apply Forall_forall. intros it Hit. vm_compute in Hit.
    repeat (apply elem_of_cons in Hit as [->|Hit]; [vm_compute; reflexivity|]).
    by apply elem_of_nil in Hit. }
  exact (conj (conj H1 (conj H2 H3))
           (treeStr_has_no_line_break 3 shadow_world 1%nat "" (Some ∅) _
              H1 H2 H3)).
Defined.
